(** * ZOF: zero-of-function solvers (ZOF_CLI.py, app.py)

    A shallow embedding of the six root-finding methods of [ZOF_CLI.py],
    of the result printing of its [main], and of [run_method] of [app.py],
    followed by the properties of the specification that can be settled on
    them.

    Python floats are IEEE 754 binary64 numbers; they are embedded as Rocq's
    primitive floats, which are the same numbers with the same rounding.  The
    solvers are written once over a class [Number] of arithmetic, so that the
    very same definitions also run over exact rationals: this is where the
    textbook properties of the methods (halving, enclosure) live. *)

From Stdlib Require Import ZArith QArith Qabs Qminmax Floats List String Ascii.
From Stdlib Require Import Bool.
From Stdlib Require Import DecimalString Lia Lqa.
Import ListNotations.

Set Warnings "-inexact-float".
Local Open Scope string_scope.

(* ================================================================= *)
(** ** Python run time: exceptions *)

(** The exceptions that the modelled code can meet.  [OtherError] stands for
    whatever the compiled expression raises when it is evaluated
    (ValueError of [math], OverflowError of [**], ...). *)
Inductive exn : Type :=
| ZeroDivisionError (msg : string)
| IndexError (msg : string)
| KeyError (msg : string)
| UnboundLocalError (msg : string)
| ValueError (msg : string)
| TypeError (msg : string)
| OtherError (msg : string).

(** [str(e)] *)
Definition str_exn (e : exn) : string :=
  match e with
  | ZeroDivisionError m | IndexError m | KeyError m | UnboundLocalError m
  | ValueError m | TypeError m | OtherError m => m
  end.

(** A Python computation either yields a value or raises. *)
Inductive py (A : Type) : Type :=
| Ok (a : A)
| Raise (e : exn).
Arguments Ok {A} a.
Arguments Raise {A} e.

Definition bind {A B : Type} (m : py A) (k : A -> py B) : py B :=
  match m with
  | Ok a => k a
  | Raise e => Raise e
  end.

Notation "x <- m ;; k" := (bind m (fun x => k))
  (at level 61, m at next level, right associativity).
Notation "' pat <- m ;; k" := (bind m (fun x => match x with pat => k end))
  (at level 61, pat pattern, m at next level, right associativity).

(* ================================================================= *)
(** ** Numbers *)

(** The arithmetic the solvers use: [+ - * /], [abs], the comparisons
    [<], [<=], [==], integer literals ([0], [2]) and the float literal
    [1e10]. *)
Class Number (R : Type) : Type := {
  add : R -> R -> R;
  sub : R -> R -> R;
  mul : R -> R -> R;
  div : R -> R -> R;
  abs : R -> R;
  ltb : R -> R -> bool;
  leb : R -> R -> bool;
  eqb : R -> R -> bool;
  of_Z : Z -> R;
  ten_pow_10 : R
}.

Definition zero {R : Type} `{Number R} : R := of_Z 0.
Definition two {R : Type} `{Number R} : R := of_Z 2.

Declare Scope num_scope.
Delimit Scope num_scope with num.
Infix "+" := add : num_scope.
Infix "-" := sub : num_scope.
Infix "*" := mul : num_scope.
Infix "<?" := ltb : num_scope.
Infix "<=?" := leb : num_scope.
Infix "==?" := eqb (at level 70) : num_scope.

(** What the proofs that do not depend on rounding need of the
    comparisons. *)
Class NumberLaws (R : Type) `{Number R} : Prop := {
  two_nonzero : eqb two zero = false;
  eqb_not_ltb : forall x y : R, eqb x y = true -> ltb x y = false
}.

(** An integer as a float (exact below 2^53, which covers the literals of
    the program). *)
Definition float_of_Z (z : Z) : float :=
  match z with
  | Z0 => 0%float
  | Zpos _ => PrimFloat.of_uint63 (Uint63.of_Z z)
  | Zneg p => PrimFloat.opp (PrimFloat.of_uint63 (Uint63.of_Z (Zpos p)))
  end.

(** binary64, the numbers of the Python program *)
#[export] Instance float_Number : Number float := {|
  add := PrimFloat.add;
  sub := PrimFloat.sub;
  mul := PrimFloat.mul;
  div := PrimFloat.div;
  abs := PrimFloat.abs;
  ltb := PrimFloat.ltb;
  leb := PrimFloat.leb;
  eqb := PrimFloat.eqb;
  of_Z := float_of_Z;
  ten_pow_10 := 1e10%float
|}.

(** exact rationals, the arithmetic of the textbook methods *)
#[export] Instance Q_Number : Number Q := {|
  add := Qplus;
  sub := Qminus;
  mul := Qmult;
  div := Qdiv;
  abs := Qabs;
  ltb := fun x y => negb (Qle_bool y x);
  leb := Qle_bool;
  eqb := Qeq_bool;
  of_Z := inject_Z;
  ten_pow_10 := 10000000000%Q
|}.

Section Division.
Context {R : Type} `{Number R}.

(** Python's [x / y] on floats raises when [y] is zero. *)
Definition pydiv (x y : R) : py R :=
  if eqb y zero then Raise (ZeroDivisionError "float division by zero")
  else Ok (div x y).
End Division.

(* ================================================================= *)
(** ** Iteration records *)

Section Rows.
Context {R : Type}.

(** The values stored in an iteration record: the index, a number, or
    (in [app.py]) a formatted string. *)
Inductive value : Type :=
| VInt (i : Z)
| VNum (x : R)
| VStr (s : string).

(** A record is a dict with string keys; insertion order is kept, as it
    decides the column order of the printed table. *)
Definition row : Type := list (string * value).

Fixpoint lookup (k : string) (r : row) : option value :=
  match r with
  | [] => None
  | (k', v) :: r' => if String.eqb k k' then Some v else lookup k r'
  end.

(** [r[k]] *)
Definition getitem (r : row) (k : string) : py value :=
  match lookup k r with
  | Some v => Ok v
  | None => Raise (KeyError k)
  end.

(** What a solver returns: [(None, message)] or [(root, iterations)]. *)
Inductive outcome : Type :=
| Failure (msg : string)
| Success (root : R) (iterations : list row).

End Rows.
Arguments value R : clear implicits.
Arguments row R : clear implicits.
Arguments outcome R : clear implicits.

(** Control at the end of one pass through a loop body: a [return] inside
    the body, or the local variables handed to the next pass. *)
Inductive ctl (A St : Type) : Type :=
| Break (a : A)
| Next (s : St).
Arguments Break {A St} a.
Arguments Next {A St} s.

Section Loop.
Context {A St : Type}.

(** [for i in range(start, start + n): body], with the local variables
    of the loop in [St]. *)
Fixpoint for_range (body : Z -> St -> py (ctl A St)) (i : Z) (n : nat)
    (s : St) : py (ctl A St) :=
  match n with
  | O => Ok (Next s)
  | S n' =>
      match body i s with
      | Ok (Next s') => for_range body (i + 1)%Z n' s'
      | r => r
      end
  end.
End Loop.

(* ================================================================= *)
(** ** Expressions *)

(** Modelled from the spec: the expression compiler is the sympy library
    ([sympify], [diff], [lambdify]), which is not part of the repository.
    Following sections 4.1 and 9 of the specification, an expression is a
    tree over one free variable, [diff] is the exact symbolic derivative by
    the sum, product, quotient and power rules, and [lambdify] turns a tree
    into a callable whose evaluation may raise.  Only the arithmetic
    fragment is modelled (no transcendental functions); an integer power is
    evaluated by repeated multiplication. *)
Module Sympy.
Section Expr.
Context {R : Type} `{Number R}.
Local Open Scope num_scope.

Inductive expr : Type :=
| X
| Num (c : R)
| Add (e1 e2 : expr)
| Sub (e1 e2 : expr)
| Mul (e1 e2 : expr)
| Div (e1 e2 : expr)
| Pow (e : expr) (n : nat).

Fixpoint diff (e : expr) : expr :=
  match e with
  | X => Num (of_Z 1)
  | Num _ => Num (of_Z 0)
  | Add u v => Add (diff u) (diff v)
  | Sub u v => Sub (diff u) (diff v)
  | Mul u v => Add (Mul (diff u) v) (Mul u (diff v))
  | Div u v => Div (Sub (Mul (diff u) v) (Mul u (diff v))) (Pow v 2)
  | Pow u n =>
      match n with
      | O => Num (of_Z 0)
      | S m => Mul (Mul (Num (of_Z (Z.of_nat n))) (Pow u m)) (diff u)
      end
  end.

Fixpoint power (x : R) (n : nat) : R :=
  match n with
  | O => of_Z 1
  | S m => match m with O => x | S _ => power x m * x end
  end.

Fixpoint lambdify (e : expr) (x : R) : py R :=
  match e with
  | X => Ok x
  | Num c => Ok c
  | Add u v => a <- lambdify u x ;; b <- lambdify v x ;; Ok (a + b)
  | Sub u v => a <- lambdify u x ;; b <- lambdify v x ;; Ok (a - b)
  | Mul u v => a <- lambdify u x ;; b <- lambdify v x ;; Ok (a * b)
  | Div u v => a <- lambdify u x ;; b <- lambdify v x ;; pydiv a b
  | Pow u n => a <- lambdify u x ;; Ok (power a n)
  end.
End Expr.
Arguments expr R : clear implicits.
End Sympy.

(* ================================================================= *)
(** ** Console and strings *)

(** Standard input as the lines still to be read, standard output as the
    chunks written so far. *)
Record world : Type := { stdin : list string; stdout : list string }.

(** A computation that reads and writes the console and may raise; what was
    written before an exception stays written. *)
Definition io (A : Type) : Type := world -> py A * world.

Definition io_ret {A : Type} (a : A) : io A := fun w => (Ok a, w).

Definition io_bind {A B : Type} (m : io A) (k : A -> io B) : io B :=
  fun w =>
    match m w with
    | (Ok a, w') => k a w'
    | (Raise e, w') => (Raise e, w')
    end.

Notation "x <<- m ;; k" := (io_bind m (fun x => k))
  (at level 61, m at next level, right associativity).
Notation "m >>> k" := (io_bind m (fun _ => k))
  (at level 61, right associativity).

(** a pure computation inside [io] *)
Definition lift {A : Type} (m : py A) : io A := fun w => (m, w).

(** [print(s)] *)
Definition print (s : string) : io unit :=
  fun w => (Ok tt, {| stdin := stdin w; stdout := (stdout w ++ [s])%list |}).

(** [input(prompt)]: end of input raises EOFError *)
Definition input (prompt : string) : io string :=
  fun w =>
    let out := (stdout w ++ [prompt])%list in
    match stdin w with
    | [] => (Raise (OtherError "EOF when reading a line"),
             {| stdin := []; stdout := out |})
    | l :: rest => (Ok l, {| stdin := rest; stdout := out |})
    end.

(** [try: m  except Exception as e: h e] *)
Definition try_except {A : Type} (m : io A) (h : exn -> io A) : io A :=
  fun w =>
    match m w with
    | (Ok a, w') => (Ok a, w')
    | (Raise e, w') => h e w'
    end.

Definition nl : string := String "010" EmptyString.

(** [str(i)] for an int *)
Definition str_int (i : Z) : string := NilZero.string_of_int (Z.to_int i).

Fixpoint repeat_string (s : string) (n : nat) : string :=
  match n with
  | O => ""
  | S n' => s ++ repeat_string s n'
  end.

(** [s.ljust(width)] *)
Definition ljust (s : string) (width : nat) : string :=
  s ++ repeat_string " " (width - String.length s).

(** [s[:n]] *)
Definition take (n : nat) (s : string) : string := substring 0 n s.

(** [r[-1]] of a list *)
Definition last_item {A : Type} (l : list A) : py A :=
  match rev l with
  | [] => Raise (IndexError "list index out of range")
  | x :: _ => Ok x
  end.

(** [r[0]] of a list *)
Definition first_item {A : Type} (l : list A) : py A :=
  match l with
  | [] => Raise (IndexError "list index out of range")
  | x :: _ => Ok x
  end.

(* ================================================================= *)
(** ** The numerical methods of ZOF_CLI.py *)

Module CLI.
Section Methods.
Context {R : Type} `{Number R}.
Local Open Scope num_scope.

(** A compiled function: evaluation yields a number or raises. *)
Definition fn : Type := R -> py R.

(** *** bisection *)

Definition bisection_body (f : fn) (tol : R) (i : Z)
    (s : R * R * list (row R)) : py (ctl (outcome R) (R * R * list (row R))) :=
  let '(a, b, iterations) := s in
  c <- pydiv (a + b) two ;;
  fc <- f c ;;
  let error := abs (b - a) in
  let iterations := (iterations ++
    [[("iter", VInt i); ("a", VNum a); ("b", VNum b); ("mid", VNum c);
      ("f_mid", VNum fc); ("error", VNum error)]])%list in
  if (abs fc <? tol) || (error <? tol) then Ok (Break (Success c iterations))
  else
    fa <- f a ;;
    if fa * fc <? zero then Ok (Next (a, c, iterations))
    else Ok (Next (c, b, iterations)).

Definition bisection (f : fn) (a b tol : R) (max_iter : Z)
    : py (outcome R) :=
  fa <- f a ;;
  fb <- f b ;;
  if zero <=? fa * fb then
    Ok (Failure "Bisection fails: f(a) and f(b) must have opposite signs.")
  else
    r <- for_range (bisection_body f tol) 1 (Z.to_nat max_iter) (a, b, []) ;;
    match r with
    | Break o => Ok o
    | Next (a, b, iterations) =>
        c <- pydiv (a + b) two ;;
        Ok (Success c iterations)
    end.


(** *** regula falsi

    The local variable [c] is bound by the first pass through the loop;
    [None] is the unbound variable. *)

Definition regula_falsi_body (f : fn) (tol : R) (i : Z)
    (s : R * R * option R * list (row R))
    : py (ctl (outcome R) (R * R * option R * list (row R))) :=
  let '(a, b, _, iterations) := s in
  fa <- f a ;;
  fb <- f b ;;
  if fb - fa ==? zero then Ok (Break (Failure "Division by zero encountered."))
  else
    c <- pydiv (a * fb - b * fa) (fb - fa) ;;
    fc <- f c ;;
    let error := abs fc in
    let iterations := (iterations ++
      [[("iter", VInt i); ("a", VNum a); ("b", VNum b); ("c", VNum c);
        ("f_c", VNum fc); ("error", VNum error)]])%list in
    if abs fc <? tol then Ok (Break (Success c iterations))
    else
      fa' <- f a ;;
      if fa' * fc <? zero then Ok (Next (a, c, Some c, iterations))
      else Ok (Next (c, b, Some c, iterations)).

Definition regula_falsi (f : fn) (a b tol : R) (max_iter : Z)
    : py (outcome R) :=
  fa <- f a ;;
  fb <- f b ;;
  if zero <=? fa * fb then
    Ok (Failure "Regula Falsi fails: f(a) and f(b) must have opposite signs.")
  else
    r <- for_range (regula_falsi_body f tol) 1 (Z.to_nat max_iter)
           (a, b, None, []) ;;
    match r with
    | Break o => Ok o
    | Next (_, _, Some c, iterations) => Ok (Success c iterations)
    | Next (_, _, None, _) =>
        Raise (UnboundLocalError
          "cannot access local variable 'c' where it is not associated with a value")
    end.

(** *** secant *)

Definition secant_body (f : fn) (tol : R) (i : Z)
    (s : R * R * list (row R)) : py (ctl (outcome R) (R * R * list (row R))) :=
  let '(x0, x1, iterations) := s in
  fx0 <- f x0 ;;
  fx1 <- f x1 ;;
  if fx1 - fx0 ==? zero then
    Ok (Break (Failure "Division by zero: f(x1) - f(x0) is zero."))
  else
    q <- pydiv (fx1 * (x1 - x0)) (fx1 - fx0) ;;
    let x2 := x1 - q in
    let error := abs (x2 - x1) in
    let iterations := (iterations ++
      [[("iter", VInt i); ("x_prev", VNum x0); ("x_curr", VNum x1);
        ("x_new", VNum x2); ("error", VNum error)]])%list in
    if error <? tol then Ok (Break (Success x2 iterations))
    else Ok (Next (x1, x2, iterations)).

Definition secant (f : fn) (x0 x1 tol : R) (max_iter : Z) : py (outcome R) :=
  r <- for_range (secant_body f tol) 1 (Z.to_nat max_iter) (x0, x1, []) ;;
  match r with
  | Break o => Ok o
  | Next (_, x1, iterations) => Ok (Success x1 iterations)
  end.

(** *** Newton-Raphson *)

Definition newton_raphson_body (f df : fn) (tol : R) (i : Z)
    (s : R * list (row R)) : py (ctl (outcome R) (R * list (row R))) :=
  let '(x_curr, iterations) := s in
  fx <- f x_curr ;;
  dfx <- df x_curr ;;
  if dfx ==? zero then Ok (Break (Failure "Derivative is zero. Method fails."))
  else
    q <- pydiv fx dfx ;;
    let x_next := x_curr - q in
    let error := abs (x_next - x_curr) in
    let iterations := (iterations ++
      [[("iter", VInt i); ("x_curr", VNum x_curr); ("f_x", VNum fx);
        ("df_x", VNum dfx); ("x_next", VNum x_next);
        ("error", VNum error)]])%list in
    if error <? tol then Ok (Break (Success x_next iterations))
    else Ok (Next (x_next, iterations)).

Definition newton_raphson (f df : fn) (x0 tol : R) (max_iter : Z)
    : py (outcome R) :=
  r <- for_range (newton_raphson_body f df tol) 1 (Z.to_nat max_iter)
         (x0, []) ;;
  match r with
  | Break o => Ok o
  | Next (x_curr, iterations) => Ok (Success x_curr iterations)
  end.

(** *** fixed point *)

Definition fixed_point_body (g : fn) (tol : R) (i : Z)
    (s : R * list (row R)) : py (ctl (outcome R) (R * list (row R))) :=
  let '(x_curr, iterations) := s in
  x_next <- g x_curr ;;
  let error := abs (x_next - x_curr) in
  let iterations := (iterations ++
    [[("iter", VInt i); ("x_curr", VNum x_curr); ("g_x", VNum x_next);
      ("error", VNum error)]])%list in
  if error <? tol then Ok (Break (Success x_next iterations))
  else
    if ten_pow_10 <? error then Ok (Break (Failure "Method diverged."))
    else Ok (Next (x_next, iterations)).

Definition fixed_point (g : fn) (x0 tol : R) (max_iter : Z)
    : py (outcome R) :=
  r <- for_range (fixed_point_body g tol) 1 (Z.to_nat max_iter) (x0, []) ;;
  match r with
  | Break o => Ok o
  | Next (x_curr, iterations) => Ok (Success x_curr iterations)
  end.

(** *** modified secant *)

Definition modified_secant_body (f : fn) (delta tol : R) (i : Z)
    (s : R * list (row R)) : py (ctl (outcome R) (R * list (row R))) :=
  let '(x_curr, iterations) := s in
  fx <- f x_curr ;;
  fx_delta <- f (x_curr + delta) ;;
  if fx_delta - fx ==? zero then
    Ok (Break (Failure "Division by zero in Modified Secant."))
  else
    q <- pydiv (delta * fx) (fx_delta - fx) ;;
    let x_next := x_curr - q in
    let error := abs (x_next - x_curr) in
    let iterations := (iterations ++
      [[("iter", VInt i); ("x_curr", VNum x_curr); ("x_next", VNum x_next);
        ("error", VNum error)]])%list in
    if error <? tol then Ok (Break (Success x_next iterations))
    else Ok (Next (x_next, iterations)).

Definition modified_secant (f : fn) (x0 delta tol : R) (max_iter : Z)
    : py (outcome R) :=
  r <- for_range (modified_secant_body f delta tol) 1 (Z.to_nat max_iter)
         (x0, []) ;;
  match r with
  | Break o => Ok o
  | Next (x_curr, iterations) => Ok (Success x_curr iterations)
  end.

End Methods.

(** *** The interactive front end

    sympy and the conversions between strings and numbers are libraries
    outside the repository: they are parameters here. *)
Section FrontEnd.
Context {R : Type} `{Number R}.
Variable expr : Type.
(** [sp.sympify] *)
Variable sympify : string -> py expr.
(** [sp.lambdify(x, e, modules=['numpy', 'math'])] *)
Variable lambdify : expr -> R -> py R.
(** [sp.diff(e, x)] *)
Variable diff : expr -> expr.
(** [str(e)] of an expression *)
Variable str_expr : expr -> string.
(** [float(s)] and [int(s)] *)
Variable float_of_string : string -> py R.
Variable int_of_string : string -> py Z.
(** [format(x, spec)]; the empty [spec] is [str(x)] *)
Variable format_num : string -> R -> string.

Definition parse_function (expr_str : string) : io (option (fn * expr)) :=
  match sympify expr_str with
  | Ok e => io_ret (Some (lambdify e, e))
  | Raise e =>
      print ("Error parsing function: " ++ str_exn e) >>> io_ret None
  end.

Definition get_derivative (e : expr) : fn := lambdify (diff e).

Definition str_value (v : value R) : string :=
  match v with
  | VInt i => str_int i
  | VNum x => format_num "" x
  | VStr s => s
  end.

(** [format(v, spec)] with a float presentation type *)
Definition format_value (spec : string) (v : value R) : py string :=
  match v with
  | VInt i => Ok (format_num spec (of_Z i))
  | VNum x => Ok (format_num spec x)
  | VStr _ => Raise (ValueError "Unknown format code for object of type 'str'")
  end.

Fixpoint print_rows (history : list (row R)) : io unit :=
  match history with
  | [] => io_ret tt
  | r :: rest =>
      print (concat " | "
               (map (fun kv => ljust (take 9 (str_value (snd kv))) 10) r))
      >>> print_rows rest
  end.

(** The [else] branch of the output of [main]: the summary and the
    iteration table. *)
Definition report (result : R) (history : list (row R)) : io unit :=
  print (nl ++ "Root found: " ++ format_num ".6f" result) >>>
  print ("Iterations: " ++ str_int (Z.of_nat (List.length history))) >>>
  last <<- lift (last_item history) ;;
  err <<- lift (getitem last "error") ;;
  final <<- lift (format_value ".6e" err) ;;
  print ("Final Error: " ++ final) >>>
  print (nl ++ "Iteration Table:") >>>
  first <<- lift (first_item history) ;;
  let headers := map fst first in
  let header_row := concat " | " (map (fun h => ljust h 10) headers) in
  print (repeat_string "-" (String.length header_row)) >>>
  print header_row >>>
  print (repeat_string "-" (String.length header_row)) >>>
  print_rows history.

(** The output of [main].  Every failure message of the solvers is a
    non-empty string, hence true as a condition. *)
Definition output (o : outcome R) : io unit :=
  match o with
  | Failure error_msg => print (nl ++ "Error: " ++ error_msg)
  | Success result history => report result history
  end.

Definition input_float (prompt : string) : io R :=
  s <<- input prompt ;; lift (float_of_string s).

Definition input_int (prompt : string) : io Z :=
  s <<- input prompt ;; lift (int_of_string s).

(** The method selected by [choice], with its own inputs. *)
Definition solve (choice : string) (f : fn) (e : expr) (tol : R)
    (max_iter : Z) : io (outcome R) :=
  if choice =? "1" then
    a <<- input_float "Enter lower bound a: " ;;
    b <<- input_float "Enter upper bound b: " ;;
    lift (bisection f a b tol max_iter)
  else if choice =? "2" then
    a <<- input_float "Enter lower bound a: " ;;
    b <<- input_float "Enter upper bound b: " ;;
    lift (regula_falsi f a b tol max_iter)
  else if choice =? "3" then
    x0 <<- input_float "Enter first guess x0: " ;;
    x1 <<- input_float "Enter second guess x1: " ;;
    lift (secant f x0 x1 tol max_iter)
  else if choice =? "4" then
    x0 <<- input_float "Enter initial guess x0: " ;;
    let df := get_derivative e in
    print ("Calculated Derivative: " ++ str_expr (diff e)) >>>
    lift (newton_raphson f df x0 tol max_iter)
  else if choice =? "5" then
    x0 <<- input_float "Enter initial guess x0: " ;;
    lift (fixed_point f x0 tol max_iter)
  else
    x0 <<- input_float "Enter initial guess x0: " ;;
    delta <<- input_float "Enter perturbation delta (e.g., 0.01): " ;;
    lift (modified_secant f x0 delta tol max_iter).

(** The body of the [try] of [main]. *)
Definition main_try (choice : string) : io unit :=
  func_str <<- input (if choice =? "5"
                      then "Enter g(x) for x = g(x) (e.g., 'exp(-x)'): "
                      else "Enter f(x) (e.g., 'x**3 - x - 2'): ") ;;
  p <<- parse_function func_str ;;
  match p with
  | None => io_ret tt
  | Some (f, e) =>
      tol <<- input_float "Enter tolerance (e.g., 0.0001): " ;;
      max_iter <<- input_int "Enter max iterations (e.g., 50): " ;;
      o <<- solve choice f e tol max_iter ;;
      output o
  end.

(** [except Exception as e] of [main] *)
Definition main_except (e : exn) : io unit :=
  print ("An error occurred: " ++ str_exn e).

Definition menu : io unit :=
  print (nl ++ "Select a Method:") >>>
  print "1. Bisection Method" >>>
  print "2. Regula Falsi Method" >>>
  print "3. Secant Method" >>>
  print "4. Newton-Raphson Method" >>>
  print "5. Fixed Point Iteration" >>>
  print "6. Modified Secant Method" >>>
  print "0. Exit".

(** One pass through [while True]; [false] is [break]. *)
Definition main_pass : io bool :=
  menu >>>
  choice <<- input (nl ++ "Enter choice (0-6): ") ;;
  if choice =? "0" then print "Exiting..." >>> io_ret false
  else if negb (existsb (String.eqb choice) ["1"; "2"; "3"; "4"; "5"; "6"])
  then print "Invalid choice." >>> io_ret true
  else try_except (main_try choice) main_except >>> io_ret true.

(** [while True], cut after [fuel] passes. *)
Fixpoint main_loop (fuel : nat) : io unit :=
  match fuel with
  | O => io_ret tt
  | S fuel' =>
      continue <<- main_pass ;;
      if continue then main_loop fuel' else io_ret tt
  end.

Definition main (fuel : nat) : io unit :=
  print "========================================" >>>
  print "   ZERO OF FUNCTIONS (ZOF) SOLVER CLI   " >>>
  print "========================================" >>>
  main_loop fuel.
End FrontEnd.
End CLI.

(* ================================================================= *)
(** ** run_method of app.py *)

Module App.
Section RunMethod.
Context {R : Type} `{Number R}.
Local Open Scope num_scope.
Variable expr : Type.
(** [sp.sympify], also of a missing form field *)
Variable sympify : option string -> py expr.
Variable lambdify : expr -> R -> py R.
Variable diff : expr -> expr.
Variable float_of_string : string -> py R.
Variable int_of_string : string -> py Z.
Variable format_num : string -> R -> string.

Definition fn : Type := R -> py R.

(** The dict that [run_method] returns. *)
Inductive response : Type :=
| RError (error : string)
| RResult (root : R) (history : list (row R)) (iters : Z).

(** The decoded form: field name to text. *)
Definition form : Type := list (string * string).

(** [params.get(k)] *)
Fixpoint get (params : form) (k : string) : option string :=
  match params with
  | [] => None
  | (k', v) :: rest => if String.eqb k k' then Some v else get rest k
  end.

(** [float(v)] and [int(v)] of a field that may be missing *)
Definition float_ (v : option string) : py R :=
  match v with
  | Some s => float_of_string s
  | None => Raise (TypeError
      "float() argument must be a string or a real number, not 'NoneType'")
  end.

Definition int_ (v : option string) : py Z :=
  match v with
  | Some s => int_of_string s
  | None => Raise (TypeError
      "int() argument must be a string, a bytes-like object or a real number, not 'NoneType'")
  end.

Definition parse_function (expr_str : option string) : option (fn * expr) :=
  match sympify expr_str with
  | Ok e => Some (lambdify e, e)
  | Raise _ => None
  end.

Definition get_derivative (e : expr) : fn := lambdify (diff e).

Definition fmt (spec : string) (x : R) : value R := VStr (format_num spec x).

Definition bisection_body (f : fn) (tol : R) (i : Z)
    (s : R * R * list (row R)) : py (ctl response (R * R * list (row R))) :=
  let '(a, b, history) := s in
  c <- pydiv (a + b) two ;;
  fc <- f c ;;
  let error := abs (b - a) in
  let history := (history ++
    [[("iter", VInt i); ("a", fmt ".4f" a); ("b", fmt ".4f" b);
      ("root", fmt ".6f" c); ("f_root", fmt ".6f" fc);
      ("error", fmt ".6e" error)]])%list in
  if (abs fc <? tol) || (error <? tol) then Ok (Break (RResult c history i))
  else
    fa <- f a ;;
    if fa * fc <? zero then Ok (Next (a, c, history))
    else Ok (Next (c, b, history)).

Definition run_bisection (f : fn) (a b tol : R) (max_iter : Z)
    : py response :=
  fa <- f a ;;
  fb <- f b ;;
  if zero <=? fa * fb then
    Ok (RError "f(a) and f(b) must have opposite signs")
  else
    r <- for_range (bisection_body f tol) 1 (Z.to_nat max_iter) (a, b, []) ;;
    match r with
    | Break o => Ok o
    | Next (a, b, history) =>
        c <- pydiv (a + b) two ;;
        Ok (RResult c history max_iter)
    end.

Definition regula_falsi_body (f : fn) (tol : R) (i : Z)
    (s : R * R * option R * list (row R))
    : py (ctl response (R * R * option R * list (row R))) :=
  let '(a, b, _, history) := s in
  fa <- f a ;;
  fb <- f b ;;
  if fb - fa ==? zero then Ok (Break (RError "Division by zero"))
  else
    c <- pydiv (a * fb - b * fa) (fb - fa) ;;
    fc <- f c ;;
    let error := abs fc in
    let history := (history ++
      [[("iter", VInt i); ("a", fmt ".4f" a); ("b", fmt ".4f" b);
        ("root", fmt ".6f" c); ("f_root", fmt ".6f" fc);
        ("error", fmt ".6e" error)]])%list in
    if abs fc <? tol then Ok (Break (RResult c history i))
    else
      fa' <- f a ;;
      if fa' * fc <? zero then Ok (Next (a, c, Some c, history))
      else Ok (Next (c, b, Some c, history)).

Definition run_regula_falsi (f : fn) (a b tol : R) (max_iter : Z)
    : py response :=
  fa <- f a ;;
  fb <- f b ;;
  if zero <=? fa * fb then
    Ok (RError "f(a) and f(b) must have opposite signs")
  else
    r <- for_range (regula_falsi_body f tol) 1 (Z.to_nat max_iter)
           (a, b, None, []) ;;
    match r with
    | Break o => Ok o
    | Next (_, _, Some c, history) => Ok (RResult c history max_iter)
    | Next (_, _, None, _) =>
        Raise (UnboundLocalError
          "cannot access local variable 'c' where it is not associated with a value")
    end.

Definition secant_body (f : fn) (tol : R) (i : Z)
    (s : R * R * list (row R)) : py (ctl response (R * R * list (row R))) :=
  let '(x0, x1, history) := s in
  fx0 <- f x0 ;;
  fx1 <- f x1 ;;
  if fx1 - fx0 ==? zero then Ok (Break (RError "Division by zero"))
  else
    q <- pydiv (fx1 * (x1 - x0)) (fx1 - fx0) ;;
    let x2 := x1 - q in
    let error := abs (x2 - x1) in
    let history := (history ++
      [[("iter", VInt i); ("x_prev", fmt ".4f" x0); ("x_curr", fmt ".4f" x1);
        ("root", fmt ".6f" x2); ("error", fmt ".6e" error)]])%list in
    if error <? tol then Ok (Break (RResult x2 history i))
    else Ok (Next (x1, x2, history)).

Definition run_secant (f : fn) (x0 x1 tol : R) (max_iter : Z)
    : py response :=
  r <- for_range (secant_body f tol) 1 (Z.to_nat max_iter) (x0, x1, []) ;;
  match r with
  | Break o => Ok o
  | Next (_, x1, history) => Ok (RResult x1 history max_iter)
  end.

Definition newton_body (f df : fn) (tol : R) (i : Z)
    (s : R * list (row R)) : py (ctl response (R * list (row R))) :=
  let '(x_curr, history) := s in
  fx <- f x_curr ;;
  dfx <- df x_curr ;;
  if dfx ==? zero then Ok (Break (RError "Derivative is zero"))
  else
    q <- pydiv fx dfx ;;
    let x_next := x_curr - q in
    let error := abs (x_next - x_curr) in
    let history := (history ++
      [[("iter", VInt i); ("x_curr", fmt ".4f" x_curr); ("f_x", fmt ".4f" fx);
        ("df_x", fmt ".4f" dfx); ("root", fmt ".6f" x_next);
        ("error", fmt ".6e" error)]])%list in
    if error <? tol then Ok (Break (RResult x_next history i))
    else Ok (Next (x_next, history)).

Definition run_newton (f df : fn) (x0 tol : R) (max_iter : Z)
    : py response :=
  r <- for_range (newton_body f df tol) 1 (Z.to_nat max_iter) (x0, []) ;;
  match r with
  | Break o => Ok o
  | Next (x_curr, history) => Ok (RResult x_curr history max_iter)
  end.

Definition fixed_point_body (f : fn) (tol : R) (i : Z)
    (s : R * list (row R)) : py (ctl response (R * list (row R))) :=
  let '(x_curr, history) := s in
  x_next <- f x_curr ;;
  let error := abs (x_next - x_curr) in
  let history := (history ++
    [[("iter", VInt i); ("x_curr", fmt ".4f" x_curr);
      ("g_x", fmt ".6f" x_next); ("error", fmt ".6e" error)]])%list in
  if error <? tol then Ok (Break (RResult x_next history i))
  else
    if ten_pow_10 <? error then Ok (Break (RError "Diverged"))
    else Ok (Next (x_next, history)).

Definition run_fixed_point (f : fn) (x0 tol : R) (max_iter : Z)
    : py response :=
  r <- for_range (fixed_point_body f tol) 1 (Z.to_nat max_iter) (x0, []) ;;
  match r with
  | Break o => Ok o
  | Next (x_curr, history) => Ok (RResult x_curr history max_iter)
  end.

Definition modified_secant_body (f : fn) (delta tol : R) (i : Z)
    (s : R * list (row R)) : py (ctl response (R * list (row R))) :=
  let '(x_curr, history) := s in
  fx <- f x_curr ;;
  fx_delta <- f (x_curr + delta) ;;
  if fx_delta - fx ==? zero then Ok (Break (RError "Division by zero"))
  else
    q <- pydiv (delta * fx) (fx_delta - fx) ;;
    let x_next := x_curr - q in
    let error := abs (x_next - x_curr) in
    let history := (history ++
      [[("iter", VInt i); ("x_curr", fmt ".4f" x_curr);
        ("root", fmt ".6f" x_next); ("error", fmt ".6e" error)]])%list in
    if error <? tol then Ok (Break (RResult x_next history i))
    else Ok (Next (x_next, history)).

Definition run_modified_secant (f : fn) (x0 delta tol : R) (max_iter : Z)
    : py response :=
  r <- for_range (modified_secant_body f delta tol) 1 (Z.to_nat max_iter)
         (x0, []) ;;
  match r with
  | Break o => Ok o
  | Next (x_curr, history) => Ok (RResult x_curr history max_iter)
  end.

(** The body of the [try]; [None] is the end of the [if] chain without a
    [return]. *)
Definition run_method_try (method_id : option string) (params : form)
    : py (option response) :=
  let func_str := get params "function" in
  tol <- float_ (get params "tolerance") ;;
  max_iter <- int_ (get params "max_iter") ;;
  match parse_function func_str with
  | None => Ok (Some (RError "Invalid Function String"))
  | Some (f, e) =>
      match method_id with
      | Some "1" =>
          a <- float_ (get params "param_a") ;;
          b <- float_ (get params "param_b") ;;
          r <- run_bisection f a b tol max_iter ;; Ok (Some r)
      | Some "2" =>
          a <- float_ (get params "param_a") ;;
          b <- float_ (get params "param_b") ;;
          r <- run_regula_falsi f a b tol max_iter ;; Ok (Some r)
      | Some "3" =>
          x0 <- float_ (get params "param_x0") ;;
          x1 <- float_ (get params "param_x1") ;;
          r <- run_secant f x0 x1 tol max_iter ;; Ok (Some r)
      | Some "4" =>
          x0 <- float_ (get params "param_x0") ;;
          let df := get_derivative e in
          r <- run_newton f df x0 tol max_iter ;; Ok (Some r)
      | Some "5" =>
          x0 <- float_ (get params "param_x0") ;;
          r <- run_fixed_point f x0 tol max_iter ;; Ok (Some r)
      | Some "6" =>
          x0 <- float_ (get params "param_x0") ;;
          delta <- float_ (get params "param_delta") ;;
          r <- run_modified_secant f x0 delta tol max_iter ;; Ok (Some r)
      | _ => Ok None
      end
  end.

Definition run_method (method_id : option string) (params : form)
    : response :=
  match run_method_try method_id params with
  | Ok (Some r) => r
  | Ok None => RError "Method not implemented"
  | Raise e => RError (str_exn e)
  end.
End RunMethod.
Arguments RError {R} error.
Arguments RResult {R} root history iters.
End App.

(* ================================================================= *)
(** * Vocabulary of the properties *)

(** ** Reading a record *)

Section Reading.
Context {R : Type} `{Number R}.
Local Open Scope num_scope.

(** the number stored under a key *)
Definition num_of (k : string) (r : row R) : option R :=
  match lookup k r with
  | Some (VNum x) => Some x
  | _ => None
  end.

(** The convergence test of regula falsi, secant, Newton-Raphson, fixed
    point and modified secant, on a record: [error < tol]. *)
Definition converged (tol : R) (r : row R) : bool :=
  match num_of "error" r with
  | Some e => e <? tol
  | None => false
  end.

(** The convergence test of bisection: [abs(fc) < tol or error < tol]. *)
Definition bisection_converged (tol : R) (r : row R) : bool :=
  match num_of "f_mid" r, num_of "error" r with
  | Some fc, Some e => (abs fc <? tol) || (e <? tol)
  | _, _ => false
  end.
End Reading.

(** The tie-break rule: from the bracket [a, b] and the new point [c] to
    the next bracket [a', b']. *)
Definition tie_break {R : Type} `{Number R} (fa fc a b c a' b' : R) : Prop :=
  (ltb (mul fa fc) zero = true -> a' = a /\ b' = c) /\
  (ltb (mul fa fc) zero = false -> a' = c /\ b' = b) /\
  (eqb (mul fa fc) zero = true -> a' = c /\ b' = b).

(** ** Exhausting the iterations *)

(** The loop runs all [max_iter] passes from [init]: no pass returns (the
    convergence test never holds, nothing fails, nothing raises), and the
    local variables end as [final]. *)
Definition exhausts {A St : Type} (body : Z -> St -> py (ctl A St))
    (max_iter : Z) (init final : St) : Prop :=
  for_range body 1 (Z.to_nat max_iter) init = Ok (Next final).



(** ** Success *)

(** If the outcome [o] is a success, then its last record meets the
    convergence test [conv], or else it used [max_iter] iterations. *)
Definition converged_or_exhausted {R : Type} (conv : row R -> bool)
    (max_iter : Z) (o : py (outcome R)) : Prop :=
  forall root h,
    o = Ok (Success root h) ->
    (exists r, last_item h = Ok r /\ conv r = true) \/
    Z.of_nat (List.length h) = max_iter.

(** ** Brackets *)

(** The width [abs(b - a)] of the bracket that a record of bisection or of
    regula falsi holds. *)
Definition width {R : Type} `{Number R} (r : row R) : option R :=
  match num_of "a" r, num_of "b" r with
  | Some a, Some b => Some (abs (sub b a))
  | _, _ => None
  end.

(** In exact arithmetic: the width does not grow from one record of the
    trace to the next. *)
Definition widths_nonincreasing (h : list (row Q)) : Prop :=
  forall i r r',
    nth_error h i = Some r -> nth_error h (S i) = Some r' ->
    exists w w', width r = Some w /\ width r' = Some w' /\ (w' <= w)%Q.

(** [x] lies in [[min(a, b), max(a, b)]]. *)
Definition within (a b x : Q) : Prop := (Qmin a b <= x <= Qmax a b)%Q.

(** [z] lies between [x] and [y], whichever is the smaller. *)
Definition between (x y z : Q) : Prop :=
  (x <= z <= y)%Q \/ (y <= z <= x)%Q.

(** The widths of the trace do not grow and none is below [w]. *)
Definition trace_above (w : Q) (h : list (row Q)) : Prop :=
  (forall r, In r h -> exists wr, width r = Some wr /\ (w <= wr)%Q) /\
  widths_nonincreasing h.

(** In exact arithmetic: the record of iteration [i + 1] (the one at index
    [i]) holds the bracket [a_i, b_i] that enters the iteration, its error
    is the width of that bracket, and this width is the width of the
    initial bracket [a, b] divided by [2 ^ i]. *)
Definition halves (a b : Q) (h : list (row Q)) : Prop :=
  forall i r,
    nth_error h i = Some r ->
    lookup "iter" r = Some (VInt (Z.of_nat i + 1)) /\
    exists ai bi,
      num_of "a" r = Some ai /\ num_of "b" r = Some bi /\
      num_of "error" r = Some (Qabs (bi - ai)) /\
      (Qabs (bi - ai) == Qabs (b - a) / inject_Z (2 ^ Z.of_nat i))%Q.

(** What the bracketing loops keep true in exact arithmetic, for the
    initial bracket [a, b]: both ends stay within it, and the trace has
    non-increasing widths, none below the width of the current bracket. *)
Definition bisection_inv (a b : Q) (s : Q * Q * list (row Q)) : Prop :=
  let '(ak, bk, h) := s in
  within a b ak /\ within a b bk /\ trace_above (Qabs (bk - ak)) h.

(** Regula falsi keeps moreover a sign change of [f] over the bracket, and
    its last point [c], once bound, within the initial bracket. *)
Definition regula_falsi_inv (f : Q -> py Q) (a b : Q)
    (s : Q * Q * option Q * list (row Q)) : Prop :=
  let '(ak, bk, c, h) := s in
  within a b ak /\ within a b bk /\
  (exists fa fb, f ak = Ok fa /\ f bk = Ok fb /\ (fa * fb < 0)%Q) /\
  trace_above (Qabs (bk - ak)) h /\
  (forall x, c = Some x -> within a b x).

(** A success has its root within the initial bracket and a trace of
    non-increasing widths. *)
Definition enclosed (a b : Q) (o : outcome Q) : Prop :=
  match o with
  | Success root h => within a b root /\ widths_nonincreasing h
  | Failure _ => True
  end.

(** What the loop of bisection keeps true in exact arithmetic at the start
    of iteration [k]: the trace has [k - 1] records that halve, and the
    current bracket has the initial width divided by [2 ^ (k - 1)]. *)
Definition halving_inv (a b : Q) (k : Z) (s : Q * Q * list (row Q)) : Prop :=
  let '(ak, bk, h) := s in
  (1 <= k)%Z /\ Z.of_nat (List.length h) = (k - 1)%Z /\
  (Qabs (bk - ak) == Qabs (b - a) / inject_Z (2 ^ (k - 1)))%Q /\
  halves a b h.

(** A success has a trace that halves. *)
Definition halved (a b : Q) (o : outcome Q) : Prop :=
  match o with
  | Success _ h => halves a b h
  | Failure _ => True
  end.


(** ** Well-formed traces *)

Section Traces.
Context {R : Type} `{Number R}.
Local Open Scope num_scope.

(** The record at position [k] of the trace (counted from 0) carries the
    iteration index [k + 1]. *)
Definition indexed (h : list (row R)) : Prop :=
  forall k r,
    nth_error h k = Some r -> lookup "iter" r = Some (VInt (Z.of_nat k + 1)).

(** No record before the last one meets the convergence test. *)
Definition stops_at_first (conv : row R -> bool) (h : list (row R)) : Prop :=
  forall k r,
    nth_error h k = Some r -> (S k < List.length h)%nat -> conv r = false.

(** Each record is linked to the one before it. *)
Definition chained (link : row R -> row R -> Prop) (h : list (row R)) : Prop :=
  forall k p r,
    nth_error h k = Some p -> nth_error h (S k) = Some r -> link p r.

(** Each record is as iteration [k + 1] of the method writes it. *)
Definition recorded (good : Z -> row R -> Prop) (h : list (row R)) : Prop :=
  forall k r, nth_error h k = Some r -> good (Z.of_nat k + 1)%Z r.

(** *** The records of each method, read off its loop body *)

Definition bisection_record (f : R -> py R) (i : Z) (r : row R) : Prop :=
  exists a b fc,
    lookup "iter" r = Some (VInt i) /\
    num_of "a" r = Some a /\ num_of "b" r = Some b /\
    num_of "mid" r = Some (div (a + b) two) /\
    f (div (a + b) two) = Ok fc /\ num_of "f_mid" r = Some fc /\
    num_of "error" r = Some (abs (b - a)).

Definition regula_falsi_record (f : R -> py R) (i : Z) (r : row R) : Prop :=
  exists a b fa fb fc,
    lookup "iter" r = Some (VInt i) /\
    num_of "a" r = Some a /\ num_of "b" r = Some b /\
    f a = Ok fa /\ f b = Ok fb /\ (fb - fa ==? zero) = false /\
    num_of "c" r = Some (div (a * fb - b * fa) (fb - fa)) /\
    f (div (a * fb - b * fa) (fb - fa)) = Ok fc /\
    num_of "f_c" r = Some fc /\
    num_of "error" r = Some (abs fc).

Definition secant_record (f : R -> py R) (i : Z) (r : row R) : Prop :=
  exists x0 x1 fx0 fx1,
    lookup "iter" r = Some (VInt i) /\
    num_of "x_prev" r = Some x0 /\ num_of "x_curr" r = Some x1 /\
    f x0 = Ok fx0 /\ f x1 = Ok fx1 /\ (fx1 - fx0 ==? zero) = false /\
    num_of "x_new" r = Some (x1 - div (fx1 * (x1 - x0)) (fx1 - fx0)) /\
    num_of "error" r
      = Some (abs (x1 - div (fx1 * (x1 - x0)) (fx1 - fx0) - x1)).

Definition newton_raphson_record (f df : R -> py R) (i : Z) (r : row R)
    : Prop :=
  exists x fx dfx,
    lookup "iter" r = Some (VInt i) /\
    num_of "x_curr" r = Some x /\
    f x = Ok fx /\ df x = Ok dfx /\ (dfx ==? zero) = false /\
    num_of "f_x" r = Some fx /\ num_of "df_x" r = Some dfx /\
    num_of "x_next" r = Some (x - div fx dfx) /\
    num_of "error" r = Some (abs (x - div fx dfx - x)).

Definition fixed_point_record (g : R -> py R) (i : Z) (r : row R) : Prop :=
  exists x gx,
    lookup "iter" r = Some (VInt i) /\
    num_of "x_curr" r = Some x /\ g x = Ok gx /\
    num_of "g_x" r = Some gx /\
    num_of "error" r = Some (abs (gx - x)).

Definition modified_secant_record (f : R -> py R) (delta : R) (i : Z)
    (r : row R) : Prop :=
  exists x fx fxd,
    lookup "iter" r = Some (VInt i) /\
    num_of "x_curr" r = Some x /\
    f x = Ok fx /\ f (x + delta) = Ok fxd /\ (fxd - fx ==? zero) = false /\
    num_of "x_next" r = Some (x - div (delta * fx) (fxd - fx)) /\
    num_of "error" r = Some (abs (x - div (delta * fx) (fxd - fx) - x)).

(** *** How a record follows from the one before *)

(** The bracket [a', b'] is got from the record [p] of a bracketing method
    by the tie-break rule on its new point, stored under [key]. *)
Definition bracket_after (f : R -> py R) (key : string) (p : row R)
    (a' b' : R) : Prop :=
  exists a b c fa fc,
    num_of "a" p = Some a /\ num_of "b" p = Some b /\
    num_of key p = Some c /\ f a = Ok fa /\ f c = Ok fc /\
    (a', b') = (if fa * fc <? zero then (a, c) else (c, b)).

Definition bracket_link (f : R -> py R) (key : string) (p r : row R) : Prop :=
  exists a' b',
    num_of "a" r = Some a' /\ num_of "b" r = Some b' /\
    bracket_after f key p a' b'.

(** secant: the two guesses are shifted by one *)
Definition secant_link (p r : row R) : Prop :=
  exists x1 x2,
    num_of "x_curr" p = Some x1 /\ num_of "x_new" p = Some x2 /\
    num_of "x_prev" r = Some x1 /\ num_of "x_curr" r = Some x2.

(** the next iteration starts from the estimate stored under [key] *)
Definition estimate_link (key : string) (p r : row R) : Prop :=
  exists x, num_of key p = Some x /\ num_of "x_curr" r = Some x.

(** The root of a success is the number that the last record holds under
    [key]. *)
Definition root_under (key : string) (r : row R) (root : R) : Prop :=
  num_of key r = Some root.
End Traces.

(** The outcome [o], when a success, has a well-formed trace: at most
    [max_iter] records (at least one when [max_iter >= 1]), each as the
    method writes it, each following from the one before, none but the last
    meeting the convergence test, and the last related to the root by
    [final]. *)
Definition traced {R : Type} (conv : row R -> bool)
    (good : Z -> row R -> Prop) (link : row R -> row R -> Prop)
    (final : row R -> R -> Prop) (max_iter : Z) (o : py (outcome R)) : Prop :=
  forall root h,
    o = Ok (Success root h) ->
    (Z.of_nat (List.length h) <= Z.max 0 max_iter)%Z /\
    ((1 <= max_iter)%Z -> h <> []) /\
    (forall k r, nth_error h k = Some r -> good (Z.of_nat k + 1)%Z r) /\
    (forall k p r, nth_error h k = Some p -> nth_error h (S k) = Some r ->
                   link p r) /\
    (forall k r, nth_error h k = Some r -> (S k < List.length h)%nat ->
                 conv r = false) /\
    (forall p, last_item h = Ok p -> final p root).

(** The root of bisection and its last record: the midpoint of the record
    on convergence, the midpoint of the bracket after it on exhaustion. *)
Definition bisection_final {R : Type} `{Number R} (f : R -> py R)
    (p : row R) (root : R) : Prop :=
  root_under "mid" p root \/
  exists a' b', bracket_after f "mid" p a' b' /\ root = div (add a' b') two.

(** [P root h] holds of every success [(root, h)] that [o] may be. *)
Definition for_success {R : Type} (o : py (outcome R))
    (P : R -> list (row R) -> Prop) : Prop :=
  forall root h, o = Ok (Success root h) -> P root h.

(** ** The two implementations *)

Section Agreement.
Context {R : Type}.
Variable format_num : string -> R -> string.

Let fmt (spec : string) (x : R) : value R := VStr (format_num spec x).

(** A record of ZOF_CLI.py and the record that app.py writes in the same
    iteration: the same numbers, formatted. *)
Definition bisection_rows (r r' : row R) : Prop :=
  exists i a b c fc e,
    r = [("iter", VInt i); ("a", VNum a); ("b", VNum b); ("mid", VNum c);
         ("f_mid", VNum fc); ("error", VNum e)] /\
    r' = [("iter", VInt i); ("a", fmt ".4f" a); ("b", fmt ".4f" b);
          ("root", fmt ".6f" c); ("f_root", fmt ".6f" fc);
          ("error", fmt ".6e" e)].

Definition regula_falsi_rows (r r' : row R) : Prop :=
  exists i a b c fc e,
    r = [("iter", VInt i); ("a", VNum a); ("b", VNum b); ("c", VNum c);
         ("f_c", VNum fc); ("error", VNum e)] /\
    r' = [("iter", VInt i); ("a", fmt ".4f" a); ("b", fmt ".4f" b);
          ("root", fmt ".6f" c); ("f_root", fmt ".6f" fc);
          ("error", fmt ".6e" e)].

Definition secant_rows (r r' : row R) : Prop :=
  exists i x0 x1 x2 e,
    r = [("iter", VInt i); ("x_prev", VNum x0); ("x_curr", VNum x1);
         ("x_new", VNum x2); ("error", VNum e)] /\
    r' = [("iter", VInt i); ("x_prev", fmt ".4f" x0); ("x_curr", fmt ".4f" x1);
          ("root", fmt ".6f" x2); ("error", fmt ".6e" e)].

Definition newton_raphson_rows (r r' : row R) : Prop :=
  exists i x fx dfx x' e,
    r = [("iter", VInt i); ("x_curr", VNum x); ("f_x", VNum fx);
         ("df_x", VNum dfx); ("x_next", VNum x'); ("error", VNum e)] /\
    r' = [("iter", VInt i); ("x_curr", fmt ".4f" x); ("f_x", fmt ".4f" fx);
          ("df_x", fmt ".4f" dfx); ("root", fmt ".6f" x');
          ("error", fmt ".6e" e)].

Definition fixed_point_rows (r r' : row R) : Prop :=
  exists i x gx e,
    r = [("iter", VInt i); ("x_curr", VNum x); ("g_x", VNum gx);
         ("error", VNum e)] /\
    r' = [("iter", VInt i); ("x_curr", fmt ".4f" x); ("g_x", fmt ".6f" gx);
          ("error", fmt ".6e" e)].

Definition modified_secant_rows (r r' : row R) : Prop :=
  exists i x x' e,
    r = [("iter", VInt i); ("x_curr", VNum x); ("x_next", VNum x');
         ("error", VNum e)] /\
    r' = [("iter", VInt i); ("x_curr", fmt ".4f" x); ("root", fmt ".6f" x');
          ("error", fmt ".6e" e)].

(** The result of a solver of ZOF_CLI.py and the result of the same method
    in [run_method] agree: both raise the same exception, or both fail, or
    both succeed with the same root and the same trace up to formatting.
    The iterations reported by app.py are the length of the trace, except
    that for an empty trace app.py may report [max_iter] itself. *)
Definition agree (rows : row R -> row R -> Prop) (max_iter : Z)
    (o : py (outcome R)) (w : py (@App.response R)) : Prop :=
  match o, w with
  | Ok (Success root h), Ok (App.RResult root' h' iters) =>
      root' = root /\ Forall2 rows h h' /\
      (iters = Z.of_nat (List.length h) \/ (iters = max_iter /\ h = []))
  | Ok (Failure _), Ok (App.RError _) => True
  | Raise e, Raise e' => e' = e
  | _, _ => False
  end.

(** the same inside the loops: outcomes of the pass [j] *)
Definition agree_at (rows : row R -> row R -> Prop) (j : Z)
    (o : outcome R) (w : @App.response R) : Prop :=
  match o, w with
  | Success root h, App.RResult root' h' iters =>
      root' = root /\ Forall2 rows h h' /\ iters = j /\
      Z.of_nat (List.length h) = j
  | Failure _, App.RError _ => True
  | _, _ => False
  end.
End Agreement.

(** ** The printed table *)

Section Table.
Context {R : Type}.
Variable format_num : string -> R -> string.

(** The line that [main] prints for a record, and the header line that it
    makes of the keys of a record. *)
Definition data_line (r : row R) : string :=
  concat " | "
    (map (fun kv => ljust (take 9 (CLI.str_value format_num (snd kv))) 10) r).

Definition header_line (r : row R) : string :=
  concat " | " (map (fun h => ljust h 10) (map fst r)).

(** All that [main] prints for a root, a trace, the error [e] of its last
    record and its first record. *)
Definition report_lines (result : R) (h : list (row R)) (e : R)
    (first : row R) : list string :=
  [nl ++ "Root found: " ++ format_num ".6f" result;
   "Iterations: " ++ str_int (Z.of_nat (List.length h));
   "Final Error: " ++ format_num ".6e" e;
   nl ++ "Iteration Table:";
   repeat_string "-" (String.length (header_line first));
   header_line first;
   repeat_string "-" (String.length (header_line first))]
  ++ map data_line h.
End Table.

(** Every success that [o] may be is printed by the output of [main]
    without an exception: the summary and the table. *)
Definition reported {R : Type} `{Number R}
    (format_num : string -> R -> string) (o : py (outcome R)) : Prop :=
  for_success o (fun root h =>
    exists first last e,
      first_item h = Ok first /\ last_item h = Ok last /\
      num_of "error" last = Some e /\
      forall w,
        CLI.report format_num root h w
          = (Ok tt, {| stdin := stdin w;
                       stdout := stdout w
                                 ++ report_lines format_num root h e first |})).


(** The table of every success that [o] may be is aligned: the rules, the
    header line and every data line have the same length, thirteen
    characters a column less the last separator. *)
Definition aligned {R : Type} (format_num : string -> R -> string)
    (columns : nat) (o : py (outcome R)) : Prop :=
  for_success o (fun _ h =>
    forall first, first_item h = Ok first ->
      let n := String.length (header_line first) in
      n = (13 * columns - 3)%nat /\
      String.length (repeat_string "-" n) = n /\
      Forall (fun r => String.length (data_line format_num r) = n) h).

(** The keys and the number of fields of a record. *)
Definition shaped {R : Type} (columns : nat) (r : row R) : Prop :=
  List.length r = columns /\
  Forall (fun kv => (String.length (fst kv) <= 10)%nat) r.


(** ** The main loop *)

(** The exception of [input] at the end of standard input. *)
Definition end_of_input : exn := OtherError "EOF when reading a line".

(** [m] reads lines of standard input and never puts one back. *)
Definition consumes {A : Type} (m : io A) : Prop :=
  forall w, (List.length (stdin (snd (m w))) <= List.length (stdin w))%nat.

(** The two ways in which [main] ends: after [Exiting...], printed for the
    choice [0], or by the exception of the menu prompt when standard input
    is used up. *)
Definition exits (r : py unit * world) : Prop :=
  fst r = Ok tt /\ last_item (stdout (snd r)) = Ok "Exiting...".

Definition input_ends (r : py unit * world) : Prop :=
  fst r = Raise end_of_input /\ stdin (snd r) = [] /\
  last_item (stdout (snd r)) = Ok (nl ++ "Enter choice (0-6): ").


(** ** The form of app.py *)

Section WebForm.
Context {R : Type} `{Number R}.
Variable float_of_string : string -> py R.

(** The field [k] of the form is there and [float] reads [x] from it. *)
Definition field (params : App.form) (k : string) (x : R) : Prop :=
  App.float_ float_of_string (App.get params k) = Ok x.

(** The solver of ZOF_CLI.py succeeds with the root [root] and with a trace
    that has, record by record, the numbers of [h]. *)
Definition cli_success (rows : row R -> row R -> Prop) (o : py (outcome R))
    (root : R) (h : list (row R)) : Prop :=
  exists h0, o = Ok (Success root h0) /\ Forall2 rows h0 h.
End WebForm.

(** The method ids that [run_method] knows. *)
Definition known_method (method_id : option string) : Prop :=
  In method_id [Some "1"; Some "2"; Some "3"; Some "4"; Some "5"; Some "6"]%string.


(** ** The passes of a loop *)

Section Entering.
Context {A St : Type}.
Variable body : Z -> St -> py (ctl A St).

(** The loop [for i in range(1, max_iter + 1)] started in [init] comes to
    its pass [k + 1] and enters it in the state [s]: the [k] passes before
    it all went on. *)
Definition enters (max_iter : Z) (init : St) (k : nat) (s : St) : Prop :=
  (k < Z.to_nat max_iter)%nat /\ for_range body 1 k init = Ok (Next s).

(** Some pass of the loop is entered in a state of which [P] holds. *)
Definition in_some_pass (max_iter : Z) (init : St) (P : St -> Prop) : Prop :=
  exists k s, enters max_iter init k s /\ P s.
End Entering.

(** ** The evaluations of a pass, in the order of the code *)

Section Evaluations.
Context {R : Type} `{Number R}.
Local Open Scope num_scope.
Variables f df : R -> py R.

(** The sign test of the bracketing methods evaluates [f(a)], then [f(b)]. *)
Definition sign_test_raises (a b : R) (e : exn) : Prop :=
  f a = Raise e \/ exists fa, f a = Ok fa /\ f b = Raise e.

Definition sign_test_passes (a b : R) : Prop :=
  exists fa fb, f a = Ok fa /\ f b = Ok fb /\ (zero <=? fa * fb) = false.

Definition sign_test_fails (a b : R) : Prop :=
  exists fa fb, f a = Ok fa /\ f b = Ok fb /\ (zero <=? fa * fb) = true.

(** *** An evaluation of the pass raises [e]

    Each pass evaluates [f] (and [df]) at the points below, one after the
    other; the evaluations before the one that raises have a value. *)

(** bisection: [f(c)], then [f(a)] unless the pass returns *)
Definition bisection_evaluation_raises (tol : R) (e : exn)
    (s : R * R * list (row R)) : Prop :=
  let '(a, b, _) := s in
  let c := div (a + b) two in
  f c = Raise e \/
  exists fc, f c = Ok fc /\
    ((abs fc <? tol) || (abs (b - a) <? tol)) = false /\ f a = Raise e.

(** regula falsi: [f(a)], [f(b)], then [f(c)] unless the denominator is
    zero *)
Definition regula_falsi_evaluation_raises (e : exn)
    (s : R * R * option R * list (row R)) : Prop :=
  let '(a, b, _, _) := s in
  f a = Raise e \/
  exists fa, f a = Ok fa /\
    (f b = Raise e \/
     exists fb, f b = Ok fb /\ (fb - fa ==? zero) = false /\
       f (div (a * fb - b * fa) (fb - fa)) = Raise e).

(** secant: [f(x0)], then [f(x1)] *)
Definition secant_evaluation_raises (e : exn) (s : R * R * list (row R))
    : Prop :=
  let '(x0, x1, _) := s in
  f x0 = Raise e \/ exists fx0, f x0 = Ok fx0 /\ f x1 = Raise e.

(** Newton-Raphson: [f(x)], then [df(x)] *)
Definition newton_raphson_evaluation_raises (e : exn) (s : R * list (row R))
    : Prop :=
  let '(x, _) := s in
  f x = Raise e \/ exists fx, f x = Ok fx /\ df x = Raise e.

(** fixed point: [g(x)] *)
Definition fixed_point_evaluation_raises (e : exn) (s : R * list (row R))
    : Prop :=
  let '(x, _) := s in f x = Raise e.

(** modified secant: [f(x)], then [f(x + delta)] *)
Definition modified_secant_evaluation_raises (delta : R) (e : exn)
    (s : R * list (row R)) : Prop :=
  let '(x, _) := s in
  f x = Raise e \/ exists fx, f x = Ok fx /\ f (x + delta) = Raise e.

(** *** The run of a method visits a point at which the evaluation of [f]
    (or of [df]) raises [e] *)

Definition bisection_visits_failure (a b tol : R) (max_iter : Z) (e : exn)
    : Prop :=
  sign_test_raises a b e \/
  (sign_test_passes a b /\
   in_some_pass (CLI.bisection_body f tol) max_iter (a, b, [])
     (bisection_evaluation_raises tol e)).

Definition regula_falsi_visits_failure (a b tol : R) (max_iter : Z) (e : exn)
    : Prop :=
  sign_test_raises a b e \/
  (sign_test_passes a b /\
   in_some_pass (CLI.regula_falsi_body f tol) max_iter (a, b, None, [])
     (regula_falsi_evaluation_raises e)).

Definition secant_visits_failure (x0 x1 tol : R) (max_iter : Z) (e : exn)
    : Prop :=
  in_some_pass (CLI.secant_body f tol) max_iter (x0, x1, [])
    (secant_evaluation_raises e).

Definition newton_raphson_visits_failure (x0 tol : R) (max_iter : Z)
    (e : exn) : Prop :=
  in_some_pass (CLI.newton_raphson_body f df tol) max_iter (x0, [])
    (newton_raphson_evaluation_raises e).

Definition fixed_point_visits_failure (x0 tol : R) (max_iter : Z) (e : exn)
    : Prop :=
  in_some_pass (CLI.fixed_point_body f tol) max_iter (x0, [])
    (fixed_point_evaluation_raises e).

Definition modified_secant_visits_failure (x0 delta tol : R) (max_iter : Z)
    (e : exn) : Prop :=
  in_some_pass (CLI.modified_secant_body f delta tol) max_iter (x0, [])
    (modified_secant_evaluation_raises delta e).

(** *** The pass meets the condition on which the method gives up *)

(** regula falsi: [f(b) - f(a) == 0] *)
Definition regula_falsi_singular (s : R * R * option R * list (row R))
    : Prop :=
  let '(a, b, _, _) := s in
  exists fa fb, f a = Ok fa /\ f b = Ok fb /\ (fb - fa ==? zero) = true.

(** secant: [f(x1) - f(x0) == 0] *)
Definition secant_singular (s : R * R * list (row R)) : Prop :=
  let '(x0, x1, _) := s in
  exists fx0 fx1,
    f x0 = Ok fx0 /\ f x1 = Ok fx1 /\ (fx1 - fx0 ==? zero) = true.

(** Newton-Raphson: [df(x) == 0] *)
Definition newton_raphson_singular (s : R * list (row R)) : Prop :=
  let '(x, _) := s in
  exists fx dfx, f x = Ok fx /\ df x = Ok dfx /\ (dfx ==? zero) = true.

(** fixed point: the step [abs(g(x) - x)] is not below [tol] and is above
    [1e10] *)
Definition fixed_point_diverges (tol : R) (s : R * list (row R)) : Prop :=
  let '(x, _) := s in
  exists gx, f x = Ok gx /\
    (abs (gx - x) <? tol) = false /\ (ten_pow_10 <? abs (gx - x)) = true.

(** modified secant: [f(x + delta) - f(x) == 0] *)
Definition modified_secant_singular (delta : R) (s : R * list (row R))
    : Prop :=
  let '(x, _) := s in
  exists fx fxd,
    f x = Ok fx /\ f (x + delta) = Ok fxd /\ (fxd - fx ==? zero) = true.
End Evaluations.

(** ** Runs on the console *)

(** On a standard input that starts with [lines], [m] reads exactly these
    lines, prints [printed] and ends with [r]. *)
Definition runs {A : Type} (m : io A) (lines : list string) (r : py A)
    (printed : list string) : Prop :=
  forall rest out,
    m {| stdin := (lines ++ rest)%list; stdout := out |}
    = (r, {| stdin := rest; stdout := (out ++ printed)%list |}).

(** A pass of the loop of [main] reads [lines], reports the exception [e]
    as the last thing it prints, and asks for another pass. *)
Definition caught_by (main_pass : io bool) (lines : list string) (e : exn)
    : Prop :=
  exists printed,
    runs main_pass lines (Ok true)
      (printed ++ [("An error occurred: " ++ str_exn e)%string])%list.

(* ================================================================= *)
(** * Properties *)

(** ** The two arithmetics satisfy the laws *)

Lemma float_eqb_not_ltb (x y : float) :
  PrimFloat.eqb x y = true -> PrimFloat.ltb x y = false.
Proof.
  rewrite FloatAxioms.eqb_spec, FloatAxioms.ltb_spec. unfold SFeqb, SFltb.
  destruct (SFcompare (Prim2SF x) (Prim2SF y)) as [[ | | ] | ]; congruence.
Qed.

#[export] Instance float_NumberLaws : NumberLaws float.
Proof.
  split.
  - reflexivity.
  - exact float_eqb_not_ltb.
Qed.

#[export] Instance Q_NumberLaws : NumberLaws Q.
Proof.
  split.
  - reflexivity.
  - intros x y E. cbn in *. apply Qeq_bool_iff in E.
    apply negb_false_iff, Qle_bool_iff. rewrite E. apply Qle_refl.
Qed.

(** ** Loops *)

Ltac inv H := inversion H; subst; clear H.

Section LoopFacts.
Context {A St : Type}.
Variable body : Z -> St -> py (ctl A St).

(** An invariant of the loop body holds after the loop; a property of
    every value returned inside the body holds of the value returned by
    the loop. *)
Lemma for_range_inv (Inv : Z -> St -> Prop) (Post : A -> Prop) :
  (forall i s, Inv i s ->
     match body i s with
     | Ok (Next s') => Inv (i + 1)%Z s'
     | Ok (Break a) => Post a
     | Raise _ => True
     end) ->
  forall n i s, Inv i s ->
    match for_range body i n s with
    | Ok (Next s') => Inv (i + Z.of_nat n)%Z s'
    | Ok (Break a) => Post a
    | Raise _ => True
    end.
Proof.
  intros Hbody n. induction n as [ | n IH]; intros i s Hi.
  - cbn. now rewrite Z.add_0_r.
  - cbn [for_range]. specialize (Hbody i s Hi).
    destruct (body i s) as [[a | s'] | e]; auto.
    specialize (IH (i + 1)%Z s' Hbody).
    replace (i + Z.of_nat (S n))%Z with (i + 1 + Z.of_nat n)%Z by lia.
    exact IH.
Qed.

(** A loop of no pass hands its state on. *)
Lemma for_range_none (i : Z) (max_iter : Z) (s : St) :
  (max_iter < 1)%Z -> for_range body i (Z.to_nat max_iter) s = Ok (Next s).
Proof.
  intros Hm. replace (Z.to_nat max_iter) with O by lia. reflexivity.
Qed.

(** An exception of the loop is an exception of one pass of its body. *)
Lemma for_range_raise (n : nat) : forall (i : Z) (s : St) (e : exn),
  for_range body i n s = Raise e -> exists j s', body j s' = Raise e.
Proof.
  induction n as [ | n IH]; intros i s e Hr; cbn in Hr.
  - discriminate.
  - destruct (body i s) as [[a | s'] | e'] eqn:Eb.
    + discriminate.
    + eauto.
    + inv Hr. eauto.
Qed.
End LoopFacts.

Section Guarded.
Context {R : Type} `{NumberLaws R}.

(** A division behind a test for zero does not raise. *)
Lemma pydiv_guarded (x y : R) : eqb y zero = false -> pydiv x y = Ok (div x y).
Proof. intros E. unfold pydiv. now rewrite E. Qed.

Lemma pydiv_two (x : R) : pydiv x two = Ok (div x two).
Proof. apply pydiv_guarded, two_nonzero. Qed.
End Guarded.

(* ================================================================= *)
(** ** The bracket update (C6) *)

Section TieBreak.
Context {R : Type} `{NumberLaws R}.
Local Open Scope num_scope.

Lemma bisection_body_next (f : CLI.fn) (tol : R) (i : Z) (a b a' b' : R)
    (h h' : list (row R)) :
  CLI.bisection_body f tol i (a, b, h) = Ok (Next (a', b', h')) ->
  exists c fc fa,
    c = div (a + b) two /\ f c = Ok fc /\ f a = Ok fa /\
    ((abs fc <? tol) || (abs (b - a) <? tol)) = false /\
    h' = (h ++ [[("iter", VInt i); ("a", VNum a); ("b", VNum b);
                 ("mid", VNum c); ("f_mid", VNum fc);
                 ("error", VNum (abs (b - a)))]])%list /\
    (a', b') = (if fa * fc <? zero then (a, c) else (c, b)).
Proof.
  unfold CLI.bisection_body. rewrite pydiv_two. cbn [bind]. intros Hb.
  destruct (f (div (a + b) two)) as [fc | ] eqn:Ec; cbn [bind] in Hb;
    [ | discriminate].
  destruct ((abs fc <? tol) || (abs (b - a) <? tol)) eqn:Et;
    [discriminate | ].
  destruct (f a) as [fa | ] eqn:Ea; cbn [bind] in Hb; [ | discriminate].
  destruct (fa * fc <? zero) eqn:Es;
    injection Hb as Ha' Hb' Hh'; subst a' b' h';
    exists (div (a + b) two), fc, fa; repeat split; auto; now rewrite Es.
Qed.

Lemma regula_falsi_body_next (f : CLI.fn) (tol : R) (i : Z) (a b a' b' : R)
    (c0 c0' : option R) (h h' : list (row R)) :
  CLI.regula_falsi_body f tol i (a, b, c0, h) = Ok (Next (a', b', c0', h')) ->
  exists fa fb c fc,
    f a = Ok fa /\ f b = Ok fb /\ (fb - fa ==? zero) = false /\
    c = div (a * fb - b * fa) (fb - fa) /\ f c = Ok fc /\
    (abs fc <? tol) = false /\ c0' = Some c /\
    h' = (h ++ [[("iter", VInt i); ("a", VNum a); ("b", VNum b);
                 ("c", VNum c); ("f_c", VNum fc);
                 ("error", VNum (abs fc))]])%list /\
    (a', b') = (if fa * fc <? zero then (a, c) else (c, b)).
Proof.
  unfold CLI.regula_falsi_body. intros Hb.
  destruct (f a) as [fa | ] eqn:Ea; cbn [bind] in Hb; [ | discriminate].
  destruct (f b) as [fb | ] eqn:Eb; cbn [bind] in Hb; [ | discriminate].
  destruct (fb - fa ==? zero) eqn:Ez; [discriminate | ].
  rewrite (pydiv_guarded _ _ Ez) in Hb. cbn [bind] in Hb.
  destruct (f (div (a * fb - b * fa) (fb - fa))) as [fc | ] eqn:Ec;
    cbn [bind] in Hb; [ | discriminate].
  destruct (abs fc <? tol) eqn:Et; [discriminate | ].
  destruct (fa * fc <? zero) eqn:Es;
    injection Hb as Ha' Hb' Hc' Hh'; subst a' b' c0' h';
    exists fa, fb, (div (a * fb - b * fa) (fb - fa)), fc;
    repeat split; auto; now rewrite Es.
Qed.
End TieBreak.

Lemma tie_break_intro {R : Type} `{NumberLaws R} (fa fc a b c a' b' : R) :
  (a', b') = (if ltb (mul fa fc) zero then (a, c) else (c, b)) ->
  tie_break fa fc a b c a' b'.
Proof.
  intros Hab. split; [ | split]; intros E; try apply eqb_not_ltb in E;
    rewrite E in Hab; now inv Hab.
Qed.

(** C6. In an iteration of bisection or of regula falsi that does not
    return, the bracket is updated by the tie-break rule: with [c] the new
    point, if [f(a) * f(c) < 0] then [b] becomes [c] and [a] is unchanged;
    otherwise, and so in particular when [f(a) * f(c) == 0], [a] becomes [c]
    and [b] is unchanged. *)
Theorem tie_break_rule {R : Type} `{NumberLaws R} (f : CLI.fn) (tol : R)
    (i : Z) :
  (forall (a b a' b' : R) (h h' : list (row R)),
     CLI.bisection_body f tol i (a, b, h) = Ok (Next (a', b', h')) ->
     exists c fc fa,
       pydiv (add a b) two = Ok c /\ f c = Ok fc /\ f a = Ok fa /\
       tie_break fa fc a b c a' b')
  /\
  (forall (a b a' b' : R) (c0 c0' : option R) (h h' : list (row R)),
     CLI.regula_falsi_body f tol i (a, b, c0, h)
       = Ok (Next (a', b', c0', h')) ->
     exists c fc fa fb,
       f a = Ok fa /\ f b = Ok fb /\
       pydiv (sub (mul a fb) (mul b fa)) (sub fb fa) = Ok c /\ f c = Ok fc /\
       tie_break fa fc a b c a' b').
Proof.
  split; intros * Hb.
  - apply bisection_body_next in Hb.
    destruct Hb as (c & fc & fa & -> & Hc & Ha & _ & _ & Hab).
    exists (div (add a b) two), fc, fa.
    split; [apply pydiv_two | ]. do 2 (split; [assumption | ]).
    now apply tie_break_intro.
  - apply regula_falsi_body_next in Hb.
    destruct Hb as
      (fa & fb & c & fc & Ha & Hfb & Ez & -> & Hc & _ & _ & _ & Hab).
    exists (div (sub (mul a fb) (mul b fa)) (sub fb fa)), fc, fa, fb.
    do 2 (split; [assumption | ]).
    split; [now apply pydiv_guarded | ]. split; [assumption | ].
    now apply tie_break_intro.
Qed.

(** The rule at work on binary64, for [f(x) = x**2 - 2] on the bracket
    [0, 2]: both methods get [c = 1] and [f(0) * f(1) = 2], and replace
    [a]. *)
Lemma tie_break_rule_witness :
  let f : CLI.fn := fun x => Ok (x * x - 2)%float in
  (exists c fc fa,
     pydiv (add 0 2)%float two = Ok c /\ f c = Ok fc /\ f 0%float = Ok fa /\
     tie_break fa fc 0%float 2%float c 1%float 2%float)
  /\
  (exists c fc fa fb,
     f 0%float = Ok fa /\ f 2%float = Ok fb /\
     pydiv (sub (mul 0%float fb) (mul 2%float fa)) (sub fb fa) = Ok c /\
     f c = Ok fc /\
     tie_break fa fc 0%float 2%float c 1%float 2%float).
Proof.
  intros f. split.
  - eapply (proj1 (tie_break_rule f 1e-4%float 1%Z) 0%float 2%float _ _ [] _).
    reflexivity.
  - eapply (proj2 (tie_break_rule f 1e-4%float 1%Z) 0%float 2%float _ _ None _ [] _).
    reflexivity.
Defined.


(* ================================================================= *)
(** ** Exhausting the iterations is a success (C1) *)

Lemma last_item_snoc {A : Type} (l : list A) (x : A) :
  last_item (l ++ [x]) = Ok x.
Proof. unfold last_item. now rewrite rev_unit. Qed.

Section Exhaustion.
Context {R St : Type}.
Variable body : Z -> St -> py (ctl (outcome R) St).
Variable hist : St -> list (row R).
Variable conv : row R -> bool.
Variable rel : row R -> St -> Prop.

(** Every pass that goes on has appended one record that fails the
    convergence test and that is related to the new state. *)
Hypothesis appends : forall i s s',
  body i s = Ok (Next s') ->
  exists r, hist s' = (hist s ++ [r])%list /\ conv r = false /\ rel r s'.

Lemma exhausted_trace (max_iter : Z) (s0 s' : St) :
  (1 <= max_iter)%Z -> hist s0 = [] -> exhausts body max_iter s0 s' ->
  Z.of_nat (List.length (hist s')) = max_iter /\
  Forall (fun r => conv r = false) (hist s') /\
  exists r, last_item (hist s') = Ok r /\ rel r s'.
Proof.
  intros Hm H0 Hex. unfold exhausts in Hex.
  pose (Inv := fun (i : Z) (s : St) =>
    (1 <= i)%Z /\ Z.of_nat (List.length (hist s)) = (i - 1)%Z /\
    Forall (fun r => conv r = false) (hist s) /\
    ((1 < i)%Z -> exists r, last_item (hist s) = Ok r /\ rel r s)).
  assert (Hinv : Inv (1 + Z.of_nat (Z.to_nat max_iter))%Z s').
  { assert (Hstep : forall i s, Inv i s ->
       match body i s with
       | Ok (Next s1) => Inv (i + 1)%Z s1
       | Ok (Break _) => True
       | Raise _ => True
       end).
    { intros i s (Hi & Hlen & Hall & _).
      destruct (body i s) as [[o | s1] | e] eqn:Eb; auto.
      destruct (appends i s s1 Eb) as (r & Hh & Hc & Hr).
      unfold Inv. rewrite Hh, length_app, last_item_snoc. cbn.
      repeat split; try lia.
      - apply Forall_app. split; auto.
      - intros _. eauto. }
    pose proof (for_range_inv body Inv (fun _ => True) Hstep
                  (Z.to_nat max_iter) 1%Z s0) as L.
    rewrite Hex in L. apply L. unfold Inv. rewrite H0. cbn.
    repeat split; auto; lia. }
  destruct Hinv as (_ & Hlen & Hall & Hlast).
  repeat split; auto; try lia. apply Hlast. lia.
Qed.
End Exhaustion.

(** Walk through a loop body along the path that an equation [H] on its
    result selects. *)
Ltac body_cases H :=
  repeat match type of H with
  | context [bind ?m _] =>
      let E := fresh "E" in
      destruct m eqn:E; cbn [bind] in H; [ | discriminate H]
  | context [if ?c then _ else _] =>
      let E := fresh "E" in destruct c eqn:E; try discriminate H
  end.

Section Appends.
Context {R : Type} `{NumberLaws R}.
Local Open Scope num_scope.

Lemma bisection_appends (f : CLI.fn) (tol : R) (i : Z)
    (s s' : R * R * list (row R)) :
  CLI.bisection_body f tol i s = Ok (Next s') ->
  exists r, snd s' = (snd s ++ [r])%list /\
    bisection_converged tol r = false /\
    exists a b mid, num_of "a" r = Some a /\ num_of "b" r = Some b /\
      num_of "mid" r = Some mid /\
      (fst s' = (a, mid) \/ fst s' = (mid, b)).
Proof.
  destruct s as [[a b] h], s' as [[a' b'] h']. intros Hb.
  apply bisection_body_next in Hb.
  destruct Hb as (c & fc & fa & -> & Hc & Ha & Ht & -> & Hab).
  eexists. split; [reflexivity | ]. split; [exact Ht | ].
  exists a, b, (div (a + b) two). repeat split. cbn [fst].
  destruct (fa * fc <? zero); inv Hab; auto.
Qed.

Lemma regula_falsi_appends (f : CLI.fn) (tol : R) (i : Z)
    (s s' : R * R * option R * list (row R)) :
  CLI.regula_falsi_body f tol i s = Ok (Next s') ->
  exists r, snd s' = (snd s ++ [r])%list /\ converged tol r = false /\
    exists c, snd (fst s') = Some c /\ lookup "c" r = Some (VNum c).
Proof.
  destruct s as [[[a b] c0] h], s' as [[[a' b'] c0'] h']. intros Hb.
  apply regula_falsi_body_next in Hb.
  destruct Hb as (fa & fb & c & fc & _ & _ & _ & -> & _ & Ht & -> & -> & _).
  eexists. split; [reflexivity | ]. split; [exact Ht | ].
  eexists. split; reflexivity.
Qed.

Lemma secant_appends (f : CLI.fn) (tol : R) (i : Z)
    (s s' : R * R * list (row R)) :
  CLI.secant_body f tol i s = Ok (Next s') ->
  exists r, snd s' = (snd s ++ [r])%list /\ converged tol r = false /\
    lookup "x_new" r = Some (VNum (snd (fst s'))).
Proof.
  destruct s as [[x0 x1] h]. unfold CLI.secant_body. intros Hb.
  body_cases Hb. injection Hb as <-.
  eexists. split; [reflexivity | ]. split; [assumption | reflexivity].
Qed.

Lemma newton_raphson_appends (f df : CLI.fn) (tol : R) (i : Z)
    (s s' : R * list (row R)) :
  CLI.newton_raphson_body f df tol i s = Ok (Next s') ->
  exists r, snd s' = (snd s ++ [r])%list /\ converged tol r = false /\
    lookup "x_next" r = Some (VNum (fst s')).
Proof.
  destruct s as [x h]. unfold CLI.newton_raphson_body. intros Hb.
  body_cases Hb. injection Hb as <-.
  eexists. split; [reflexivity | ]. split; [assumption | reflexivity].
Qed.

Lemma fixed_point_appends (g : CLI.fn) (tol : R) (i : Z)
    (s s' : R * list (row R)) :
  CLI.fixed_point_body g tol i s = Ok (Next s') ->
  exists r, snd s' = (snd s ++ [r])%list /\ converged tol r = false /\
    lookup "g_x" r = Some (VNum (fst s')).
Proof.
  destruct s as [x h]. unfold CLI.fixed_point_body. intros Hb.
  body_cases Hb. injection Hb as <-.
  eexists. split; [reflexivity | ]. split; [assumption | reflexivity].
Qed.

Lemma modified_secant_appends (f : CLI.fn) (delta tol : R) (i : Z)
    (s s' : R * list (row R)) :
  CLI.modified_secant_body f delta tol i s = Ok (Next s') ->
  exists r, snd s' = (snd s ++ [r])%list /\ converged tol r = false /\
    lookup "x_next" r = Some (VNum (fst s')).
Proof.
  destruct s as [x h]. unfold CLI.modified_secant_body. intros Hb.
  body_cases Hb. injection Hb as <-.
  eexists. split; [reflexivity | ]. split; [assumption | reflexivity].
Qed.
End Appends.



(* ================================================================= *)
(** ** The parameters are not validated (C2) *)




(* ================================================================= *)
(** ** What a success says about the last record (C3) *)

(** Against C3 as stated, on binary64: bisection of [f(x) = x] on [-1, 1]
    with [tol = 1e-4] and [max_iter = 50] succeeds in its first iteration,
    because [abs(f(mid)) < tol]; the error of the last (and only) record is
    [2], which is not below [tol], and one iteration is not [max_iter]. *)
Lemma bisection_succeeds_with_large_error :
  exists root r e,
    CLI.bisection (fun x => Ok x) (-1)%float 1%float 1e-4%float 50
      = Ok (Success root [r]) /\
    last_item [r] = Ok r /\
    num_of "error" r = Some e /\
    ltb e 1e-4%float = false /\
    Z.of_nat (List.length [r]) <> 50%Z.
Proof.
  do 3 eexists. split; [vm_compute; reflexivity | ].
  repeat split. cbn. lia.
Qed.

Section Breaks.
Context {R : Type} `{Number R}.
Local Open Scope num_scope.

Lemma bisection_breaks (f : CLI.fn) (tol : R) (i : Z)
    (s : R * R * list (row R)) (root : R) (h : list (row R)) :
  CLI.bisection_body f tol i s = Ok (Break (Success root h)) ->
  exists r, h = (snd s ++ [r])%list /\ bisection_converged tol r = true.
Proof.
  destruct s as [[a b] h0]. unfold CLI.bisection_body. intros Hb.
  body_cases Hb. injection Hb as <- <-.
  eexists. split; [reflexivity | assumption].
Qed.

Lemma regula_falsi_breaks (f : CLI.fn) (tol : R) (i : Z)
    (s : R * R * option R * list (row R)) (root : R) (h : list (row R)) :
  CLI.regula_falsi_body f tol i s = Ok (Break (Success root h)) ->
  exists r, h = (snd s ++ [r])%list /\ converged tol r = true.
Proof.
  destruct s as [[[a b] c0] h0]. unfold CLI.regula_falsi_body. intros Hb.
  body_cases Hb. injection Hb as <- <-.
  eexists. split; [reflexivity | assumption].
Qed.

Lemma secant_breaks (f : CLI.fn) (tol : R) (i : Z)
    (s : R * R * list (row R)) (root : R) (h : list (row R)) :
  CLI.secant_body f tol i s = Ok (Break (Success root h)) ->
  exists r, h = (snd s ++ [r])%list /\ converged tol r = true.
Proof.
  destruct s as [[x0 x1] h0]. unfold CLI.secant_body. intros Hb.
  body_cases Hb. injection Hb as <- <-.
  eexists. split; [reflexivity | assumption].
Qed.

Lemma newton_raphson_breaks (f df : CLI.fn) (tol : R) (i : Z)
    (s : R * list (row R)) (root : R) (h : list (row R)) :
  CLI.newton_raphson_body f df tol i s = Ok (Break (Success root h)) ->
  exists r, h = (snd s ++ [r])%list /\ converged tol r = true.
Proof.
  destruct s as [x h0]. unfold CLI.newton_raphson_body. intros Hb.
  body_cases Hb. injection Hb as <- <-.
  eexists. split; [reflexivity | assumption].
Qed.

Lemma fixed_point_breaks (g : CLI.fn) (tol : R) (i : Z)
    (s : R * list (row R)) (root : R) (h : list (row R)) :
  CLI.fixed_point_body g tol i s = Ok (Break (Success root h)) ->
  exists r, h = (snd s ++ [r])%list /\ converged tol r = true.
Proof.
  destruct s as [x h0]. unfold CLI.fixed_point_body. intros Hb.
  body_cases Hb. injection Hb as <- <-.
  eexists. split; [reflexivity | assumption].
Qed.

Lemma modified_secant_breaks (f : CLI.fn) (delta tol : R) (i : Z)
    (s : R * list (row R)) (root : R) (h : list (row R)) :
  CLI.modified_secant_body f delta tol i s = Ok (Break (Success root h)) ->
  exists r, h = (snd s ++ [r])%list /\ converged tol r = true.
Proof.
  destruct s as [x h0]. unfold CLI.modified_secant_body. intros Hb.
  body_cases Hb. injection Hb as <- <-.
  eexists. split; [reflexivity | assumption].
Qed.
End Breaks.

Section LoopOutcome.
Context {R St : Type}.
Variable body : Z -> St -> py (ctl (outcome R) St).
Variable hist : St -> list (row R).
Variable conv : row R -> bool.

Hypothesis grows : forall i s s',
  body i s = Ok (Next s') -> exists r, hist s' = (hist s ++ [r])%list.
Hypothesis breaks : forall i s root h,
  body i s = Ok (Break (Success root h)) ->
  exists r, h = (hist s ++ [r])%list /\ conv r = true.

Lemma loop_outcome (n : nat) (s0 : St) :
  hist s0 = [] ->
  match for_range body 1 n s0 with
  | Ok (Next s') => List.length (hist s') = n
  | Ok (Break (Success root h)) =>
      exists r, last_item h = Ok r /\ conv r = true
  | _ => True
  end.
Proof.
  intros H0.
  pose (Inv := fun (i : Z) (s : St) =>
    Z.of_nat (List.length (hist s)) = (i - 1)%Z).
  pose (Post := fun o : outcome R =>
    match o with
    | Success root h => exists r, last_item h = Ok r /\ conv r = true
    | Failure _ => True
    end).
  assert (Hstep : forall i s, Inv i s ->
    match body i s with
    | Ok (Next s1) => Inv (i + 1)%Z s1
    | Ok (Break o) => Post o
    | Raise _ => True
    end).
  { intros i s Hi. destruct (body i s) as [[[msg | root h] | s1] | e] eqn:Eb;
      cbn; auto.
    - destruct (breaks i s root h Eb) as (r & -> & Hc).
      exists r. now rewrite last_item_snoc.
    - destruct (grows i s s1 Eb) as (r & Hh). unfold Inv in *.
      rewrite Hh, length_app. cbn. lia. }
  pose proof (for_range_inv body Inv Post Hstep n 1%Z s0) as L.
  destruct (for_range body 1 n s0) as [[[msg | root h] | s1] | e]; auto.
  - apply L. unfold Inv. now rewrite H0.
  - unfold Inv in L. rewrite H0 in L. specialize (L eq_refl). lia.
Qed.
End LoopOutcome.

(** C3, amended. For each of the six methods and every input with
    [max_iter >= 0] on which the method returns a success, the last record
    of the trace meets the convergence test of the method, or else the
    number of iterations used is [max_iter].  The test is [error < tol] for
    five methods; for bisection it is [abs(f(mid)) < tol or error < tol], so
    that the error of its last record need not be below [tol]. *)
Theorem success_is_converged_or_exhausted {R : Type} `{NumberLaws R}
    (f df : CLI.fn) (a b x0 x1 delta tol : R) (max_iter : Z) :
  (0 <= max_iter)%Z ->
  converged_or_exhausted (bisection_converged tol) max_iter
    (CLI.bisection f a b tol max_iter) /\
  converged_or_exhausted (converged tol) max_iter
    (CLI.regula_falsi f a b tol max_iter) /\
  converged_or_exhausted (converged tol) max_iter
    (CLI.secant f x0 x1 tol max_iter) /\
  converged_or_exhausted (converged tol) max_iter
    (CLI.newton_raphson f df x0 tol max_iter) /\
  converged_or_exhausted (converged tol) max_iter
    (CLI.fixed_point f x0 tol max_iter) /\
  converged_or_exhausted (converged tol) max_iter
    (CLI.modified_secant f x0 delta tol max_iter).
Proof.
  intros Hm. repeat apply conj; intros root h Ho.
  - unfold CLI.bisection in Ho.
    destruct (f a) as [fa | ]; cbn [bind] in Ho; [ | discriminate Ho].
    destruct (f b) as [fb | ]; cbn [bind] in Ho; [ | discriminate Ho].
    destruct (leb zero (mul fa fb)); [discriminate Ho | ].
    pose proof (loop_outcome _ snd (bisection_converged tol)
      (fun i s s' Hb =>
         match bisection_appends f tol i s s' Hb with
         | ex_intro _ r P => ex_intro _ r (proj1 P)
         end)
      (bisection_breaks f tol) (Z.to_nat max_iter) (a, b, []) eq_refl) as L.
    destruct (for_range _ _ _ _) as [[o | [[a' b'] h']] | e];
      cbn [bind] in Ho; try discriminate Ho.
    + injection Ho as ->. left. exact L.
    + rewrite pydiv_two in Ho. injection Ho as <- <-. right.
      cbn [snd] in L. lia.
  - unfold CLI.regula_falsi in Ho.
    destruct (f a) as [fa | ]; cbn [bind] in Ho; [ | discriminate Ho].
    destruct (f b) as [fb | ]; cbn [bind] in Ho; [ | discriminate Ho].
    destruct (leb zero (mul fa fb)); [discriminate Ho | ].
    pose proof (loop_outcome _ snd (converged tol)
      (fun i s s' Hb =>
         match regula_falsi_appends f tol i s s' Hb with
         | ex_intro _ r P => ex_intro _ r (proj1 P)
         end)
      (regula_falsi_breaks f tol) (Z.to_nat max_iter) (a, b, None, [])
      eq_refl) as L.
    destruct (for_range _ _ _ _) as [[o | [[[a' b'] [c | ]] h']] | e];
      cbn [bind] in Ho; try discriminate Ho.
    + injection Ho as ->. left. exact L.
    + injection Ho as <- <-. right. cbn [snd] in L. lia.
  - unfold CLI.secant in Ho.
    pose proof (loop_outcome _ snd (converged tol)
      (fun i s s' Hb =>
         match secant_appends f tol i s s' Hb with
         | ex_intro _ r P => ex_intro _ r (proj1 P)
         end)
      (secant_breaks f tol) (Z.to_nat max_iter) (x0, x1, []) eq_refl) as L.
    destruct (for_range _ _ _ _) as [[o | [[x0' x1'] h']] | e];
      cbn [bind] in Ho; try discriminate Ho.
    + injection Ho as ->. left. exact L.
    + injection Ho as <- <-. right. cbn [snd] in L. lia.
  - unfold CLI.newton_raphson in Ho.
    pose proof (loop_outcome _ snd (converged tol)
      (fun i s s' Hb =>
         match newton_raphson_appends f df tol i s s' Hb with
         | ex_intro _ r P => ex_intro _ r (proj1 P)
         end)
      (newton_raphson_breaks f df tol) (Z.to_nat max_iter) (x0, [])
      eq_refl) as L.
    destruct (for_range _ _ _ _) as [[o | [x h']] | e];
      cbn [bind] in Ho; try discriminate Ho.
    + injection Ho as ->. left. exact L.
    + injection Ho as <- <-. right. cbn [snd] in L. lia.
  - unfold CLI.fixed_point in Ho.
    pose proof (loop_outcome _ snd (converged tol)
      (fun i s s' Hb =>
         match fixed_point_appends f tol i s s' Hb with
         | ex_intro _ r P => ex_intro _ r (proj1 P)
         end)
      (fixed_point_breaks f tol) (Z.to_nat max_iter) (x0, []) eq_refl) as L.
    destruct (for_range _ _ _ _) as [[o | [x h']] | e];
      cbn [bind] in Ho; try discriminate Ho.
    + injection Ho as ->. left. exact L.
    + injection Ho as <- <-. right. cbn [snd] in L. lia.
  - unfold CLI.modified_secant in Ho.
    pose proof (loop_outcome _ snd (converged tol)
      (fun i s s' Hb =>
         match modified_secant_appends f delta tol i s s' Hb with
         | ex_intro _ r P => ex_intro _ r (proj1 P)
         end)
      (modified_secant_breaks f delta tol) (Z.to_nat max_iter) (x0, [])
      eq_refl) as L.
    destruct (for_range _ _ _ _) as [[o | [x h']] | e];
      cbn [bind] in Ho; try discriminate Ho.
    + injection Ho as ->. left. exact L.
    + injection Ho as <- <-. right. cbn [snd] in L. lia.
Qed.

Lemma success_is_converged_or_exhausted_witness :
  let f : CLI.fn := fun x => Ok (x * x - 2)%float in
  let df : CLI.fn := fun x => Ok (2 * x)%float in
  let tol := 1e-6%float in
  (0 <= 50)%Z /\
  converged_or_exhausted (bisection_converged tol) 50
    (CLI.bisection f 0%float 2%float tol 50) /\
  converged_or_exhausted (converged tol) 50
    (CLI.regula_falsi f 0%float 2%float tol 50) /\
  converged_or_exhausted (converged tol) 50
    (CLI.secant f 1%float 2%float tol 50) /\
  converged_or_exhausted (converged tol) 50
    (CLI.newton_raphson f df 1%float tol 50) /\
  converged_or_exhausted (converged tol) 50
    (CLI.fixed_point f 1%float tol 50) /\
  converged_or_exhausted (converged tol) 50
    (CLI.modified_secant f 1%float 0.01%float tol 50).
Proof.
  intros f df tol.
  assert (Hm : (0 <= 50)%Z) by lia.
  split; [exact Hm | ].
  exact (success_is_converged_or_exhausted f df 0%float 2%float 1%float
           2%float 0.01%float tol 50%Z Hm).
Defined.

(* ================================================================= *)
(** ** Exceptions of the compiled function (C7) *)

(** If the loop reaches a pass that raises, the loop raises. *)
Lemma for_range_reached_raise {A St : Type}
    (body : Z -> St -> py (ctl A St)) (e : exn) (k : nat) :
  forall (i : Z) (s0 s : St) (n : nat),
    for_range body i k s0 = Ok (Next s) ->
    body (i + Z.of_nat k)%Z s = Raise e ->
    (k < n)%nat ->
    for_range body i n s0 = Raise e.
Proof.
  induction k as [ | k IH]; intros i s0 s n Hk Hb Hn.
  - cbn in Hk. injection Hk as ->. rewrite Z.add_0_r in Hb.
    destruct n as [ | n]; [lia | ]. cbn. now rewrite Hb.
  - destruct n as [ | n]; [lia | ]. cbn in Hk |- *.
    destruct (body i s0) as [[a | s1] | e'] eqn:E0; try discriminate Hk.
    apply (IH (i + 1)%Z s1 s n Hk); [ | lia].
    now replace (i + 1 + Z.of_nat k)%Z with (i + Z.of_nat (S k))%Z by lia.
Qed.

(** Evaluate [t] in the equation [H] on a body that raises: either the
    evaluation is the one that raised, or the walk goes on. *)
Ltac eval_or_raise H t :=
  let E := fresh "E" in
  destruct t eqn:E; cbn [bind] in H; [ | injection H as <-; eauto].

Section RaiseOrigin.
Context {R : Type} `{NumberLaws R}.
Local Open Scope num_scope.

Lemma bisection_body_raise (f : CLI.fn) (tol : R) (i : Z)
    (s : R * R * list (row R)) (e : exn) :
  CLI.bisection_body f tol i s = Raise e -> exists x, f x = Raise e.
Proof.
  destruct s as [[a b] h]. unfold CLI.bisection_body.
  rewrite pydiv_two. cbn [bind]. intros Hb.
  eval_or_raise Hb (f (div (a + b) two)).
  destruct (_ || _); [discriminate Hb | ].
  eval_or_raise Hb (f a). destruct (_ <? _); discriminate Hb.
Qed.

Lemma regula_falsi_body_raise (f : CLI.fn) (tol : R) (i : Z)
    (s : R * R * option R * list (row R)) (e : exn) :
  CLI.regula_falsi_body f tol i s = Raise e -> exists x, f x = Raise e.
Proof.
  destruct s as [[[a b] c0] h]. unfold CLI.regula_falsi_body. intros Hb.
  eval_or_raise Hb (f a). eval_or_raise Hb (f b).
  destruct (_ ==? _) eqn:Ez; [discriminate Hb | ].
  rewrite (pydiv_guarded _ _ Ez) in Hb. cbn [bind] in Hb.
  eval_or_raise Hb (f (div (a * a1 - b * a0) (a1 - a0))).
  destruct (_ <? _); [discriminate Hb | ].
  destruct (_ <? _); discriminate Hb.
Qed.

Lemma secant_body_raise (f : CLI.fn) (tol : R) (i : Z)
    (s : R * R * list (row R)) (e : exn) :
  CLI.secant_body f tol i s = Raise e -> exists x, f x = Raise e.
Proof.
  destruct s as [[x0 x1] h]. unfold CLI.secant_body. intros Hb.
  eval_or_raise Hb (f x0). eval_or_raise Hb (f x1).
  destruct (_ ==? _) eqn:Ez; [discriminate Hb | ].
  rewrite (pydiv_guarded _ _ Ez) in Hb. cbn [bind] in Hb.
  destruct (_ <? _); discriminate Hb.
Qed.

Lemma newton_raphson_body_raise (f df : CLI.fn) (tol : R) (i : Z)
    (s : R * list (row R)) (e : exn) :
  CLI.newton_raphson_body f df tol i s = Raise e ->
  exists x, f x = Raise e \/ df x = Raise e.
Proof.
  destruct s as [x h]. unfold CLI.newton_raphson_body. intros Hb.
  eval_or_raise Hb (f x). eval_or_raise Hb (df x).
  destruct (_ ==? _) eqn:Ez; [discriminate Hb | ].
  rewrite (pydiv_guarded _ _ Ez) in Hb. cbn [bind] in Hb.
  destruct (_ <? _); discriminate Hb.
Qed.

Lemma fixed_point_body_raise (g : CLI.fn) (tol : R) (i : Z)
    (s : R * list (row R)) (e : exn) :
  CLI.fixed_point_body g tol i s = Raise e -> exists x, g x = Raise e.
Proof.
  destruct s as [x h]. unfold CLI.fixed_point_body. intros Hb.
  eval_or_raise Hb (g x).
  destruct (_ <? _); [discriminate Hb | ].
  destruct (_ <? _); discriminate Hb.
Qed.

Lemma modified_secant_body_raise (f : CLI.fn) (delta tol : R) (i : Z)
    (s : R * list (row R)) (e : exn) :
  CLI.modified_secant_body f delta tol i s = Raise e ->
  exists x, f x = Raise e.
Proof.
  destruct s as [x h]. unfold CLI.modified_secant_body. intros Hb.
  eval_or_raise Hb (f x). eval_or_raise Hb (f (x + delta)).
  destruct (_ ==? _) eqn:Ez; [discriminate Hb | ].
  rewrite (pydiv_guarded _ _ Ez) in Hb. cbn [bind] in Hb.
  destruct (_ <? _); discriminate Hb.
Qed.
End RaiseOrigin.

(** The solvers of ZOF_CLI.py catch nothing: an exception of the first
    evaluation of [f] comes out of the solver as it is. *)
Lemma evaluation_failure_propagates {R : Type} `{Number R} (f df : CLI.fn)
    (a b x0 x1 delta tol : R) (max_iter : Z) (e : exn) :
  (f a = Raise e ->
   CLI.bisection f a b tol max_iter = Raise e /\
   CLI.regula_falsi f a b tol max_iter = Raise e)
  /\
  ((1 <= max_iter)%Z -> f x0 = Raise e ->
   CLI.secant f x0 x1 tol max_iter = Raise e /\
   CLI.newton_raphson f df x0 tol max_iter = Raise e /\
   CLI.fixed_point f x0 tol max_iter = Raise e /\
   CLI.modified_secant f x0 delta tol max_iter = Raise e).
Proof.
  split.
  - intros Ha. unfold CLI.bisection, CLI.regula_falsi. now rewrite Ha.
  - intros Hm Hx. destruct (Z.to_nat max_iter) as [ | n] eqn:En; [lia | ].
    unfold CLI.secant, CLI.newton_raphson, CLI.fixed_point,
      CLI.modified_secant.
    rewrite En. cbn. now rewrite Hx.
Qed.

(** Conversely, with [max_iter >= 1] an exception that comes out of a
    solver was raised by an evaluation of [f] or of [df]: the arithmetic of
    the solvers does not raise, every division being behind a test for
    zero. *)
Lemma solver_raise_origin {R : Type} `{NumberLaws R} (f df : CLI.fn)
    (a b x0 x1 delta tol : R) (max_iter : Z) (e : exn) :
  (1 <= max_iter)%Z ->
  (CLI.bisection f a b tol max_iter = Raise e -> exists x, f x = Raise e) /\
  (CLI.regula_falsi f a b tol max_iter = Raise e ->
   exists x, f x = Raise e) /\
  (CLI.secant f x0 x1 tol max_iter = Raise e -> exists x, f x = Raise e) /\
  (CLI.newton_raphson f df x0 tol max_iter = Raise e ->
   exists x, f x = Raise e \/ df x = Raise e) /\
  (CLI.fixed_point f x0 tol max_iter = Raise e -> exists x, f x = Raise e) /\
  (CLI.modified_secant f x0 delta tol max_iter = Raise e ->
   exists x, f x = Raise e).
Proof.
  intros Hm. repeat apply conj; intros Hr.
  - unfold CLI.bisection in Hr.
    eval_or_raise Hr (f a). eval_or_raise Hr (f b).
    destruct (leb _ _); [discriminate Hr | ].
    destruct (for_range _ _ _ _) as [[o | [[a' b'] h]] | e'] eqn:El;
      cbn [bind] in Hr.
    + discriminate Hr.
    + rewrite pydiv_two in Hr. discriminate Hr.
    + injection Hr as ->. apply for_range_raise in El.
      destruct El as (j & s & Hb). now apply bisection_body_raise in Hb.
  - unfold CLI.regula_falsi in Hr.
    eval_or_raise Hr (f a). eval_or_raise Hr (f b).
    destruct (leb _ _); [discriminate Hr | ].
    destruct (for_range _ _ _ _) as [[o | [[[a' b'] c] h]] | e'] eqn:El;
      cbn [bind] in Hr.
    + discriminate Hr.
    + destruct (exhausted_trace _ snd _ _ (regula_falsi_appends f tol)
                  max_iter (a, b, None, []) _ Hm eq_refl El)
        as (_ & _ & r & _ & c' & Hc & _).
      cbn in Hc. subst c. discriminate Hr.
    + injection Hr as ->. apply for_range_raise in El.
      destruct El as (j & s & Hb). now apply regula_falsi_body_raise in Hb.
  - unfold CLI.secant in Hr.
    destruct (for_range _ _ _ _) as [[o | [[x0' x1'] h]] | e'] eqn:El;
      cbn [bind] in Hr; try discriminate Hr.
    injection Hr as ->. apply for_range_raise in El.
    destruct El as (j & s & Hb). now apply secant_body_raise in Hb.
  - unfold CLI.newton_raphson in Hr.
    destruct (for_range _ _ _ _) as [[o | [x h]] | e'] eqn:El;
      cbn [bind] in Hr; try discriminate Hr.
    injection Hr as ->. apply for_range_raise in El.
    destruct El as (j & s & Hb). now apply newton_raphson_body_raise in Hb.
  - unfold CLI.fixed_point in Hr.
    destruct (for_range _ _ _ _) as [[o | [x h]] | e'] eqn:El;
      cbn [bind] in Hr; try discriminate Hr.
    injection Hr as ->. apply for_range_raise in El.
    destruct El as (j & s & Hb). now apply fixed_point_body_raise in Hb.
  - unfold CLI.modified_secant in Hr.
    destruct (for_range _ _ _ _) as [[o | [x h]] | e'] eqn:El;
      cbn [bind] in Hr; try discriminate Hr.
    injection Hr as ->. apply for_range_raise in El.
    destruct El as (j & s & Hb). now apply modified_secant_body_raise in Hb.
Qed.

(* ================================================================= *)
(** ** The sign test of the bracketing methods (C5) *)

(** When [f(a) * f(b) >= 0] holds, both bracketing methods return their
    failure at once, in ZOF_CLI.py and in app.py. *)
Lemma bracket_guard {R : Type} `{Number R}
    (format_num : string -> R -> string) (f : CLI.fn) (a b fa fb tol : R)
    (max_iter : Z) :
  f a = Ok fa -> f b = Ok fb -> leb zero (mul fa fb) = true ->
  CLI.bisection f a b tol max_iter
    = Ok (Failure "Bisection fails: f(a) and f(b) must have opposite signs.")
  /\
  CLI.regula_falsi f a b tol max_iter
    = Ok (Failure
            "Regula Falsi fails: f(a) and f(b) must have opposite signs.")
  /\
  App.run_bisection format_num f a b tol max_iter
    = Ok (App.RError "f(a) and f(b) must have opposite signs")
  /\
  App.run_regula_falsi format_num f a b tol max_iter
    = Ok (App.RError "f(a) and f(b) must have opposite signs").
Proof.
  intros Ha Hb Hs.
  unfold CLI.bisection, CLI.regula_falsi, App.run_bisection,
    App.run_regula_falsi.
  rewrite Ha, Hb. cbn [bind]. now rewrite Hs.
Qed.

(** C5 fails on binary64 when the product is not a number.  For
    [f(x) = x], [a = nan] and [b = 1] the product [f(a) * f(b)] is [nan]:
    it is not strictly negative, but the test [f(a) * f(b) >= 0] is false
    as well, so both methods enter the loop, iterate [max_iter] times on
    [nan] and return [nan] as the root of a success. *)
Theorem nan_bracket_is_not_rejected :
  let f : CLI.fn := fun x => Ok x in
  let tol := 1e-6%float in
  ltb (mul nan 1%float) zero = false /\
  leb zero (mul nan 1%float) = false /\
  (exists root h,
     CLI.bisection f nan 1%float tol 3 = Ok (Success root h) /\
     List.length h = 3%nat /\ PrimFloat.is_nan root = true) /\
  (exists root h,
     CLI.regula_falsi f nan 1%float tol 3 = Ok (Success root h) /\
     List.length h = 3%nat /\ PrimFloat.is_nan root = true) /\
  (exists root h,
     App.run_bisection (fun _ _ => "") f nan 1%float tol 3
       = Ok (App.RResult root h 3) /\
     PrimFloat.is_nan root = true).
Proof.
  intros f tol. split; [reflexivity | ]. split; [reflexivity | ].
  split; [ | split].
  - do 2 eexists. split; [vm_compute; reflexivity | ]. split; reflexivity.
  - do 2 eexists. split; [vm_compute; reflexivity | ]. split; reflexivity.
  - do 2 eexists. split; [vm_compute; reflexivity | reflexivity].
Qed.

(* ================================================================= *)
(** ** Newton-Raphson on x**2 - 2 (C8) *)

(** C8. Newton-Raphson on [f(x) = x**2 - 2] from [x0 = 1] with
    [tol = 1e-6] and [max_iter = 50], the derivative being the one that
    [get_derivative] computes symbolically (it evaluates to [2 * x] at every
    iterate), returns a success after 5 iterations, which is at most 10, and
    its root is within [1e-5] of [1.414214]: on binary64 the root is
    [1.4142135623730951], and the same holds in exact rational
    arithmetic. *)
Theorem newton_raphson_sqrt2 :
  (let e := Sympy.Sub (Sympy.Pow Sympy.X 2) (Sympy.Num 2%float) in
   let f := Sympy.lambdify e in
   let df := CLI.get_derivative _ Sympy.lambdify Sympy.diff e in
   exists root h,
     CLI.newton_raphson f df 1%float 1e-6%float 50 = Ok (Success root h) /\
     (List.length h <= 10)%nat /\
     root = 1.4142135623730951%float /\
     ltb (abs (sub root 1.414214%float)) 1e-5%float = true /\
     Forall (fun r => exists x, num_of "x_curr" r = Some x /\
                                num_of "df_x" r = Some (mul two x)) h)
  /\
  (let e := Sympy.Sub (Sympy.Pow Sympy.X 2) (Sympy.Num 2%Q) in
   let f := Sympy.lambdify e in
   let df := CLI.get_derivative _ Sympy.lambdify Sympy.diff e in
   exists root h,
     CLI.newton_raphson f df 1%Q (1 # 1000000)%Q 50 = Ok (Success root h) /\
     (List.length h <= 10)%nat /\
     (Qabs (root - (1414214 # 1000000)) < 1 # 100000)%Q).
Proof.
  split; intros e f df.
  - do 2 eexists. split; [vm_compute; reflexivity | ].
    split; [cbn; lia | ]. split; [reflexivity | ]. split; [reflexivity | ].
    repeat constructor; eexists; split; reflexivity.
  - do 2 eexists. split; [vm_compute; reflexivity | ].
    split; [cbn; lia | ]. vm_compute. reflexivity.
Qed.

(* ================================================================= *)
(** ** Printing an empty trace (C9) *)

(** C9 fails on the code.  The output of [main] reads [history[-1]] (and
    later [history[0]]) without a test for an empty list: on an empty trace
    it prints the root and [Iterations: 0] and then raises IndexError,
    which the handler of [main] reports instead of a table.  An empty trace
    is what bisection returns for [max_iter = 0]; the last part is that run
    on the console, for [f(x) = x] on [-1, 1]. *)
Theorem report_fails_on_empty_trace :
  (forall (R : Type) (N : Number R) (format_num : string -> R -> string)
          (result : R) (w : world),
     CLI.report format_num result [] w
       = (Raise (IndexError "list index out of range"),
          {| stdin := stdin w;
             stdout := (stdout w
                        ++ [(nl ++ "Root found: " ++ format_num ".6f" result)%string;
                            "Iterations: 0"])%list |}))
  /\
  CLI.bisection (fun x => Ok x) (-1)%float 1%float 0.1%float 0
    = Ok (Success 0%float [])
  /\
  (let float_of_string (s : string) : py float :=
     if s =? "0.1" then Ok 0.1%float
     else if s =? "-1" then Ok (-1)%float
     else if s =? "1" then Ok 1%float
     else Raise (ValueError "could not convert string to float") in
   let int_of_string (s : string) : py Z :=
     if s =? "0" then Ok 0%Z
     else Raise (ValueError "invalid literal for int() with base 10") in
   let main_try :=
     CLI.main_try (Sympy.expr float) (fun _ => Ok Sympy.X) Sympy.lambdify
       Sympy.diff (fun _ => "") float_of_string int_of_string
       (fun _ _ => "") in
   let w := {| stdin := ["x"; "0.1"; "0"; "-1"; "1"]; stdout := [] |} in
   exists w',
     try_except (main_try "1") CLI.main_except w = (Ok tt, w') /\
     last_item (stdout w') = Ok "An error occurred: list index out of range").
Proof.
  split; [ | split].
  - intros R N format_num result [inp out].
    unfold CLI.report, io_bind, print, lift. cbn.
    now rewrite <- app_assoc.
  - reflexivity.
  - intros float_of_string int_of_string main_try w.
    eexists. split; [vm_compute; reflexivity | reflexivity].
Qed.


(* ================================================================= *)
(** ** Exact arithmetic: comparisons and points between two others *)

Section ExactArithmetic.
Local Open Scope Q_scope.

Lemma Q_ltb_true (x y : Q) : ltb x y = true -> x < y.
Proof.
  cbn. intros E. apply negb_true_iff in E. apply Qnot_le_lt. intros Hle.
  apply Qle_bool_iff in Hle. congruence.
Qed.

Lemma Q_ltb_false (x y : Q) : ltb x y = false -> y <= x.
Proof. cbn. intros E. now apply negb_false_iff, Qle_bool_iff in E. Qed.

Lemma opposite_signs (fa fb : Q) :
  fa * fb < 0 -> (fa < 0 /\ 0 < fb) \/ (0 < fa /\ fb < 0).
Proof.
  intros Hp.
  destruct (Qlt_le_dec fa 0) as [Ha | Ha];
    destruct (Qlt_le_dec 0 fb) as [Hb | Hb]; auto.
  - exfalso.
    assert (0 <= (- fa) * (- fb)) by (apply Qmult_le_0_compat; lra). lra.
  - exfalso. assert (0 <= fa * fb) by (apply Qmult_le_0_compat; lra). lra.
  - destruct (Qlt_le_dec 0 fa) as [Ha' | Ha'];
      destruct (Qlt_le_dec fb 0) as [Hb' | Hb']; auto; exfalso.
    + assert (E : fb == 0) by lra. rewrite E in Hp. lra.
    + assert (E : fa == 0) by lra. rewrite E in Hp. lra.
    + assert (E : fa == 0) by lra. rewrite E in Hp. lra.
Qed.

Lemma signs_opposite (x y : Q) : x < 0 -> 0 < y -> x * y < 0.
Proof.
  intros Hx Hy.
  assert (0 < (- x) * y) by (apply Qmult_lt_0_compat; lra). lra.
Qed.

(** The midpoint of bisection. *)
Lemma midpoint_between (x y : Q) : between x y (div (add x y) two).
Proof.
  change (div (add x y) two) with ((x + y) / inject_Z 2).
  unfold between, Qdiv. change (/ inject_Z 2) with (1 # 2).
  destruct (Qlt_le_dec x y); [left | right]; lra.
Qed.

Lemma midpoint_halves (x y : Q) :
  Qabs (div (add x y) two - x) == Qabs (y - x) / 2 /\
  Qabs (y - div (add x y) two) == Qabs (y - x) / 2.
Proof.
  change (div (add x y) two) with ((x + y) / inject_Z 2).
  unfold Qdiv. change (/ inject_Z 2) with (1 # 2).
  change (/ 2) with (1 # 2).
  destruct (Qlt_le_dec x y).
  - rewrite !Qabs_pos by lra. split; lra.
  - rewrite !Qabs_neg by lra. split; lra.
Qed.

(** The point of regula falsi, when the values at the ends have opposite
    signs. *)
Lemma false_position_between (x y fx fy : Q) :
  fx * fy < 0 -> between x y (div (sub (mul x fy) (mul y fx)) (sub fy fx)).
Proof.
  intros Hp.
  change (div (sub (mul x fy) (mul y fx)) (sub fy fx))
    with ((x * fy - y * fx) / (fy - fx)).
  assert (Hd : ~ fy - fx == 0).
  { destruct (opposite_signs _ _ Hp) as [[? ?] | [? ?]]; lra. }
  pose (t := - fx / (fy - fx)).
  assert (Ht : t * (fy - fx) == - fx) by (unfold t; now field).
  assert (Hc : (x * fy - y * fx) / (fy - fx) == x + t * (y - x))
    by (unfold t; now field).
  assert (H01 : 0 <= t <= 1).
  { destruct (opposite_signs _ _ Hp) as [[Hx Hy] | [Hx Hy]]; split.
    - destruct (Qlt_le_dec t 0); [ | assumption].
      assert (0 <= (- t) * (fy - fx)) by (apply Qmult_le_0_compat; lra). lra.
    - destruct (Qlt_le_dec 1 t); [ | assumption].
      assert (0 <= (t - 1) * (fy - fx)) by (apply Qmult_le_0_compat; lra).
      lra.
    - destruct (Qlt_le_dec t 0); [ | assumption].
      assert (0 <= (- t) * (fx - fy)) by (apply Qmult_le_0_compat; lra). lra.
    - destruct (Qlt_le_dec 1 t); [ | assumption].
      assert (0 <= (t - 1) * (fx - fy)) by (apply Qmult_le_0_compat; lra).
      lra. }
  unfold between. rewrite Hc. destruct H01 as [H0 H1].
  destruct (Qlt_le_dec x y); [left | right].
  - assert (0 <= t * (y - x)) by (apply Qmult_le_0_compat; lra).
    assert (0 <= (1 - t) * (y - x)) by (apply Qmult_le_0_compat; lra). lra.
  - assert (0 <= t * (x - y)) by (apply Qmult_le_0_compat; lra).
    assert (0 <= (1 - t) * (x - y)) by (apply Qmult_le_0_compat; lra). lra.
Qed.

Lemma between_widths (x y z : Q) :
  between x y z ->
  Qabs (z - x) <= Qabs (y - x) /\ Qabs (y - z) <= Qabs (y - x).
Proof.
  intros [[H1 H2] | [H1 H2]].
  - rewrite !Qabs_pos by lra. split; lra.
  - rewrite !Qabs_neg by lra. split; lra.
Qed.

Lemma within_left (a b : Q) : within a b a.
Proof. split; [apply Q.le_min_l | apply Q.le_max_l]. Qed.

Lemma within_right (a b : Q) : within a b b.
Proof. split; [apply Q.le_min_r | apply Q.le_max_r]. Qed.

Lemma between_within (a b x y z : Q) :
  within a b x -> within a b y -> between x y z -> within a b z.
Proof.
  unfold within. intros [Hx1 Hx2] [Hy1 Hy2] [[H1 H2] | [H1 H2]]; split;
    eauto using Qle_trans.
Qed.
End ExactArithmetic.

(* ================================================================= *)
(** ** Traces grow at the end *)

Lemma nth_error_snoc {A : Type} (h : list A) (x r : A) (i : nat) :
  nth_error (h ++ [x]) i = Some r ->
  nth_error h i = Some r \/ (i = List.length h /\ r = x).
Proof.
  intros Hn. destruct (Nat.lt_ge_cases i (List.length h)) as [Hi | Hi].
  - left. now rewrite nth_error_app1 in Hn.
  - right. rewrite nth_error_app2 in Hn by assumption.
    destruct (i - List.length h)%nat as [ | k] eqn:Ek; cbn in Hn.
    + injection Hn as <-. split; [lia | reflexivity].
    + now destruct k.
Qed.

Lemma trace_above_nil (w : Q) : trace_above w [].
Proof.
  split.
  - intros r [].
  - intros i r r' Hr. now destruct i.
Qed.

Lemma trace_above_snoc (w : Q) (h : list (row Q)) (r : row Q) :
  trace_above w h -> width r = Some w -> trace_above w (h ++ [r]).
Proof.
  intros [Hall Hmono] Hw. split.
  - intros r' Hin. apply in_app_or in Hin. destruct Hin as [Hin | [<- | []]].
    + now apply Hall.
    + exists w. split; [assumption | apply Qle_refl].
  - intros i r1 r2 H1 H2.
    apply nth_error_snoc in H2. destruct H2 as [H2 | [Hi ->]].
    + assert (Hlt : (S i < List.length h)%nat)
        by (apply nth_error_Some; congruence).
      rewrite nth_error_app1 in H1 by lia. now apply (Hmono i).
    + rewrite nth_error_app1 in H1 by lia.
      destruct (Hall r1 (nth_error_In _ _ H1)) as (w1 & Hw1 & Hle).
      now exists w1, w.
Qed.

Lemma trace_above_weaken (w w' : Q) (h : list (row Q)) :
  (w' <= w)%Q -> trace_above w h -> trace_above w' h.
Proof.
  intros Hle [Hall Hmono]. split; [ | assumption].
  intros r Hin. destruct (Hall r Hin) as (wr & Hwr & Hw).
  exists wr. split; [assumption | ]. now apply Qle_trans with w.
Qed.

Section BreakShape.
Context {R : Type} `{NumberLaws R}.
Local Open Scope num_scope.

Lemma bisection_body_break (f : CLI.fn) (tol : R) (i : Z) (a b root : R)
    (h h' : list (row R)) :
  CLI.bisection_body f tol i (a, b, h) = Ok (Break (Success root h')) ->
  exists fc,
    root = div (a + b) two /\ f root = Ok fc /\
    h' = (h ++ [[("iter", VInt i); ("a", VNum a); ("b", VNum b);
                 ("mid", VNum root); ("f_mid", VNum fc);
                 ("error", VNum (abs (b - a)))]])%list.
Proof.
  unfold CLI.bisection_body. rewrite pydiv_two. cbn [bind]. intros Hb.
  destruct (f (div (a + b) two)) as [fc | ] eqn:Ec; cbn [bind] in Hb;
    [ | discriminate Hb].
  destruct (_ || _).
  - injection Hb as <- <-. now exists fc.
  - destruct (f a); cbn [bind] in Hb; [ | discriminate Hb].
    destruct (_ <? _); discriminate Hb.
Qed.

Lemma regula_falsi_body_break (f : CLI.fn) (tol : R) (i : Z) (a b root : R)
    (c0 : option R) (h h' : list (row R)) :
  CLI.regula_falsi_body f tol i (a, b, c0, h)
    = Ok (Break (Success root h')) ->
  exists fa fb fc,
    f a = Ok fa /\ f b = Ok fb /\
    root = div (a * fb - b * fa) (fb - fa) /\ f root = Ok fc /\
    h' = (h ++ [[("iter", VInt i); ("a", VNum a); ("b", VNum b);
                 ("c", VNum root); ("f_c", VNum fc);
                 ("error", VNum (abs fc))]])%list.
Proof.
  unfold CLI.regula_falsi_body. intros Hb.
  destruct (f a) as [fa | ] eqn:Ea; cbn [bind] in Hb; [ | discriminate Hb].
  destruct (f b) as [fb | ] eqn:Eb; cbn [bind] in Hb; [ | discriminate Hb].
  destruct (fb - fa ==? zero) eqn:Ez; [discriminate Hb | ].
  rewrite (pydiv_guarded _ _ Ez) in Hb. cbn [bind] in Hb.
  destruct (f (div (a * fb - b * fa) (fb - fa))) as [fc | ] eqn:Ec;
    cbn [bind] in Hb; [ | discriminate Hb].
  destruct (abs fc <? tol).
  - injection Hb as <- <-. now exists fa, fb, fc.
  - destruct (_ <? _); discriminate Hb.
Qed.
End BreakShape.


(* ================================================================= *)
(** ** Exact arithmetic: the bracket shrinks and encloses the root (C4) *)

Section Enclosure.
Local Open Scope Q_scope.
Variable f : Q -> py Q.
Variables a b tol : Q.

Lemma sign_kept (fa fb fc : Q) :
  fa * fb < 0 -> 0 <= fa * fc -> 0 < Qabs fc -> fc * fb < 0.
Proof.
  intros Hp Hac Hc.
  assert (Hnz : ~ fc == 0) by (intros E; rewrite E in Hc; cbn in Hc; lra).
  destruct (opposite_signs _ _ Hp) as [[Ha Hb] | [Ha Hb]].
  - destruct (Qlt_le_dec fc 0) as [Hneg | Hpos].
    + now apply signs_opposite.
    + exfalso. assert (0 < fc) by lra.
      pose proof (signs_opposite fa fc Ha ltac:(assumption)). lra.
  - destruct (Qlt_le_dec 0 fc) as [Hpos | Hneg].
    + rewrite Qmult_comm. now apply signs_opposite.
    + exfalso. assert (fc < 0) by lra.
      pose proof (signs_opposite fc fa ltac:(assumption) Ha) as Hs.
      rewrite Qmult_comm in Hs. lra.
Qed.

Lemma bisection_enclosure_step (i : Z) (s : Q * Q * list (row Q)) :
  bisection_inv a b s ->
  match CLI.bisection_body f tol i s with
  | Ok (Next s') => bisection_inv a b s'
  | Ok (Break o) => enclosed a b o
  | Raise _ => True
  end.
Proof.
  destruct s as [[ak bk] h]. intros (Hak & Hbk & Ht).
  pose proof (midpoint_between ak bk) as Hc.
  destruct (CLI.bisection_body f tol i (ak, bk, h))
    as [[[msg | root h'] | [[a' b'] h']] | e] eqn:Eb; cbn; auto.
  - apply bisection_body_break in Eb. destruct Eb as (fc & -> & _ & ->).
    split.
    + now apply (between_within a b ak bk).
    + now apply (trace_above_snoc (Qabs (bk - ak))).
  - apply bisection_body_next in Eb.
    destruct Eb as (c & fc & fa & -> & _ & _ & _ & -> & Hab).
    pose proof (between_within a b ak bk _ Hak Hbk Hc) as Hwc.
    destruct (between_widths _ _ _ Hc) as [Hw1 Hw2].
    destruct (ltb (mul fa fc) zero); injection Hab as -> ->.
    + split; [exact Hak | split; [exact Hwc | ]].
      apply (trace_above_weaken (Qabs (bk - ak))); [exact Hw1 | ].
      now apply trace_above_snoc.
    + split; [exact Hwc | split; [exact Hbk | ]].
      apply (trace_above_weaken (Qabs (bk - ak))); [exact Hw2 | ].
      now apply trace_above_snoc.
Qed.

Hypothesis tol_positive : 0 < tol.

Lemma regula_falsi_enclosure_step (i : Z)
    (s : Q * Q * option Q * list (row Q)) :
  regula_falsi_inv f a b s ->
  match CLI.regula_falsi_body f tol i s with
  | Ok (Next s') => regula_falsi_inv f a b s'
  | Ok (Break o) => enclosed a b o
  | Raise _ => True
  end.
Proof.
  destruct s as [[[ak bk] c0] h].
  intros (Hak & Hbk & (fa0 & fb0 & Hfa0 & Hfb0 & Hp) & Ht & _).
  pose proof (false_position_between ak bk fa0 fb0 Hp) as Hc.
  pose proof (between_within a b ak bk _ Hak Hbk Hc) as Hwc.
  destruct (CLI.regula_falsi_body f tol i (ak, bk, c0, h))
    as [[[msg | root h'] | [[[a' b'] c'] h']] | e] eqn:Eb; cbn; auto.
  - apply regula_falsi_body_break in Eb.
    destruct Eb as (fa & fb & fc & Hfa & Hfb & -> & _ & ->).
    rewrite Hfa0 in Hfa. rewrite Hfb0 in Hfb.
    injection Hfa as <-. injection Hfb as <-.
    split; [exact Hwc | ]. now apply (trace_above_snoc (Qabs (bk - ak))).
  - apply regula_falsi_body_next in Eb.
    destruct Eb
      as (fa & fb & c & fc & Hfa & Hfb & _ & -> & Hfc & Htol & -> & -> & Hab).
    rewrite Hfa0 in Hfa. rewrite Hfb0 in Hfb.
    injection Hfa as <-. injection Hfb as <-.
    destruct (between_widths _ _ _ Hc) as [Hw1 Hw2].
    apply Q_ltb_false in Htol. change (tol <= Qabs fc) in Htol.
    destruct (ltb (mul fa0 fc) zero) eqn:Es; injection Hab as -> ->.
    + apply Q_ltb_true in Es. change (fa0 * fc < 0) in Es.
      split; [exact Hak | split; [exact Hwc | ]].
      split; [now exists fa0, fc | ]. split.
      * apply (trace_above_weaken (Qabs (bk - ak))); [exact Hw1 | ].
        now apply trace_above_snoc.
      * now intros x [= <-].
    + apply Q_ltb_false in Es. change (0 <= fa0 * fc) in Es.
      split; [exact Hwc | split; [exact Hbk | ]].
      split.
      { exists fc, fb0. repeat split; auto.
        apply (sign_kept fa0); auto. lra. }
      split.
      * apply (trace_above_weaken (Qabs (bk - ak))); [exact Hw2 | ].
        now apply trace_above_snoc.
      * now intros x [= <-].
Qed.
End Enclosure.

Lemma Q_leb_negative (p : Q) : (p < 0)%Q -> leb zero p = false.
Proof.
  intros Hp. change (Qle_bool 0 p = false).
  destruct (Qle_bool 0 p) eqn:E; [ | reflexivity].
  apply Qle_bool_iff in E. lra.
Qed.

(** C4, amended. In exact (rational) arithmetic, for bisection and regula
    falsi, for every [f], [a], [b] with [f(a) * f(b) < 0], every [tol > 0]
    and [max_iter >= 1]: whenever the method returns a success, the bracket
    width [abs(b - a)] does not grow from one record of the trace to the
    next, and the root lies within [[min(a, b), max(a, b)]]. *)
Theorem bracket_shrinks_and_encloses (f : Q -> py Q) (a b fa fb tol : Q)
    (max_iter : Z) :
  (0 < tol)%Q -> (1 <= max_iter)%Z ->
  f a = Ok fa -> f b = Ok fb -> (fa * fb < 0)%Q ->
  (forall root h,
     CLI.bisection f a b tol max_iter = Ok (Success root h) ->
     within a b root /\ widths_nonincreasing h)
  /\
  (forall root h,
     CLI.regula_falsi f a b tol max_iter = Ok (Success root h) ->
     within a b root /\ widths_nonincreasing h).
Proof.
  intros Htol Hm Ha Hb Hp. split; intros root h Ho.
  - unfold CLI.bisection in Ho. rewrite Ha, Hb in Ho. cbn [bind] in Ho.
    assert (Hs : leb zero (mul fa fb) = false)
      by exact (Q_leb_negative _ Hp).
    rewrite Hs in Ho.
    pose proof (for_range_inv (CLI.bisection_body f tol)
                  (fun _ => bisection_inv a b) (enclosed a b)
                  (fun i s => bisection_enclosure_step f a b tol i s)
                  (Z.to_nat max_iter) 1%Z (a, b, [])) as L.
    assert (H0 : bisection_inv a b (a, b, [])).
    { split; [apply within_left | split; [apply within_right | ]].
      apply trace_above_nil. }
    specialize (L H0).
    destruct (for_range _ _ _ _) as [[o | [[a' b'] h']] | e];
      cbn [bind] in Ho; try discriminate Ho.
    + injection Ho as ->. exact L.
    + rewrite pydiv_two in Ho. cbn [bind] in Ho. injection Ho as <- <-.
      destruct L as (Ha' & Hb' & Ht). split.
      * apply (between_within a b a' b'); auto. apply midpoint_between.
      * apply Ht.
  - unfold CLI.regula_falsi in Ho. rewrite Ha, Hb in Ho. cbn [bind] in Ho.
    assert (Hs : leb zero (mul fa fb) = false)
      by exact (Q_leb_negative _ Hp).
    rewrite Hs in Ho.
    pose proof (for_range_inv (CLI.regula_falsi_body f tol)
                  (fun _ => regula_falsi_inv f a b) (enclosed a b)
                  (fun i s => regula_falsi_enclosure_step f a b tol Htol i s)
                  (Z.to_nat max_iter) 1%Z (a, b, None, [])) as L.
    assert (H0 : regula_falsi_inv f a b (a, b, None, [])).
    { split; [apply within_left | split; [apply within_right | ]].
      split; [now exists fa, fb | ].
      split; [apply trace_above_nil | discriminate]. }
    specialize (L H0).
    destruct (for_range _ _ _ _) as [[o | [[[a' b'] [c | ]] h']] | e];
      cbn [bind] in Ho; try discriminate Ho.
    + injection Ho as ->. exact L.
    + injection Ho as <- <-.
      destruct L as (_ & _ & _ & Ht & Hc). split; [now apply Hc | apply Ht].
Qed.

Lemma bracket_shrinks_and_encloses_witness :
  let f : Q -> py Q := fun x => Ok (x * x - 2)%Q in
  (0 < 1 # 100)%Q /\ (1 <= 5)%Z /\
  f 0%Q = Ok (0 * 0 - 2)%Q /\ f 2%Q = Ok (2 * 2 - 2)%Q /\
  ((0 * 0 - 2) * (2 * 2 - 2) < 0)%Q /\
  (forall root h,
     CLI.bisection f 0%Q 2%Q (1 # 100)%Q 5 = Ok (Success root h) ->
     within 0 2 root /\ widths_nonincreasing h) /\
  (forall root h,
     CLI.regula_falsi f 0%Q 2%Q (1 # 100)%Q 5 = Ok (Success root h) ->
     within 0 2 root /\ widths_nonincreasing h).
Proof.
  intros f.
  assert (Htol : (0 < 1 # 100)%Q) by reflexivity.
  assert (Hm : (1 <= 5)%Z) by lia.
  assert (Hp : ((0 * 0 - 2) * (2 * 2 - 2) < 0)%Q) by reflexivity.
  split; [exact Htol | ]. split; [exact Hm | ].
  split; [reflexivity | ]. split; [reflexivity | ]. split; [exact Hp | ].
  exact (bracket_shrinks_and_encloses f 0%Q 2%Q _ _ (1 # 100)%Q 5%Z
           Htol Hm eq_refl eq_refl Hp).
Defined.

(** Against C4 as stated, on binary64: for [f(x) = x - 1.2e308] on
    [1e308, 1.5e308], where [f(a) * f(b) < 0], the midpoint
    [(a + b) / 2] overflows to infinity.  With [tol = 1e-6] and
    [max_iter = 2] bisection returns a success whose trace has the widths
    [5e307] and then infinity, and whose root, infinity, is above
    [max(a, b)]. *)
Lemma bisection_overflow_leaves_bracket :
  let f : CLI.fn := fun x => Ok (x - 1.2e308)%float in
  let a := 1e308%float in
  let b := 1.5e308%float in
  let tol := 1e-6%float in
  ltb zero tol = true /\ (1 <= 2)%Z /\
  (exists fa fb,
     f a = Ok fa /\ f b = Ok fb /\ ltb (mul fa fb) zero = true) /\
  exists root r1 r2 w1 w2,
    CLI.bisection f a b tol 2 = Ok (Success root [r1; r2]) /\
    width r1 = Some w1 /\ width r2 = Some w2 /\
    ltb w1 w2 = true /\
    ltb b root = true.
Proof.
  intros f a b tol. split; [reflexivity | ]. split; [lia | ]. split.
  - do 2 eexists. split; [reflexivity | ]. split; reflexivity.
  - do 5 eexists. split; [vm_compute; reflexivity | ].
    split; [reflexivity | ]. split; [reflexivity | ]. split; reflexivity.
Qed.


(* ================================================================= *)
(** ** Exact arithmetic: bisection halves the bracket (C10) *)

Section Halving.
Local Open Scope Q_scope.
Variable f : Q -> py Q.
Variables a b tol : Q.

Lemma half_of_power (w : Q) (k : Z) :
  (0 <= k)%Z ->
  (w / inject_Z (2 ^ k)) / 2 == w / inject_Z (2 ^ (k + 1)).
Proof.
  intros Hk. rewrite Z.pow_add_r by lia. rewrite inject_Z_mult.
  assert (Hnz : ~ inject_Z (2 ^ k) == 0).
  { change 0 with (inject_Z 0). rewrite inject_Z_injective. lia. }
  change (inject_Z (2 ^ 1)) with 2. now field.
Qed.

Lemma halves_nil : halves a b [].
Proof. intros i r Hr. now destruct i. Qed.

Lemma halves_snoc (h : list (row Q)) (ak bk mid fc : Q) :
  halves a b h ->
  Qabs (bk - ak) == Qabs (b - a) / inject_Z (2 ^ Z.of_nat (List.length h)) ->
  halves a b
    (h ++ [[("iter", VInt (Z.of_nat (List.length h) + 1)); ("a", VNum ak);
            ("b", VNum bk); ("mid", VNum mid); ("f_mid", VNum fc);
            ("error", VNum (Qabs (bk - ak)))]]).
Proof.
  intros Hh Hw i r Hr. apply nth_error_snoc in Hr.
  destruct Hr as [Hr | [-> ->]].
  - now apply Hh.
  - split; [reflexivity | ]. exists ak, bk. now repeat split.
Qed.

Lemma bisection_halving_step (k : Z) (s : Q * Q * list (row Q)) :
  halving_inv a b k s ->
  match CLI.bisection_body f tol k s with
  | Ok (Next s') => halving_inv a b (k + 1) s'
  | Ok (Break o) => halved a b o
  | Raise _ => True
  end.
Proof.
  destruct s as [[ak bk] h]. intros (Hk & Hlen & Hw & Hh).
  assert (Ek : k = (Z.of_nat (List.length h) + 1)%Z) by lia.
  assert (Hw' : Qabs (bk - ak)
                == Qabs (b - a) / inject_Z (2 ^ Z.of_nat (List.length h))).
  { rewrite Hw. now replace (k - 1)%Z with (Z.of_nat (List.length h)). }
  destruct (CLI.bisection_body f tol k (ak, bk, h))
    as [[[msg | root h'] | [[a' b'] h']] | e] eqn:Eb; cbn; auto.
  - apply bisection_body_break in Eb. destruct Eb as (fc & _ & _ & ->).
    rewrite Ek at 1. now apply halves_snoc.
  - apply bisection_body_next in Eb.
    destruct Eb as (c & fc & fa & -> & _ & _ & _ & -> & Hab).
    destruct (midpoint_halves ak bk) as [H1 H2].
    assert (Hhalf : Qabs (bk - ak) / 2
                    == Qabs (b - a) / inject_Z (2 ^ (k + 1 - 1))).
    { rewrite Hw, half_of_power by lia.
      now replace (k - 1 + 1)%Z with (k + 1 - 1)%Z by lia. }
    split; [lia | ]. split; [rewrite length_app; cbn; lia | ].
    split.
    + destruct (ltb (mul fa fc) zero); injection Hab as -> ->.
      * now rewrite H1.
      * now rewrite H2.
    + rewrite Ek at 1. now apply halves_snoc.
Qed.
End Halving.

(** C10, amended. In exact (rational) arithmetic bisection halves the
    bracket exactly: whenever it returns a success, the record of
    iteration [i], for every [i] from 1 to the number of iterations,
    holds the bracket that entered the iteration, its error is the width
    [abs(b - a)] of that bracket, and this width is the width of the
    initial bracket divided by [2 ^ (i - 1)]. *)
Theorem bisection_halves_exactly (f : Q -> py Q) (a b tol : Q) (max_iter : Z)
    (root : Q) (h : list (row Q)) :
  CLI.bisection f a b tol max_iter = Ok (Success root h) -> halves a b h.
Proof.
  intros Ho. unfold CLI.bisection in Ho.
  destruct (f a) as [fa | ]; cbn [bind] in Ho; [ | discriminate Ho].
  destruct (f b) as [fb | ]; cbn [bind] in Ho; [ | discriminate Ho].
  destruct (leb zero (mul fa fb)); [discriminate Ho | ].
  pose proof (for_range_inv (CLI.bisection_body f tol)
                (halving_inv a b) (halved a b)
                (fun k s => bisection_halving_step f a b tol k s)
                (Z.to_nat max_iter) 1%Z (a, b, [])) as L.
  assert (H0 : halving_inv a b 1 (a, b, [])).
  { split; [lia | ]. split; [reflexivity | ].
    split; [ | apply halves_nil].
    change (inject_Z (2 ^ (1 - 1))) with 1%Q. unfold Qdiv.
    change (/ 1)%Q with 1%Q. now rewrite Qmult_1_r. }
  specialize (L H0).
  destruct (for_range _ _ _ _) as [[o | [[a' b'] h']] | e];
    cbn [bind] in Ho; try discriminate Ho.
  - injection Ho as ->. exact L.
  - rewrite pydiv_two in Ho. cbn [bind] in Ho. injection Ho as <- <-.
    apply L.
Qed.

Lemma bisection_halves_exactly_witness :
  exists root h,
    CLI.bisection (fun x => Ok (x * x - 2)%Q) 0%Q 2%Q (1 # 100)%Q 5
      = Ok (Success root h) /\
    List.length h = 5%nat /\
    halves 0 2 h.
Proof.
  do 2 eexists. split; [vm_compute; reflexivity | ].
  split; [reflexivity | ].
  eapply (bisection_halves_exactly (fun x => Ok (x * x - 2)%Q) 0%Q 2%Q
            (1 # 100)%Q 5%Z).
  vm_compute. reflexivity.
Defined.

(** Against C10 as stated, on binary64: between [a = 1] and its successor
    [b = 1 + 2^-52], with [f] negative up to [1] and positive above, the
    midpoint [(a + b) / 2] rounds to [a].  With [tol = 1e-20] the first
    iteration keeps the bracket as it is, and the error of the second
    record is the initial width again, not half of it. *)
Lemma bisection_rounding_does_not_halve :
  let f : CLI.fn :=
    fun x => Ok (if PrimFloat.leb x 1 then (-1)%float else 1%float) in
  let a := 1%float in
  let b := 0x1.0000000000001p+0%float in
  let tol := 1e-20%float in
  ltb zero tol = true /\ (1 <= 2)%Z /\
  (exists fa fb,
     f a = Ok fa /\ f b = Ok fb /\ ltb (mul fa fb) zero = true) /\
  exists root r1 r2 e2,
    CLI.bisection f a b tol 2 = Ok (Success root [r1; r2]) /\
    num_of "error" r2 = Some e2 /\
    e2 = abs (sub b a) /\
    eqb e2 (div (abs (sub b a)) two) = false.
Proof.
  intros f a b tol. split; [reflexivity | ]. split; [lia | ]. split.
  - do 2 eexists. split; [reflexivity | ]. split; reflexivity.
  - do 4 eexists. split; [vm_compute; reflexivity | ].
    split; [reflexivity | ]. split; reflexivity.
Qed.

(** In any arithmetic, binary64 included, the error of every record of
    bisection is the width of the bracket that the record holds. *)
Lemma bisection_error_is_width {R : Type} `{NumberLaws R} (f : CLI.fn)
    (a b tol : R) (max_iter : Z) (root : R) (h : list (row R)) :
  CLI.bisection f a b tol max_iter = Ok (Success root h) ->
  Forall (fun r => exists e, num_of "error" r = Some e /\ width r = Some e) h.
Proof.
  intros Ho. unfold CLI.bisection in Ho.
  destruct (f a) as [fa | ]; cbn [bind] in Ho; [ | discriminate Ho].
  destruct (f b) as [fb | ]; cbn [bind] in Ho; [ | discriminate Ho].
  destruct (leb zero (mul fa fb)); [discriminate Ho | ].
  pose (P := fun r : row R =>
    exists e, num_of "error" r = Some e /\ width r = Some e).
  assert (Hstep : forall i s, Forall P (snd s) ->
    match CLI.bisection_body f tol i s with
    | Ok (Next s') => Forall P (snd s')
    | Ok (Break (Success _ h')) => Forall P h'
    | _ => True
    end).
  { intros i [[ak bk] h0] Hall. cbn [snd] in Hall.
    destruct (CLI.bisection_body f tol i (ak, bk, h0))
      as [[[msg | root' h'] | [[a' b'] h']] | e] eqn:Eb; auto.
    - apply bisection_body_break in Eb. destruct Eb as (fc & _ & _ & ->).
      apply Forall_app. split; [assumption | ].
      constructor; [ | constructor]. now eexists.
    - apply bisection_body_next in Eb.
      destruct Eb as (c & fc & fa' & _ & _ & _ & _ & -> & _).
      cbn [snd]. apply Forall_app. split; [assumption | ].
      constructor; [ | constructor]. now eexists. }
  pose proof (for_range_inv (CLI.bisection_body f tol)
                (fun _ s => Forall P (snd s))
                (fun o => match o with
                          | Success _ h' => Forall P h'
                          | Failure _ => True
                          end)
                Hstep (Z.to_nat max_iter) 1%Z (a, b, []) (Forall_nil P)) as L.
  destruct (for_range _ _ _ _) as [[o | [[a' b'] h']] | e];
    cbn [bind] in Ho; try discriminate Ho.
  - injection Ho as ->. exact L.
  - rewrite pydiv_two in Ho. cbn [bind] in Ho. injection Ho as <- <-.
    exact L.
Qed.

(* ================================================================= *)
(** ** Exhausting the iterations in app.py *)

(** The loops inlined in [run_method] end like those of ZOF_CLI.py: when
    all [max_iter] passes are run, the dict returned is a result, with the
    last estimate as root and [max_iter] under ["iters"]. *)
Lemma app_exhaustion_is_success {R : Type} `{NumberLaws R}
    (format_num : string -> R -> string) (f df : App.fn)
    (a b x0 x1 delta tol : R) (max_iter : Z) :
  (forall fa fb a' b' h,
     f a = Ok fa -> f b = Ok fb -> leb zero (mul fa fb) = false ->
     exhausts (App.bisection_body format_num f tol) max_iter (a, b, [])
       (a', b', h) ->
     App.run_bisection format_num f a b tol max_iter
       = Ok (App.RResult (div (add a' b') two) h max_iter))
  /\
  (forall fa fb a' b' c h,
     f a = Ok fa -> f b = Ok fb -> leb zero (mul fa fb) = false ->
     exhausts (App.regula_falsi_body format_num f tol) max_iter
       (a, b, None, []) (a', b', Some c, h) ->
     App.run_regula_falsi format_num f a b tol max_iter
       = Ok (App.RResult c h max_iter))
  /\
  (forall x0' x1' h,
     exhausts (App.secant_body format_num f tol) max_iter (x0, x1, [])
       (x0', x1', h) ->
     App.run_secant format_num f x0 x1 tol max_iter
       = Ok (App.RResult x1' h max_iter))
  /\
  (forall x h,
     exhausts (App.newton_body format_num f df tol) max_iter (x0, []) (x, h) ->
     App.run_newton format_num f df x0 tol max_iter
       = Ok (App.RResult x h max_iter))
  /\
  (forall x h,
     exhausts (App.fixed_point_body format_num f tol) max_iter (x0, [])
       (x, h) ->
     App.run_fixed_point format_num f x0 tol max_iter
       = Ok (App.RResult x h max_iter))
  /\
  (forall x h,
     exhausts (App.modified_secant_body format_num f delta tol) max_iter
       (x0, []) (x, h) ->
     App.run_modified_secant format_num f x0 delta tol max_iter
       = Ok (App.RResult x h max_iter)).
Proof.
  unfold exhausts. repeat apply conj.
  - intros fa fb a' b' h Ha Hb Hs Hex. unfold App.run_bisection.
    rewrite Ha, Hb. cbn [bind]. rewrite Hs, Hex. cbn [bind].
    now rewrite pydiv_two.
  - intros fa fb a' b' c h Ha Hb Hs Hex. unfold App.run_regula_falsi.
    rewrite Ha, Hb. cbn [bind]. now rewrite Hs, Hex.
  - intros x0' x1' h Hex. unfold App.run_secant. now rewrite Hex.
  - intros x h Hex. unfold App.run_newton. now rewrite Hex.
  - intros x h Hex. unfold App.run_fixed_point. now rewrite Hex.
  - intros x h Hex. unfold App.run_modified_secant. now rewrite Hex.
Qed.

(* ================================================================= *)
(** * Further properties of the solvers *)

(** ** Loops, with the pass that returned *)

Lemma for_range_inv_at {A St : Type} (body : Z -> St -> py (ctl A St))
    (Inv : Z -> St -> Prop) (Post : Z -> A -> Prop) :
  (forall i s, Inv i s ->
     match body i s with
     | Ok (Next s') => Inv (i + 1)%Z s'
     | Ok (Break a) => Post i a
     | Raise _ => True
     end) ->
  forall n i s, Inv i s ->
    match for_range body i n s with
    | Ok (Next s') => Inv (i + Z.of_nat n)%Z s'
    | Ok (Break a) => exists j, (i <= j < i + Z.of_nat n)%Z /\ Post j a
    | Raise _ => True
    end.
Proof.
  intros Hbody n. induction n as [ | n IH]; intros i s Hi.
  - cbn. now rewrite Z.add_0_r.
  - cbn [for_range]. specialize (Hbody i s Hi).
    destruct (body i s) as [[a | s'] | e]; auto.
    + exists i. split; [lia | assumption].
    + specialize (IH (i + 1)%Z s' Hbody).
      destruct (for_range body (i + 1) n s') as [[a | s''] | e]; auto.
      * destruct IH as (j & Hj & Hp). exists j. split; [lia | assumption].
      * now replace (i + Z.of_nat (S n))%Z with (i + 1 + Z.of_nat n)%Z by lia.
Qed.

Lemma last_item_nth {A : Type} (h : list A) (k : nat) (p : A) :
  nth_error h k = Some p -> S k = List.length h -> last_item h = Ok p.
Proof.
  intros Hn Hk. apply nth_error_split in Hn.
  destruct Hn as (l1 & l2 & -> & Hl1). rewrite length_app in Hk. cbn in Hk.
  destruct l2 as [ | y l2]; [ | cbn in Hk; lia].
  apply last_item_snoc.
Qed.

Lemma nth_error_last {A : Type} (h : list A) (p : A) :
  last_item h = Ok p ->
  exists k, nth_error h k = Some p /\ S k = List.length h.
Proof.
  unfold last_item. intros Hl.
  destruct (rev h) as [ | x t] eqn:Er; [discriminate Hl | ].
  injection Hl as ->.
  assert (Eh : h = (rev t ++ [p])%list).
  { rewrite <- (rev_involutive h), Er. reflexivity. }
  exists (List.length (rev t)). subst h. split.
  - rewrite nth_error_app2 by lia. now rewrite Nat.sub_diag.
  - rewrite length_app. cbn. lia.
Qed.

Section TraceOfLoop.
Context {R St : Type}.
Variable body : Z -> St -> py (ctl (outcome R) St).
Variable hist : St -> list (row R).
Variable conv : row R -> bool.
Variable good : Z -> row R -> Prop.
Variable link : row R -> row R -> Prop.
Variable tie : St -> row R -> Prop.
Variable root_of : row R -> R -> Prop.

(** A pass that goes on appends one well-written record that fails the
    convergence test, follows from the record before and is tied to the
    new state. *)
Hypothesis step_next : forall i s s',
  body i s = Ok (Next s') ->
  exists r, hist s' = (hist s ++ [r])%list /\ good i r /\ conv r = false /\
            tie s' r /\ (forall p, tie s p -> link p r).

(** A pass that returns a success appends one well-written record that
    meets the convergence test and holds the root. *)
Hypothesis step_break : forall i s root h,
  body i s = Ok (Break (Success root h)) ->
  exists r, h = (hist s ++ [r])%list /\ good i r /\ conv r = true /\
            root_of r root /\ (forall p, tie s p -> link p r).

Lemma recorded_snoc (h : list (row R)) (r : row R) :
  (forall k r, nth_error h k = Some r -> good (Z.of_nat k + 1)%Z r) ->
  good (Z.of_nat (List.length h) + 1)%Z r ->
  forall k r', nth_error (h ++ [r]) k = Some r' -> good (Z.of_nat k + 1)%Z r'.
Proof.
  intros Hh Hr k r' Hn. apply nth_error_snoc in Hn.
  destruct Hn as [Hn | [-> ->]]; auto.
Qed.

Lemma chained_snoc (h : list (row R)) (r : row R) :
  (forall k p r, nth_error h k = Some p -> nth_error h (S k) = Some r ->
                 link p r) ->
  (forall p, last_item h = Ok p -> link p r) ->
  forall k p r', nth_error (h ++ [r]) k = Some p ->
                 nth_error (h ++ [r]) (S k) = Some r' -> link p r'.
Proof.
  intros Hh Hr k p r' H1 H2. apply nth_error_snoc in H2.
  destruct H2 as [H2 | [Hk ->]].
  - assert (Hlt : (S k < List.length h)%nat)
      by (apply nth_error_Some; congruence).
    rewrite nth_error_app1 in H1 by lia. now apply (Hh k).
  - rewrite nth_error_app1 in H1 by lia.
    apply Hr. now apply (last_item_nth h k).
Qed.

Lemma trace_of_loop (n : nat) (s0 : St) :
  hist s0 = [] ->
  match for_range body 1 n s0 with
  | Ok (Next s') =>
      List.length (hist s') = n /\
      (forall k r, nth_error (hist s') k = Some r ->
                   good (Z.of_nat k + 1)%Z r) /\
      (forall k p r, nth_error (hist s') k = Some p ->
                     nth_error (hist s') (S k) = Some r -> link p r) /\
      Forall (fun r => conv r = false) (hist s') /\
      (forall p, last_item (hist s') = Ok p -> tie s' p)
  | Ok (Break (Success root h)) =>
      (1 <= List.length h <= n)%nat /\
      (forall k r, nth_error h k = Some r -> good (Z.of_nat k + 1)%Z r) /\
      (forall k p r, nth_error h k = Some p ->
                     nth_error h (S k) = Some r -> link p r) /\
      (forall k r, nth_error h k = Some r -> (S k < List.length h)%nat ->
                   conv r = false) /\
      exists r, last_item h = Ok r /\ conv r = true /\ root_of r root
  | _ => True
  end.
Proof.
  intros H0.
  pose (Inv := fun (i : Z) (s : St) =>
    (1 <= i)%Z /\ Z.of_nat (List.length (hist s)) = (i - 1)%Z /\
    (forall k r, nth_error (hist s) k = Some r -> good (Z.of_nat k + 1)%Z r) /\
    (forall k p r, nth_error (hist s) k = Some p ->
                   nth_error (hist s) (S k) = Some r -> link p r) /\
    Forall (fun r => conv r = false) (hist s) /\
    (forall p, last_item (hist s) = Ok p -> tie s p)).
  pose (Post := fun (j : Z) (o : outcome R) =>
    match o with
    | Success root h =>
        Z.of_nat (List.length h) = j /\
        (forall k r, nth_error h k = Some r -> good (Z.of_nat k + 1)%Z r) /\
        (forall k p r, nth_error h k = Some p ->
                       nth_error h (S k) = Some r -> link p r) /\
        (forall k r, nth_error h k = Some r -> (S k < List.length h)%nat ->
                     conv r = false) /\
        exists r, last_item h = Ok r /\ conv r = true /\ root_of r root
    | Failure _ => True
    end).
  assert (Hstep : forall i s, Inv i s ->
    match body i s with
    | Ok (Next s1) => Inv (i + 1)%Z s1
    | Ok (Break o) => Post i o
    | Raise _ => True
    end).
  { intros i s (Hi & Hlen & Hgood & Hlink & Hall & Htie).
    assert (Ei : i = (Z.of_nat (List.length (hist s)) + 1)%Z) by lia.
    destruct (body i s) as [[[msg | root h] | s1] | e] eqn:Eb; cbn; auto.
    - destruct (step_break i s root h Eb) as (r & -> & Hg & Hc & Hr & Hl).
      split; [rewrite length_app; cbn; lia | ].
      split; [apply recorded_snoc; [assumption | now rewrite <- Ei] | ].
      split; [apply chained_snoc; auto | ].
      split.
      + intros k r' Hn Hk. rewrite length_app in Hk. cbn in Hk.
        rewrite nth_error_app1 in Hn by lia.
        rewrite Forall_forall in Hall. apply Hall.
        now apply nth_error_In with k.
      + exists r. now rewrite last_item_snoc.
    - destruct (step_next i s s1 Eb) as (r & Hh & Hg & Hc & Ht & Hl).
      unfold Inv. rewrite Hh.
      split; [lia | ]. split; [rewrite length_app; cbn; lia | ].
      split; [apply recorded_snoc; [assumption | now rewrite <- Ei] | ].
      split; [apply chained_snoc; auto | ].
      split; [apply Forall_app; split; auto | ].
      intros p Hp. rewrite last_item_snoc in Hp. now injection Hp as <-. }
  assert (Hinit : Inv 1%Z s0).
  { unfold Inv. rewrite H0. cbn. split; [lia | ]. split; [reflexivity | ].
    split; [now intros [ | k] | ]. split; [now intros [ | k] | ].
    split; [constructor | discriminate]. }
  pose proof (for_range_inv_at body Inv Post Hstep n 1%Z s0 Hinit) as L.
  destruct (for_range body 1 n s0) as [[[msg | root h] | s1] | e]; auto.
  - destruct L as (j & Hj & Hlen & Hrest). split; [lia | exact Hrest].
  - destruct L as (_ & Hlen & Hrest). split; [lia | exact Hrest].
Qed.
End TraceOfLoop.

(** ** One pass of each loop body, in full *)

Section Passes.
Context {R : Type} `{NumberLaws R}.
Local Open Scope num_scope.

Lemma bisection_pass_next (f : CLI.fn) (tol : R) (i : Z)
    (s s' : R * R * list (row R)) :
  CLI.bisection_body f tol i s = Ok (Next s') ->
  exists r,
    snd s' = (snd s ++ [r])%list /\ bisection_record f i r /\
    bisection_converged tol r = false /\
    bracket_after f "mid" r (fst (fst s')) (snd (fst s')) /\
    (forall p, bracket_after f "mid" p (fst (fst s)) (snd (fst s)) ->
               bracket_link f "mid" p r).
Proof.
  destruct s as [[a b] h], s' as [[a' b'] h']. intros Hb.
  apply bisection_body_next in Hb.
  destruct Hb as (c & fc & fa & -> & Hc & Ha & Ht & -> & Hab).
  eexists. split; [reflexivity | ].
  split; [exists a, b, fc; now repeat split | ].
  split; [exact Ht | ]. split.
  - exists a, b, (div (a + b) two), fa, fc. now repeat split.
  - intros p Hp. exists a, b. now repeat split.
Qed.

Lemma bisection_pass_break (f : CLI.fn) (tol : R) (i : Z)
    (s : R * R * list (row R)) (root : R) (h : list (row R)) :
  CLI.bisection_body f tol i s = Ok (Break (Success root h)) ->
  exists r,
    h = (snd s ++ [r])%list /\ bisection_record f i r /\
    bisection_converged tol r = true /\ root_under "mid" r root /\
    (forall p, bracket_after f "mid" p (fst (fst s)) (snd (fst s)) ->
               bracket_link f "mid" p r).
Proof.
  destruct s as [[a b] h0]. unfold CLI.bisection_body.
  rewrite pydiv_two. cbn [bind]. intros Hb.
  destruct (f (div (a + b) two)) as [fc | ] eqn:Ec; cbn [bind] in Hb;
    [ | discriminate Hb].
  destruct ((abs fc <? tol) || (abs (b - a) <? tol)) eqn:Et.
  - injection Hb as <- <-. eexists. split; [reflexivity | ].
    split; [exists a, b, fc; now repeat split | ].
    split; [exact Et | ]. split; [reflexivity | ].
    intros p Hp. exists a, b. now repeat split.
  - destruct (f a) as [fa | ]; cbn [bind] in Hb; [ | discriminate Hb].
    destruct (fa * fc <? zero); discriminate Hb.
Qed.

Lemma regula_falsi_pass_next (f : CLI.fn) (tol : R) (i : Z)
    (s s' : R * R * option R * list (row R)) :
  CLI.regula_falsi_body f tol i s = Ok (Next s') ->
  exists r,
    snd s' = (snd s ++ [r])%list /\ regula_falsi_record f i r /\
    converged tol r = false /\
    (bracket_after f "c" r (fst (fst (fst s'))) (snd (fst (fst s'))) /\
     exists c, snd (fst s') = Some c /\ num_of "c" r = Some c) /\
    (forall p,
       bracket_after f "c" p (fst (fst (fst s))) (snd (fst (fst s))) /\
       (exists c, snd (fst s) = Some c /\ num_of "c" p = Some c) ->
       bracket_link f "c" p r).
Proof.
  destruct s as [[[a b] c0] h], s' as [[[a' b'] c0'] h']. intros Hb.
  apply regula_falsi_body_next in Hb.
  destruct Hb as (fa & fb & c & fc & Ha & Hfb & Ez & -> & Hc & Ht & -> & ->
                  & Hab).
  eexists. split; [reflexivity | ].
  split; [exists a, b, fa, fb, fc; now repeat split | ].
  split; [exact Ht | ]. split.
  - split.
    + exists a, b, (div (a * fb - b * fa) (fb - fa)), fa, fc.
      now repeat split.
    + now eexists.
  - intros p [Hp _]. exists a, b. now repeat split.
Qed.

Lemma regula_falsi_pass_break (f : CLI.fn) (tol : R) (i : Z)
    (s : R * R * option R * list (row R)) (root : R) (h : list (row R)) :
  CLI.regula_falsi_body f tol i s = Ok (Break (Success root h)) ->
  exists r,
    h = (snd s ++ [r])%list /\ regula_falsi_record f i r /\
    converged tol r = true /\ root_under "c" r root /\
    (forall p,
       bracket_after f "c" p (fst (fst (fst s))) (snd (fst (fst s))) /\
       (exists c, snd (fst s) = Some c /\ num_of "c" p = Some c) ->
       bracket_link f "c" p r).
Proof.
  destruct s as [[[a b] c0] h0]. unfold CLI.regula_falsi_body. intros Hb.
  destruct (f a) as [fa | ] eqn:Ea; cbn [bind] in Hb; [ | discriminate Hb].
  destruct (f b) as [fb | ] eqn:Eb; cbn [bind] in Hb; [ | discriminate Hb].
  destruct (fb - fa ==? zero) eqn:Ez; [discriminate Hb | ].
  rewrite (pydiv_guarded _ _ Ez) in Hb. cbn [bind] in Hb.
  destruct (f (div (a * fb - b * fa) (fb - fa))) as [fc | ] eqn:Ec;
    cbn [bind] in Hb; [ | discriminate Hb].
  destruct (abs fc <? tol) eqn:Et.
  - injection Hb as <- <-. eexists. split; [reflexivity | ].
    split; [exists a, b, fa, fb, fc; now repeat split | ].
    split; [exact Et | ]. split; [reflexivity | ].
    intros p [Hp _]. exists a, b. now repeat split.
  - destruct (fa * fc <? zero); discriminate Hb.
Qed.
End Passes.

Section OpenPasses.
Context {R : Type} `{NumberLaws R}.
Local Open Scope num_scope.

Lemma secant_pass (f : CLI.fn) (tol : R) (i : Z)
    (s : R * R * list (row R)) :
  (forall s',
     CLI.secant_body f tol i s = Ok (Next s') ->
     exists r,
       snd s' = (snd s ++ [r])%list /\ secant_record f i r /\
       converged tol r = false /\
       (num_of "x_curr" r = Some (fst (fst s')) /\
        num_of "x_new" r = Some (snd (fst s'))) /\
       (forall p,
          num_of "x_curr" p = Some (fst (fst s)) /\
          num_of "x_new" p = Some (snd (fst s)) -> secant_link p r))
  /\
  (forall root h,
     CLI.secant_body f tol i s = Ok (Break (Success root h)) ->
     exists r,
       h = (snd s ++ [r])%list /\ secant_record f i r /\
       converged tol r = true /\ root_under "x_new" r root /\
       (forall p,
          num_of "x_curr" p = Some (fst (fst s)) /\
          num_of "x_new" p = Some (snd (fst s)) -> secant_link p r)).
Proof.
  destruct s as [[x0 x1] h0]. unfold CLI.secant_body.
  split; [intros s' Hb | intros root h Hb].
  all: destruct (f x0) as [fx0 | ] eqn:E0; cbn [bind] in Hb;
    [ | discriminate Hb].
  all: destruct (f x1) as [fx1 | ] eqn:E1; cbn [bind] in Hb;
    [ | discriminate Hb].
  all: destruct (fx1 - fx0 ==? zero) eqn:Ez; [discriminate Hb | ].
  all: rewrite (pydiv_guarded _ _ Ez) in Hb; cbn [bind] in Hb.
  all: destruct (_ <? tol) eqn:Et in Hb; try discriminate Hb.
  - injection Hb as <-. eexists. split; [reflexivity | ].
    split; [exists x0, x1, fx0, fx1; now repeat split | ].
    split; [exact Et | ]. split; [now split | ].
    intros p [Hp1 Hp2]. now exists x0, x1.
  - injection Hb as <- <-. eexists. split; [reflexivity | ].
    split; [exists x0, x1, fx0, fx1; now repeat split | ].
    split; [exact Et | ]. split; [reflexivity | ].
    intros p [Hp1 Hp2]. now exists x0, x1.
Qed.

Lemma newton_raphson_pass (f df : CLI.fn) (tol : R) (i : Z)
    (s : R * list (row R)) :
  (forall s',
     CLI.newton_raphson_body f df tol i s = Ok (Next s') ->
     exists r,
       snd s' = (snd s ++ [r])%list /\ newton_raphson_record f df i r /\
       converged tol r = false /\
       num_of "x_next" r = Some (fst s') /\
       (forall p, num_of "x_next" p = Some (fst s) ->
                  estimate_link "x_next" p r))
  /\
  (forall root h,
     CLI.newton_raphson_body f df tol i s = Ok (Break (Success root h)) ->
     exists r,
       h = (snd s ++ [r])%list /\ newton_raphson_record f df i r /\
       converged tol r = true /\ root_under "x_next" r root /\
       (forall p, num_of "x_next" p = Some (fst s) ->
                  estimate_link "x_next" p r)).
Proof.
  destruct s as [x h0]. unfold CLI.newton_raphson_body.
  split; [intros s' Hb | intros root h Hb].
  all: destruct (f x) as [fx | ] eqn:E0; cbn [bind] in Hb;
    [ | discriminate Hb].
  all: destruct (df x) as [dfx | ] eqn:E1; cbn [bind] in Hb;
    [ | discriminate Hb].
  all: destruct (dfx ==? zero) eqn:Ez; [discriminate Hb | ].
  all: rewrite (pydiv_guarded _ _ Ez) in Hb; cbn [bind] in Hb.
  all: destruct (_ <? tol) eqn:Et in Hb; try discriminate Hb.
  - injection Hb as <-. eexists. split; [reflexivity | ].
    split; [exists x, fx, dfx; now repeat split | ].
    split; [exact Et | ]. split; [reflexivity | ].
    intros p Hp. now exists x.
  - injection Hb as <- <-. eexists. split; [reflexivity | ].
    split; [exists x, fx, dfx; now repeat split | ].
    split; [exact Et | ]. split; [reflexivity | ].
    intros p Hp. now exists x.
Qed.

Lemma fixed_point_pass (g : CLI.fn) (tol : R) (i : Z)
    (s : R * list (row R)) :
  (forall s',
     CLI.fixed_point_body g tol i s = Ok (Next s') ->
     exists r,
       snd s' = (snd s ++ [r])%list /\ fixed_point_record g i r /\
       converged tol r = false /\
       num_of "g_x" r = Some (fst s') /\
       (forall p, num_of "g_x" p = Some (fst s) -> estimate_link "g_x" p r))
  /\
  (forall root h,
     CLI.fixed_point_body g tol i s = Ok (Break (Success root h)) ->
     exists r,
       h = (snd s ++ [r])%list /\ fixed_point_record g i r /\
       converged tol r = true /\ root_under "g_x" r root /\
       (forall p, num_of "g_x" p = Some (fst s) -> estimate_link "g_x" p r)).
Proof.
  destruct s as [x h0]. unfold CLI.fixed_point_body.
  split; [intros s' Hb | intros root h Hb].
  all: destruct (g x) as [gx | ] eqn:E0; cbn [bind] in Hb;
    [ | discriminate Hb].
  all: destruct (_ <? tol) eqn:Et in Hb.
  - discriminate Hb.
  - destruct (ten_pow_10 <? _) in Hb; [discriminate Hb | ].
    injection Hb as <-. eexists. split; [reflexivity | ].
    split; [exists x, gx; now repeat split | ].
    split; [exact Et | ]. split; [reflexivity | ].
    intros p Hp. now exists x.
  - injection Hb as <- <-. eexists. split; [reflexivity | ].
    split; [exists x, gx; now repeat split | ].
    split; [exact Et | ]. split; [reflexivity | ].
    intros p Hp. now exists x.
  - destruct (ten_pow_10 <? _) in Hb; discriminate Hb.
Qed.

Lemma modified_secant_pass (f : CLI.fn) (delta tol : R) (i : Z)
    (s : R * list (row R)) :
  (forall s',
     CLI.modified_secant_body f delta tol i s = Ok (Next s') ->
     exists r,
       snd s' = (snd s ++ [r])%list /\ modified_secant_record f delta i r /\
       converged tol r = false /\
       num_of "x_next" r = Some (fst s') /\
       (forall p, num_of "x_next" p = Some (fst s) ->
                  estimate_link "x_next" p r))
  /\
  (forall root h,
     CLI.modified_secant_body f delta tol i s
       = Ok (Break (Success root h)) ->
     exists r,
       h = (snd s ++ [r])%list /\ modified_secant_record f delta i r /\
       converged tol r = true /\ root_under "x_next" r root /\
       (forall p, num_of "x_next" p = Some (fst s) ->
                  estimate_link "x_next" p r)).
Proof.
  destruct s as [x h0]. unfold CLI.modified_secant_body.
  split; [intros s' Hb | intros root h Hb].
  all: destruct (f x) as [fx | ] eqn:E0; cbn [bind] in Hb;
    [ | discriminate Hb].
  all: destruct (f (x + delta)) as [fxd | ] eqn:E1; cbn [bind] in Hb;
    [ | discriminate Hb].
  all: destruct (fxd - fx ==? zero) eqn:Ez; [discriminate Hb | ].
  all: rewrite (pydiv_guarded _ _ Ez) in Hb; cbn [bind] in Hb.
  all: destruct (_ <? tol) eqn:Et in Hb; try discriminate Hb.
  - injection Hb as <-. eexists. split; [reflexivity | ].
    split; [exists x, fx, fxd; now repeat split | ].
    split; [exact Et | ]. split; [reflexivity | ].
    intros p Hp. now exists x.
  - injection Hb as <- <-. eexists. split; [reflexivity | ].
    split; [exists x, fx, fxd; now repeat split | ].
    split; [exact Et | ]. split; [reflexivity | ].
    intros p Hp. now exists x.
Qed.
End OpenPasses.

(** ** The trace of each method *)

Section Traced.
Context {R : Type} `{NumberLaws R}.
Variables f df : R -> py R.
Variables a b x0 x1 delta tol : R.
Variable max_iter : Z.

Lemma bisection_traced :
  traced (bisection_converged tol) (bisection_record f)
    (bracket_link f "mid") (bisection_final f) max_iter
    (CLI.bisection f a b tol max_iter).
Proof.
  intros root h Ho. unfold CLI.bisection in Ho.
  destruct (f a) as [fa | ]; cbn [bind] in Ho; [ | discriminate Ho].
  destruct (f b) as [fb | ]; cbn [bind] in Ho; [ | discriminate Ho].
  destruct (leb zero (mul fa fb)); [discriminate Ho | ].
  pose proof (trace_of_loop (CLI.bisection_body f tol) snd
    (bisection_converged tol) (bisection_record f) (bracket_link f "mid")
    (fun s p => bracket_after f "mid" p (fst (fst s)) (snd (fst s)))
    (root_under "mid")
    (bisection_pass_next f tol) (bisection_pass_break f tol)
    (Z.to_nat max_iter) (a, b, []) eq_refl) as L.
  destruct (for_range _ _ _ _) as [[o | [[a' b'] h']] | e];
    cbn [bind] in Ho; try discriminate Ho.
  - injection Ho as ->. destruct L as (Hlen & Hg & Hl & Hs & r & Hr & _ & Hroot).
    split; [lia | ]. split; [intros _ ->; cbn in Hlen; lia | ].
    split; [exact Hg | ]. split; [exact Hl | ]. split; [exact Hs | ].
    intros p Hp. rewrite Hr in Hp. injection Hp as <-. now left.
  - rewrite pydiv_two in Ho. cbn [bind] in Ho. injection Ho as <- <-.
    cbn [snd fst] in L. destruct L as (Hlen & Hg & Hl & Hall & Htie).
    split; [lia | ]. split; [intros Hm ->; cbn in Hlen; lia | ].
    split; [exact Hg | ]. split; [exact Hl | ]. split.
    + intros k r Hn _. rewrite Forall_forall in Hall. apply Hall.
      now apply nth_error_In with k.
    + intros p Hp. right. exists a', b'. split; [now apply Htie | reflexivity].
Qed.

Lemma regula_falsi_traced :
  traced (converged tol) (regula_falsi_record f) (bracket_link f "c")
    (root_under "c") max_iter (CLI.regula_falsi f a b tol max_iter).
Proof.
  intros root h Ho. unfold CLI.regula_falsi in Ho.
  destruct (f a) as [fa | ]; cbn [bind] in Ho; [ | discriminate Ho].
  destruct (f b) as [fb | ]; cbn [bind] in Ho; [ | discriminate Ho].
  destruct (leb zero (mul fa fb)); [discriminate Ho | ].
  pose proof (trace_of_loop (CLI.regula_falsi_body f tol) snd
    (converged tol) (regula_falsi_record f) (bracket_link f "c")
    (fun s p =>
       bracket_after f "c" p (fst (fst (fst s))) (snd (fst (fst s))) /\
       exists c, snd (fst s) = Some c /\ num_of "c" p = Some c)
    (root_under "c")
    (regula_falsi_pass_next f tol) (regula_falsi_pass_break f tol)
    (Z.to_nat max_iter) (a, b, None, []) eq_refl) as L.
  destruct (for_range _ _ _ _) as [[o | [[[a' b'] [c | ]] h']] | e];
    cbn [bind] in Ho; try discriminate Ho.
  - injection Ho as ->. destruct L as (Hlen & Hg & Hl & Hs & r & Hr & _ & Hroot).
    split; [lia | ]. split; [intros _ ->; cbn in Hlen; lia | ].
    split; [exact Hg | ]. split; [exact Hl | ]. split; [exact Hs | ].
    intros p Hp. rewrite Hr in Hp. now injection Hp as <-.
  - injection Ho as <- <-.
    cbn [snd fst] in L. destruct L as (Hlen & Hg & Hl & Hall & Htie).
    split; [lia | ]. split; [intros Hm ->; cbn in Hlen; lia | ].
    split; [exact Hg | ]. split; [exact Hl | ]. split.
    + intros k r Hn _. rewrite Forall_forall in Hall. apply Hall.
      now apply nth_error_In with k.
    + intros p Hp. destruct (Htie p Hp) as (_ & c' & [= <-] & Hc). exact Hc.
Qed.

Lemma secant_traced :
  traced (converged tol) (secant_record f) secant_link (root_under "x_new")
    max_iter (CLI.secant f x0 x1 tol max_iter).
Proof.
  intros root h Ho. unfold CLI.secant in Ho.
  pose proof (trace_of_loop (CLI.secant_body f tol) snd
    (converged tol) (secant_record f) secant_link
    (fun s p => num_of "x_curr" p = Some (fst (fst s)) /\
                num_of "x_new" p = Some (snd (fst s)))
    (root_under "x_new")
    (fun i s => proj1 (secant_pass f tol i s))
    (fun i s => proj2 (secant_pass f tol i s))
    (Z.to_nat max_iter) (x0, x1, []) eq_refl) as L.
  destruct (for_range _ _ _ _) as [[o | [[x0' x1'] h']] | e];
    cbn [bind] in Ho; try discriminate Ho.
  - injection Ho as ->. destruct L as (Hlen & Hg & Hl & Hs & r & Hr & _ & Hroot).
    split; [lia | ]. split; [intros _ ->; cbn in Hlen; lia | ].
    split; [exact Hg | ]. split; [exact Hl | ]. split; [exact Hs | ].
    intros p Hp. rewrite Hr in Hp. now injection Hp as <-.
  - injection Ho as <- <-.
    cbn [snd fst] in L. destruct L as (Hlen & Hg & Hl & Hall & Htie).
    split; [lia | ]. split; [intros Hm ->; cbn in Hlen; lia | ].
    split; [exact Hg | ]. split; [exact Hl | ]. split.
    + intros k r Hn _. rewrite Forall_forall in Hall. apply Hall.
      now apply nth_error_In with k.
    + intros p Hp. now apply Htie.
Qed.

Lemma newton_raphson_traced :
  traced (converged tol) (newton_raphson_record f df)
    (estimate_link "x_next") (root_under "x_next") max_iter
    (CLI.newton_raphson f df x0 tol max_iter).
Proof.
  intros root h Ho. unfold CLI.newton_raphson in Ho.
  pose proof (trace_of_loop (CLI.newton_raphson_body f df tol) snd
    (converged tol) (newton_raphson_record f df) (estimate_link "x_next")
    (fun s p => num_of "x_next" p = Some (fst s))
    (root_under "x_next")
    (fun i s => proj1 (newton_raphson_pass f df tol i s))
    (fun i s => proj2 (newton_raphson_pass f df tol i s))
    (Z.to_nat max_iter) (x0, []) eq_refl) as L.
  destruct (for_range _ _ _ _) as [[o | [x h']] | e];
    cbn [bind] in Ho; try discriminate Ho.
  - injection Ho as ->. destruct L as (Hlen & Hg & Hl & Hs & r & Hr & _ & Hroot).
    split; [lia | ]. split; [intros _ ->; cbn in Hlen; lia | ].
    split; [exact Hg | ]. split; [exact Hl | ]. split; [exact Hs | ].
    intros p Hp. rewrite Hr in Hp. now injection Hp as <-.
  - injection Ho as <- <-.
    cbn [snd fst] in L. destruct L as (Hlen & Hg & Hl & Hall & Htie).
    split; [lia | ]. split; [intros Hm ->; cbn in Hlen; lia | ].
    split; [exact Hg | ]. split; [exact Hl | ]. split.
    + intros k r Hn _. rewrite Forall_forall in Hall. apply Hall.
      now apply nth_error_In with k.
    + intros p Hp. now apply Htie.
Qed.

Lemma fixed_point_traced :
  traced (converged tol) (fixed_point_record f) (estimate_link "g_x")
    (root_under "g_x") max_iter (CLI.fixed_point f x0 tol max_iter).
Proof.
  intros root h Ho. unfold CLI.fixed_point in Ho.
  pose proof (trace_of_loop (CLI.fixed_point_body f tol) snd
    (converged tol) (fixed_point_record f) (estimate_link "g_x")
    (fun s p => num_of "g_x" p = Some (fst s))
    (root_under "g_x")
    (fun i s => proj1 (fixed_point_pass f tol i s))
    (fun i s => proj2 (fixed_point_pass f tol i s))
    (Z.to_nat max_iter) (x0, []) eq_refl) as L.
  destruct (for_range _ _ _ _) as [[o | [x h']] | e];
    cbn [bind] in Ho; try discriminate Ho.
  - injection Ho as ->. destruct L as (Hlen & Hg & Hl & Hs & r & Hr & _ & Hroot).
    split; [lia | ]. split; [intros _ ->; cbn in Hlen; lia | ].
    split; [exact Hg | ]. split; [exact Hl | ]. split; [exact Hs | ].
    intros p Hp. rewrite Hr in Hp. now injection Hp as <-.
  - injection Ho as <- <-.
    cbn [snd fst] in L. destruct L as (Hlen & Hg & Hl & Hall & Htie).
    split; [lia | ]. split; [intros Hm ->; cbn in Hlen; lia | ].
    split; [exact Hg | ]. split; [exact Hl | ]. split.
    + intros k r Hn _. rewrite Forall_forall in Hall. apply Hall.
      now apply nth_error_In with k.
    + intros p Hp. now apply Htie.
Qed.

Lemma modified_secant_traced :
  traced (converged tol) (modified_secant_record f delta)
    (estimate_link "x_next") (root_under "x_next") max_iter
    (CLI.modified_secant f x0 delta tol max_iter).
Proof.
  intros root h Ho. unfold CLI.modified_secant in Ho.
  pose proof (trace_of_loop (CLI.modified_secant_body f delta tol) snd
    (converged tol) (modified_secant_record f delta)
    (estimate_link "x_next")
    (fun s p => num_of "x_next" p = Some (fst s))
    (root_under "x_next")
    (fun i s => proj1 (modified_secant_pass f delta tol i s))
    (fun i s => proj2 (modified_secant_pass f delta tol i s))
    (Z.to_nat max_iter) (x0, []) eq_refl) as L.
  destruct (for_range _ _ _ _) as [[o | [x h']] | e];
    cbn [bind] in Ho; try discriminate Ho.
  - injection Ho as ->. destruct L as (Hlen & Hg & Hl & Hs & r & Hr & _ & Hroot).
    split; [lia | ]. split; [intros _ ->; cbn in Hlen; lia | ].
    split; [exact Hg | ]. split; [exact Hl | ]. split; [exact Hs | ].
    intros p Hp. rewrite Hr in Hp. now injection Hp as <-.
  - injection Ho as <- <-.
    cbn [snd fst] in L. destruct L as (Hlen & Hg & Hl & Hall & Htie).
    split; [lia | ]. split; [intros Hm ->; cbn in Hlen; lia | ].
    split; [exact Hg | ]. split; [exact Hl | ]. split.
    + intros k r Hn _. rewrite Forall_forall in Hall. apply Hall.
      now apply nth_error_In with k.
    + intros p Hp. now apply Htie.
Qed.
End Traced.

(** ** What every trace satisfies *)

(** X1. The trace of a success has at most [max_iter] records, at least
    one when [max_iter >= 1], and the record at position [k] carries the
    iteration index [k + 1]. *)
Theorem trace_length_and_indexes {R : Type} `{NumberLaws R}
    (f df : R -> py R) (a b x0 x1 delta tol : R) (max_iter : Z) :
  let shape := fun (_ : R) (h : list (row R)) =>
    (Z.of_nat (List.length h) <= Z.max 0 max_iter)%Z /\
    ((1 <= max_iter)%Z -> h <> []) /\ indexed h in
  for_success (CLI.bisection f a b tol max_iter) shape /\
  for_success (CLI.regula_falsi f a b tol max_iter) shape /\
  for_success (CLI.secant f x0 x1 tol max_iter) shape /\
  for_success (CLI.newton_raphson f df x0 tol max_iter) shape /\
  for_success (CLI.fixed_point f x0 tol max_iter) shape /\
  for_success (CLI.modified_secant f x0 delta tol max_iter) shape.
Proof.
  intros shape. repeat apply conj; intros root h Ho.
  - destruct (bisection_traced f a b tol max_iter root h Ho)
      as (Hlen & Hne & Hg & _).
    split; [exact Hlen | split; [exact Hne | ]].
    intros k r Hn. now destruct (Hg k r Hn) as (? & ? & ? & Hi & _).
  - destruct (regula_falsi_traced f a b tol max_iter root h Ho)
      as (Hlen & Hne & Hg & _).
    split; [exact Hlen | split; [exact Hne | ]].
    intros k r Hn. now destruct (Hg k r Hn) as (? & ? & ? & ? & ? & Hi & _).
  - destruct (secant_traced f x0 x1 tol max_iter root h Ho)
      as (Hlen & Hne & Hg & _).
    split; [exact Hlen | split; [exact Hne | ]].
    intros k r Hn. now destruct (Hg k r Hn) as (? & ? & ? & ? & Hi & _).
  - destruct (newton_raphson_traced f df x0 tol max_iter root h Ho)
      as (Hlen & Hne & Hg & _).
    split; [exact Hlen | split; [exact Hne | ]].
    intros k r Hn. now destruct (Hg k r Hn) as (? & ? & ? & Hi & _).
  - destruct (fixed_point_traced f x0 tol max_iter root h Ho)
      as (Hlen & Hne & Hg & _).
    split; [exact Hlen | split; [exact Hne | ]].
    intros k r Hn. now destruct (Hg k r Hn) as (? & ? & Hi & _).
  - destruct (modified_secant_traced f x0 delta tol max_iter root h Ho)
      as (Hlen & Hne & Hg & _).
    split; [exact Hlen | split; [exact Hne | ]].
    intros k r Hn. now destruct (Hg k r Hn) as (? & ? & ? & Hi & _).
Qed.

(** X2. Every method stops at the first iteration that meets its
    convergence test: in the trace of a success no record before the last
    meets it. *)
Theorem solvers_stop_at_first_convergence {R : Type} `{NumberLaws R}
    (f df : R -> py R) (a b x0 x1 delta tol : R) (max_iter : Z) :
  for_success (CLI.bisection f a b tol max_iter)
    (fun _ h => stops_at_first (bisection_converged tol) h) /\
  for_success (CLI.regula_falsi f a b tol max_iter)
    (fun _ h => stops_at_first (converged tol) h) /\
  for_success (CLI.secant f x0 x1 tol max_iter)
    (fun _ h => stops_at_first (converged tol) h) /\
  for_success (CLI.newton_raphson f df x0 tol max_iter)
    (fun _ h => stops_at_first (converged tol) h) /\
  for_success (CLI.fixed_point f x0 tol max_iter)
    (fun _ h => stops_at_first (converged tol) h) /\
  for_success (CLI.modified_secant f x0 delta tol max_iter)
    (fun _ h => stops_at_first (converged tol) h).
Proof.
  repeat apply conj; intros root h Ho.
  - now destruct (bisection_traced f a b tol max_iter root h Ho)
      as (_ & _ & _ & _ & Hs & _).
  - now destruct (regula_falsi_traced f a b tol max_iter root h Ho)
      as (_ & _ & _ & _ & Hs & _).
  - now destruct (secant_traced f x0 x1 tol max_iter root h Ho)
      as (_ & _ & _ & _ & Hs & _).
  - now destruct (newton_raphson_traced f df x0 tol max_iter root h Ho)
      as (_ & _ & _ & _ & Hs & _).
  - now destruct (fixed_point_traced f x0 tol max_iter root h Ho)
      as (_ & _ & _ & _ & Hs & _).
  - now destruct (modified_secant_traced f x0 delta tol max_iter root h Ho)
      as (_ & _ & _ & _ & Hs & _).
Qed.


(** X4. Every record of a success obeys the update formula of its method:
    its fields are the values of [f] (and [df]) at the points it names, the
    new point computed from them by the formula of the method with a
    non-zero denominator, and the error computed from these. *)
Theorem records_follow_the_update_formulas {R : Type} `{NumberLaws R}
    (f df : R -> py R) (a b x0 x1 delta tol : R) (max_iter : Z) :
  for_success (CLI.bisection f a b tol max_iter)
    (fun _ h => recorded (bisection_record f) h) /\
  for_success (CLI.regula_falsi f a b tol max_iter)
    (fun _ h => recorded (regula_falsi_record f) h) /\
  for_success (CLI.secant f x0 x1 tol max_iter)
    (fun _ h => recorded (secant_record f) h) /\
  for_success (CLI.newton_raphson f df x0 tol max_iter)
    (fun _ h => recorded (newton_raphson_record f df) h) /\
  for_success (CLI.fixed_point f x0 tol max_iter)
    (fun _ h => recorded (fixed_point_record f) h) /\
  for_success (CLI.modified_secant f x0 delta tol max_iter)
    (fun _ h => recorded (modified_secant_record f delta) h).
Proof.
  repeat apply conj; intros root h Ho.
  - now destruct (bisection_traced f a b tol max_iter root h Ho)
      as (_ & _ & Hg & _).
  - now destruct (regula_falsi_traced f a b tol max_iter root h Ho)
      as (_ & _ & Hg & _).
  - now destruct (secant_traced f x0 x1 tol max_iter root h Ho)
      as (_ & _ & Hg & _).
  - now destruct (newton_raphson_traced f df x0 tol max_iter root h Ho)
      as (_ & _ & Hg & _).
  - now destruct (fixed_point_traced f x0 tol max_iter root h Ho)
      as (_ & _ & Hg & _).
  - now destruct (modified_secant_traced f x0 delta tol max_iter root h Ho)
      as (_ & _ & Hg & _).
Qed.

(** X5. Consecutive records are chained.  In bisection and regula falsi the
    bracket of a record is the one that the tie-break rule makes of the
    record before; in secant the two guesses are those of the record before
    shifted by one; in Newton-Raphson, fixed point and modified secant the
    current point is the new point of the record before. *)
Theorem consecutive_records_are_chained {R : Type} `{NumberLaws R}
    (f df : R -> py R) (a b x0 x1 delta tol : R) (max_iter : Z) :
  for_success (CLI.bisection f a b tol max_iter)
    (fun _ h => chained (bracket_link f "mid") h) /\
  for_success (CLI.regula_falsi f a b tol max_iter)
    (fun _ h => chained (bracket_link f "c") h) /\
  for_success (CLI.secant f x0 x1 tol max_iter)
    (fun _ h => chained secant_link h) /\
  for_success (CLI.newton_raphson f df x0 tol max_iter)
    (fun _ h => chained (estimate_link "x_next") h) /\
  for_success (CLI.fixed_point f x0 tol max_iter)
    (fun _ h => chained (estimate_link "g_x") h) /\
  for_success (CLI.modified_secant f x0 delta tol max_iter)
    (fun _ h => chained (estimate_link "x_next") h).
Proof.
  repeat apply conj; intros root h Ho.
  - now destruct (bisection_traced f a b tol max_iter root h Ho)
      as (_ & _ & _ & Hl & _).
  - now destruct (regula_falsi_traced f a b tol max_iter root h Ho)
      as (_ & _ & _ & Hl & _).
  - now destruct (secant_traced f x0 x1 tol max_iter root h Ho)
      as (_ & _ & _ & Hl & _).
  - now destruct (newton_raphson_traced f df x0 tol max_iter root h Ho)
      as (_ & _ & _ & Hl & _).
  - now destruct (fixed_point_traced f x0 tol max_iter root h Ho)
      as (_ & _ & _ & Hl & _).
  - now destruct (modified_secant_traced f x0 delta tol max_iter root h Ho)
      as (_ & _ & _ & Hl & _).
Qed.

(** The five theorems at work on binary64, for [f(x) = x**2 - 2]. *)

Lemma trace_length_and_indexes_witness :
  let f : float -> py float := fun x => Ok (x * x - 2)%float in
  let shape := fun (_ : float) (h : list (row float)) =>
    (Z.of_nat (List.length h) <= Z.max 0 50)%Z /\
    ((1 <= 50)%Z -> h <> []) /\ indexed h in
  for_success (CLI.bisection f 0%float 2%float 1e-6%float 50) shape /\
  for_success (CLI.regula_falsi f 0%float 2%float 1e-6%float 50) shape /\
  for_success (CLI.secant f 1%float 2%float 1e-6%float 50) shape.
Proof.
  intros f shape.
  destruct (trace_length_and_indexes f (fun x => Ok (2 * x)%float) 0%float
              2%float 1%float 2%float 0.01%float 1e-6%float 50%Z)
    as (H1 & H2 & H3 & _).
  exact (conj H1 (conj H2 H3)).
Defined.

Lemma solvers_stop_at_first_convergence_witness :
  let f : float -> py float := fun x => Ok (x * x - 2)%float in
  let df : float -> py float := fun x => Ok (2 * x)%float in
  for_success (CLI.bisection f 0%float 2%float 1e-6%float 50)
    (fun _ h => stops_at_first (bisection_converged 1e-6%float) h) /\
  for_success (CLI.newton_raphson f df 1%float 1e-6%float 50)
    (fun _ h => stops_at_first (converged 1e-6%float) h).
Proof.
  intros f df.
  destruct (solvers_stop_at_first_convergence f df 0%float 2%float 1%float
              2%float 0.01%float 1e-6%float 50%Z)
    as (H1 & _ & _ & H4 & _).
  exact (conj H1 H4).
Defined.


Lemma records_follow_the_update_formulas_witness :
  let f : float -> py float := fun x => Ok (x * x - 2)%float in
  let df : float -> py float := fun x => Ok (2 * x)%float in
  for_success (CLI.regula_falsi f 0%float 2%float 1e-6%float 50)
    (fun _ h => recorded (regula_falsi_record f) h) /\
  for_success (CLI.newton_raphson f df 1%float 1e-6%float 50)
    (fun _ h => recorded (newton_raphson_record f df) h).
Proof.
  intros f df.
  destruct (records_follow_the_update_formulas f df 0%float 2%float 1%float
              2%float 0.01%float 1e-6%float 50%Z)
    as (_ & H2 & _ & H4 & _).
  exact (conj H2 H4).
Defined.

Lemma consecutive_records_are_chained_witness :
  let f : float -> py float := fun x => Ok (x * x - 2)%float in
  let df : float -> py float := fun x => Ok (2 * x)%float in
  for_success (CLI.bisection f 0%float 2%float 1e-6%float 50)
    (fun _ h => chained (bracket_link f "mid") h) /\
  for_success (CLI.secant f 1%float 2%float 1e-6%float 50)
    (fun _ h => chained secant_link h).
Proof.
  intros f df.
  destruct (consecutive_records_are_chained f df 0%float 2%float 1%float
              2%float 0.01%float 1e-6%float 50%Z)
    as (H1 & _ & H3 & _).
  exact (conj H1 H3).
Defined.

(** ** The failures of the methods *)

Section Failures.
Context {R : Type} `{Number R}.
Local Open Scope num_scope.

(** A failure of the loop is a failure of one of its passes. *)
Lemma for_range_failure {St : Type}
    (body : Z -> St -> py (ctl (outcome R) St)) (P : string -> Prop) :
  (forall i s msg, body i s = Ok (Break (Failure msg)) -> P msg) ->
  forall n i s msg,
    for_range body i n s = Ok (Break (Failure msg)) -> P msg.
Proof.
  intros Hbody n. induction n as [ | n IH]; intros i s msg Hr; cbn in Hr.
  - discriminate Hr.
  - destruct (body i s) as [[o | s'] | e] eqn:Eb.
    + injection Hr as ->. now apply (Hbody i s).
    + now apply (IH (i + 1)%Z s').
    + discriminate Hr.
Qed.

Lemma bisection_body_no_failure (f : CLI.fn) (tol : R) (i : Z)
    (s : R * R * list (row R)) (msg : string) :
  CLI.bisection_body f tol i s = Ok (Break (Failure msg)) -> False.
Proof.
  destruct s as [[a b] h]. unfold CLI.bisection_body. intros Hb.
  body_cases Hb.
Qed.
End Failures.

(** ** ZOF_CLI.py and app.py compute the same *)

Lemma for_range_sim {A1 A2 S1 S2 : Type}
    (body1 : Z -> S1 -> py (ctl A1 S1)) (body2 : Z -> S2 -> py (ctl A2 S2))
    (RS : Z -> S1 -> S2 -> Prop) (RA : Z -> A1 -> A2 -> Prop) :
  (forall i s1 s2, RS i s1 s2 ->
     match body1 i s1, body2 i s2 with
     | Ok (Next s1'), Ok (Next s2') => RS (i + 1)%Z s1' s2'
     | Ok (Break a1), Ok (Break a2) => RA i a1 a2
     | Raise e1, Raise e2 => e2 = e1
     | _, _ => False
     end) ->
  forall n i s1 s2, RS i s1 s2 ->
    match for_range body1 i n s1, for_range body2 i n s2 with
    | Ok (Next s1'), Ok (Next s2') => RS (i + Z.of_nat n)%Z s1' s2'
    | Ok (Break a1), Ok (Break a2) =>
        exists j, (i <= j < i + Z.of_nat n)%Z /\ RA j a1 a2
    | Raise e1, Raise e2 => e2 = e1
    | _, _ => False
    end.
Proof.
  intros Hstep n. induction n as [ | n IH]; intros i s1 s2 Hr.
  - cbn. now rewrite Z.add_0_r.
  - cbn [for_range]. specialize (Hstep i s1 s2 Hr).
    destruct (body1 i s1) as [[a1 | s1'] | e1];
      destruct (body2 i s2) as [[a2 | s2'] | e2]; try contradiction; auto.
    + exists i. split; [lia | assumption].
    + specialize (IH (i + 1)%Z s1' s2' Hstep).
      destruct (for_range body1 (i + 1) n s1') as [[a1 | s1''] | e1];
        destruct (for_range body2 (i + 1) n s2') as [[a2 | s2''] | e2];
        try contradiction; auto.
      * destruct IH as (j & Hj & Ha). exists j. split; [lia | assumption].
      * now replace (i + Z.of_nat (S n))%Z with (i + 1 + Z.of_nat n)%Z by lia.
Qed.

(** Walk through two loop bodies side by side. *)
Ltac sim_cases :=
  repeat match goal with
  | |- context [bind ?m _] => destruct m; cbn [bind]
  | |- context [if ?c then _ else _] => destruct c
  end.

Ltac sim_finish :=
  cbn;
  repeat match goal with
  | |- _ /\ _ => split
  | |- Forall2 _ (_ ++ _) (_ ++ _) =>
      apply Forall2_app; [assumption | constructor; [ | constructor]]
  | |- Z.of_nat (List.length (_ ++ _)) = _ => rewrite length_app; cbn; lia
  end;
  try reflexivity; try lia; try (do 6 eexists; split; reflexivity);
  try (do 5 eexists; split; reflexivity);
  try (do 4 eexists; split; reflexivity).

Section Simulation.
Context {R : Type} `{Number R}.
Variable format_num : string -> R -> string.
Variables f df : R -> py R.
Variables delta tol : R.

Lemma bisection_sim (i : Z) (s1 s2 : R * R * list (row R)) :
  fst s2 = fst s1 /\ Forall2 (bisection_rows format_num) (snd s1) (snd s2) /\
  Z.of_nat (List.length (snd s1)) = (i - 1)%Z ->
  match CLI.bisection_body f tol i s1,
        App.bisection_body format_num f tol i s2 with
  | Ok (Next s1'), Ok (Next s2') =>
      fst s2' = fst s1' /\
      Forall2 (bisection_rows format_num) (snd s1') (snd s2') /\
      Z.of_nat (List.length (snd s1')) = (i + 1 - 1)%Z
  | Ok (Break o), Ok (Break w) => agree_at (bisection_rows format_num) i o w
  | Raise e1, Raise e2 => e2 = e1
  | _, _ => False
  end.
Proof.
  destruct s1 as [[a b] h], s2 as [[a' b'] h']. cbn [fst snd].
  intros ([= -> ->] & HF & Hlen).
  unfold CLI.bisection_body, App.bisection_body. sim_cases; sim_finish.
Qed.

Lemma regula_falsi_sim (i : Z) (s1 s2 : R * R * option R * list (row R)) :
  fst s2 = fst s1 /\
  Forall2 (regula_falsi_rows format_num) (snd s1) (snd s2) /\
  Z.of_nat (List.length (snd s1)) = (i - 1)%Z ->
  match CLI.regula_falsi_body f tol i s1,
        App.regula_falsi_body format_num f tol i s2 with
  | Ok (Next s1'), Ok (Next s2') =>
      fst s2' = fst s1' /\
      Forall2 (regula_falsi_rows format_num) (snd s1') (snd s2') /\
      Z.of_nat (List.length (snd s1')) = (i + 1 - 1)%Z
  | Ok (Break o), Ok (Break w) =>
      agree_at (regula_falsi_rows format_num) i o w
  | Raise e1, Raise e2 => e2 = e1
  | _, _ => False
  end.
Proof.
  destruct s1 as [[[a b] c] h], s2 as [[[a' b'] c'] h']. cbn [fst snd].
  intros ([= -> -> ->] & HF & Hlen).
  unfold CLI.regula_falsi_body, App.regula_falsi_body. sim_cases; sim_finish.
Qed.

Lemma secant_sim (i : Z) (s1 s2 : R * R * list (row R)) :
  fst s2 = fst s1 /\ Forall2 (secant_rows format_num) (snd s1) (snd s2) /\
  Z.of_nat (List.length (snd s1)) = (i - 1)%Z ->
  match CLI.secant_body f tol i s1,
        App.secant_body format_num f tol i s2 with
  | Ok (Next s1'), Ok (Next s2') =>
      fst s2' = fst s1' /\
      Forall2 (secant_rows format_num) (snd s1') (snd s2') /\
      Z.of_nat (List.length (snd s1')) = (i + 1 - 1)%Z
  | Ok (Break o), Ok (Break w) => agree_at (secant_rows format_num) i o w
  | Raise e1, Raise e2 => e2 = e1
  | _, _ => False
  end.
Proof.
  destruct s1 as [[x0 x1] h], s2 as [[x0' x1'] h']. cbn [fst snd].
  intros ([= -> ->] & HF & Hlen).
  unfold CLI.secant_body, App.secant_body. sim_cases; sim_finish.
Qed.

Lemma newton_raphson_sim (i : Z) (s1 s2 : R * list (row R)) :
  fst s2 = fst s1 /\
  Forall2 (newton_raphson_rows format_num) (snd s1) (snd s2) /\
  Z.of_nat (List.length (snd s1)) = (i - 1)%Z ->
  match CLI.newton_raphson_body f df tol i s1,
        App.newton_body format_num f df tol i s2 with
  | Ok (Next s1'), Ok (Next s2') =>
      fst s2' = fst s1' /\
      Forall2 (newton_raphson_rows format_num) (snd s1') (snd s2') /\
      Z.of_nat (List.length (snd s1')) = (i + 1 - 1)%Z
  | Ok (Break o), Ok (Break w) =>
      agree_at (newton_raphson_rows format_num) i o w
  | Raise e1, Raise e2 => e2 = e1
  | _, _ => False
  end.
Proof.
  destruct s1 as [x h], s2 as [x' h']. cbn [fst snd].
  intros (-> & HF & Hlen).
  unfold CLI.newton_raphson_body, App.newton_body. sim_cases; sim_finish.
Qed.

Lemma fixed_point_sim (i : Z) (s1 s2 : R * list (row R)) :
  fst s2 = fst s1 /\
  Forall2 (fixed_point_rows format_num) (snd s1) (snd s2) /\
  Z.of_nat (List.length (snd s1)) = (i - 1)%Z ->
  match CLI.fixed_point_body f tol i s1,
        App.fixed_point_body format_num f tol i s2 with
  | Ok (Next s1'), Ok (Next s2') =>
      fst s2' = fst s1' /\
      Forall2 (fixed_point_rows format_num) (snd s1') (snd s2') /\
      Z.of_nat (List.length (snd s1')) = (i + 1 - 1)%Z
  | Ok (Break o), Ok (Break w) =>
      agree_at (fixed_point_rows format_num) i o w
  | Raise e1, Raise e2 => e2 = e1
  | _, _ => False
  end.
Proof.
  destruct s1 as [x h], s2 as [x' h']. cbn [fst snd].
  intros (-> & HF & Hlen).
  unfold CLI.fixed_point_body, App.fixed_point_body. sim_cases; sim_finish.
Qed.

Lemma modified_secant_sim (i : Z) (s1 s2 : R * list (row R)) :
  fst s2 = fst s1 /\
  Forall2 (modified_secant_rows format_num) (snd s1) (snd s2) /\
  Z.of_nat (List.length (snd s1)) = (i - 1)%Z ->
  match CLI.modified_secant_body f delta tol i s1,
        App.modified_secant_body format_num f delta tol i s2 with
  | Ok (Next s1'), Ok (Next s2') =>
      fst s2' = fst s1' /\
      Forall2 (modified_secant_rows format_num) (snd s1') (snd s2') /\
      Z.of_nat (List.length (snd s1')) = (i + 1 - 1)%Z
  | Ok (Break o), Ok (Break w) =>
      agree_at (modified_secant_rows format_num) i o w
  | Raise e1, Raise e2 => e2 = e1
  | _, _ => False
  end.
Proof.
  destruct s1 as [x h], s2 as [x' h']. cbn [fst snd].
  intros (-> & HF & Hlen).
  unfold CLI.modified_secant_body, App.modified_secant_body.
  sim_cases; sim_finish.
Qed.
End Simulation.

Section AgreementProof.
Context {R : Type} `{Number R}.
Variable format_num : string -> R -> string.
Variables f df : R -> py R.
Variables a b x0 x1 delta tol : R.
Variable max_iter : Z.

(** After the loop: the iterations that app.py reports. *)
Lemma exhausted_iters (h : list (row R)) :
  Z.of_nat (List.length h) = (1 + Z.of_nat (Z.to_nat max_iter) - 1)%Z ->
  max_iter = Z.of_nat (List.length h) \/ (max_iter = max_iter /\ h = []).
Proof.
  intros Hlen. destruct (Z.le_gt_cases 0 max_iter) as [Hm | Hm].
  - left. lia.
  - right. split; [reflexivity | ]. destruct h; [reflexivity | cbn [List.length] in Hlen; lia].
Qed.

Lemma bisection_agrees :
  agree (bisection_rows format_num) max_iter
    (CLI.bisection f a b tol max_iter)
    (App.run_bisection format_num f a b tol max_iter).
Proof.
  unfold CLI.bisection, App.run_bisection.
  destruct (f a) as [fa | ]; cbn [bind]; [ | reflexivity].
  destruct (f b) as [fb | ]; cbn [bind]; [ | reflexivity].
  destruct (leb zero (mul fa fb)); [exact I | ].
  pose proof (for_range_sim _ _ _ (agree_at (bisection_rows format_num))
                (bisection_sim format_num f tol) (Z.to_nat max_iter) 1%Z
                (a, b, []) (a, b, [])
                (conj eq_refl (conj (Forall2_nil _) eq_refl))) as L.
  destruct (for_range (CLI.bisection_body f tol) _ _ _)
    as [[[msg | root h] | [[a1 b1] h1]] | e1];
    destruct (for_range (App.bisection_body format_num f tol) _ _ _)
      as [[[msg' | root' h' iters] | [[a2 b2] h2]] | e2];
    cbn [bind]; try contradiction; try exact I; try exact L.
  - destruct L as (j & _ & L); contradiction.
  - destruct L as (j & _ & L); contradiction.
  - destruct L as (j & _ & -> & HF & -> & Hlen). cbn. auto.
  - cbn [fst snd] in L. destruct L as ([= -> ->] & HF & Hlen).
    destruct (pydiv (add a1 b1) two); cbn [bind]; [ | reflexivity].
    split; [reflexivity | ]. split; [exact HF | ]. now apply exhausted_iters.
Qed.

Lemma regula_falsi_agrees :
  agree (regula_falsi_rows format_num) max_iter
    (CLI.regula_falsi f a b tol max_iter)
    (App.run_regula_falsi format_num f a b tol max_iter).
Proof.
  unfold CLI.regula_falsi, App.run_regula_falsi.
  destruct (f a) as [fa | ]; cbn [bind]; [ | reflexivity].
  destruct (f b) as [fb | ]; cbn [bind]; [ | reflexivity].
  destruct (leb zero (mul fa fb)); [exact I | ].
  pose proof (for_range_sim _ _ _ (agree_at (regula_falsi_rows format_num))
                (regula_falsi_sim format_num f tol) (Z.to_nat max_iter) 1%Z
                (a, b, None, []) (a, b, None, [])
                (conj eq_refl (conj (Forall2_nil _) eq_refl))) as L.
  destruct (for_range (CLI.regula_falsi_body f tol) _ _ _)
    as [[[msg | root h] | [[[a1 b1] c1] h1]] | e1];
    destruct (for_range (App.regula_falsi_body format_num f tol) _ _ _)
      as [[[msg' | root' h' iters] | [[[a2 b2] c2] h2]] | e2];
    cbn [bind]; try contradiction; try exact I; try exact L.
  - destruct L as (j & _ & L); contradiction.
  - destruct L as (j & _ & L); contradiction.
  - destruct L as (j & _ & -> & HF & -> & Hlen). cbn. auto.
  - cbn [fst snd] in L. destruct L as ([= -> -> ->] & HF & Hlen).
    destruct c1 as [c | ]; [ | reflexivity].
    split; [reflexivity | ]. split; [exact HF | ]. now apply exhausted_iters.
Qed.

Lemma secant_agrees :
  agree (secant_rows format_num) max_iter
    (CLI.secant f x0 x1 tol max_iter)
    (App.run_secant format_num f x0 x1 tol max_iter).
Proof.
  unfold CLI.secant, App.run_secant.
  pose proof (for_range_sim _ _ _ (agree_at (secant_rows format_num))
                (secant_sim format_num f tol) (Z.to_nat max_iter) 1%Z
                (x0, x1, []) (x0, x1, [])
                (conj eq_refl (conj (Forall2_nil _) eq_refl))) as L.
  destruct (for_range (CLI.secant_body f tol) _ _ _)
    as [[[msg | root h] | [[a1 b1] h1]] | e1];
    destruct (for_range (App.secant_body format_num f tol) _ _ _)
      as [[[msg' | root' h' iters] | [[a2 b2] h2]] | e2];
    cbn [bind]; try contradiction; try exact I; try exact L.
  - destruct L as (j & _ & L); contradiction.
  - destruct L as (j & _ & L); contradiction.
  - destruct L as (j & _ & -> & HF & -> & Hlen). cbn. auto.
  - cbn [fst snd] in L. destruct L as ([= -> ->] & HF & Hlen).
    split; [reflexivity | ]. split; [exact HF | ]. now apply exhausted_iters.
Qed.

Lemma newton_raphson_agrees :
  agree (newton_raphson_rows format_num) max_iter
    (CLI.newton_raphson f df x0 tol max_iter)
    (App.run_newton format_num f df x0 tol max_iter).
Proof.
  unfold CLI.newton_raphson, App.run_newton.
  pose proof (for_range_sim _ _ _ (agree_at (newton_raphson_rows format_num))
                (newton_raphson_sim format_num f df tol) (Z.to_nat max_iter)
                1%Z (x0, []) (x0, [])
                (conj eq_refl (conj (Forall2_nil _) eq_refl))) as L.
  destruct (for_range (CLI.newton_raphson_body f df tol) _ _ _)
    as [[[msg | root h] | [a1 h1]] | e1];
    destruct (for_range (App.newton_body format_num f df tol) _ _ _)
      as [[[msg' | root' h' iters] | [a2 h2]] | e2];
    cbn [bind]; try contradiction; try exact I; try exact L.
  - destruct L as (j & _ & L); contradiction.
  - destruct L as (j & _ & L); contradiction.
  - destruct L as (j & _ & -> & HF & -> & Hlen). cbn. auto.
  - cbn [fst snd] in L. destruct L as (-> & HF & Hlen).
    split; [reflexivity | ]. split; [exact HF | ]. now apply exhausted_iters.
Qed.

Lemma fixed_point_agrees :
  agree (fixed_point_rows format_num) max_iter
    (CLI.fixed_point f x0 tol max_iter)
    (App.run_fixed_point format_num f x0 tol max_iter).
Proof.
  unfold CLI.fixed_point, App.run_fixed_point.
  pose proof (for_range_sim _ _ _ (agree_at (fixed_point_rows format_num))
                (fixed_point_sim format_num f tol) (Z.to_nat max_iter)
                1%Z (x0, []) (x0, [])
                (conj eq_refl (conj (Forall2_nil _) eq_refl))) as L.
  destruct (for_range (CLI.fixed_point_body f tol) _ _ _)
    as [[[msg | root h] | [a1 h1]] | e1];
    destruct (for_range (App.fixed_point_body format_num f tol) _ _ _)
      as [[[msg' | root' h' iters] | [a2 h2]] | e2];
    cbn [bind]; try contradiction; try exact I; try exact L.
  - destruct L as (j & _ & L); contradiction.
  - destruct L as (j & _ & L); contradiction.
  - destruct L as (j & _ & -> & HF & -> & Hlen). cbn. auto.
  - cbn [fst snd] in L. destruct L as (-> & HF & Hlen).
    split; [reflexivity | ]. split; [exact HF | ]. now apply exhausted_iters.
Qed.

Lemma modified_secant_agrees :
  agree (modified_secant_rows format_num) max_iter
    (CLI.modified_secant f x0 delta tol max_iter)
    (App.run_modified_secant format_num f x0 delta tol max_iter).
Proof.
  unfold CLI.modified_secant, App.run_modified_secant.
  pose proof (for_range_sim _ _ _
                (agree_at (modified_secant_rows format_num))
                (modified_secant_sim format_num f delta tol)
                (Z.to_nat max_iter) 1%Z (x0, []) (x0, [])
                (conj eq_refl (conj (Forall2_nil _) eq_refl))) as L.
  destruct (for_range (CLI.modified_secant_body f delta tol) _ _ _)
    as [[[msg | root h] | [a1 h1]] | e1];
    destruct (for_range (App.modified_secant_body format_num f delta tol)
                _ _ _)
      as [[[msg' | root' h' iters] | [a2 h2]] | e2];
    cbn [bind]; try contradiction; try exact I; try exact L.
  - destruct L as (j & _ & L); contradiction.
  - destruct L as (j & _ & L); contradiction.
  - destruct L as (j & _ & -> & HF & -> & Hlen). cbn. auto.
  - cbn [fst snd] in L. destruct L as (-> & HF & Hlen).
    split; [reflexivity | ]. split; [exact HF | ]. now apply exhausted_iters.
Qed.
End AgreementProof.

(** X7. The six methods inlined in [run_method] of app.py compute what the
    solvers of ZOF_CLI.py compute: on the same inputs both raise the same
    exception, or both fail, or both succeed with the same root and, record
    by record, the same numbers in the trace (formatted in app.py).  The
    ["iters"] of app.py is the length of the trace; only for a negative
    [max_iter] is it [max_iter], beside an empty trace. *)
Theorem cli_and_app_agree {R : Type} {N : Number R}
    (format_num : string -> R -> string) (f df : R -> py R)
    (a b x0 x1 delta tol : R) (max_iter : Z) :
  agree (bisection_rows format_num) max_iter
    (CLI.bisection f a b tol max_iter)
    (App.run_bisection format_num f a b tol max_iter) /\
  agree (regula_falsi_rows format_num) max_iter
    (CLI.regula_falsi f a b tol max_iter)
    (App.run_regula_falsi format_num f a b tol max_iter) /\
  agree (secant_rows format_num) max_iter
    (CLI.secant f x0 x1 tol max_iter)
    (App.run_secant format_num f x0 x1 tol max_iter) /\
  agree (newton_raphson_rows format_num) max_iter
    (CLI.newton_raphson f df x0 tol max_iter)
    (App.run_newton format_num f df x0 tol max_iter) /\
  agree (fixed_point_rows format_num) max_iter
    (CLI.fixed_point f x0 tol max_iter)
    (App.run_fixed_point format_num f x0 tol max_iter) /\
  agree (modified_secant_rows format_num) max_iter
    (CLI.modified_secant f x0 delta tol max_iter)
    (App.run_modified_secant format_num f x0 delta tol max_iter).
Proof.
  split; [apply bisection_agrees | ].
  split; [apply regula_falsi_agrees | ].
  split; [apply secant_agrees | ].
  split; [apply newton_raphson_agrees | ].
  split; [apply fixed_point_agrees | apply modified_secant_agrees].
Qed.

(** ** The table that main prints *)

Section Report.
Context {R : Type} `{Number R}.
Variable format_num : string -> R -> string.

Lemma print_rows_prints (h : list (row R)) : forall w,
  CLI.print_rows format_num h w
    = (Ok tt, {| stdin := stdin w;
                 stdout := stdout w ++ map (data_line format_num) h |}).
Proof.
  induction h as [ | r h IH]; intros [inp out]; cbn [CLI.print_rows map].
  - unfold io_ret. cbn. now rewrite app_nil_r.
  - unfold io_bind, print. cbn [stdin stdout]. rewrite IH. cbn [stdin stdout].
    now rewrite <- app_assoc.
Qed.

(** On a trace with a first record and a last record that holds a number
    under ["error"], the output of [main] does not raise, reads nothing, and
    prints the summary, the header between two rules and one line per
    record. *)
Lemma report_prints (result : R) (h : list (row R)) (first last : row R)
    (e : R) (w : world) :
  first_item h = Ok first -> last_item h = Ok last ->
  num_of "error" last = Some e ->
  CLI.report format_num result h w
    = (Ok tt, {| stdin := stdin w;
                 stdout := stdout w
                           ++ report_lines format_num result h e first |}).
Proof.
  intros Hf Hl He. destruct w as [inp out].
  unfold num_of in He.
  destruct (lookup "error" last) as [[i | x | s] | ] eqn:El;
    try discriminate He. injection He as ->.
  unfold CLI.report, io_bind, print, lift. cbn [stdin stdout].
  rewrite Hl. unfold getitem. rewrite El. cbn [CLI.format_value].
  cbn [stdin stdout]. rewrite Hf. cbn [stdin stdout].
  rewrite print_rows_prints. cbn [stdin stdout].
  unfold report_lines, header_line.
  repeat rewrite <- app_assoc. reflexivity.
Qed.
End Report.

Lemma last_item_exists {A : Type} (h : list A) :
  h <> [] -> exists p, last_item h = Ok p.
Proof.
  intros Hne. destruct (exists_last Hne) as (l & x & ->).
  exists x. apply last_item_snoc.
Qed.

Lemma reported_trace {R : Type} `{Number R}
    (format_num : string -> R -> string) (root : R) (h : list (row R)) :
  h <> [] ->
  (forall k r, nth_error h k = Some r -> exists e, num_of "error" r = Some e) ->
  exists first last e,
    first_item h = Ok first /\ last_item h = Ok last /\
    num_of "error" last = Some e /\
    forall w,
      CLI.report format_num root h w
        = (Ok tt, {| stdin := stdin w;
                     stdout := stdout w
                               ++ report_lines format_num root h e first |}).
Proof.
  intros Hne Herr.
  destruct (last_item_exists h Hne) as (last & Hl).
  destruct (nth_error_last h last Hl) as (k & Hk & _).
  destruct (Herr k last Hk) as (e & He).
  destruct h as [ | first h']; [contradiction | ].
  exists first, last, e. repeat split; auto.
  intros w. now apply report_prints with last.
Qed.

(** X8. With [max_iter >= 1], whatever a solver returns as a success is
    printed by the output of [main] without an exception: the root, the
    number of iterations, the error of the last record, the header between
    two rules and one line per record. *)
Theorem report_prints_every_trace {R : Type} `{NumberLaws R}
    (format_num : string -> R -> string) (f df : R -> py R)
    (a b x0 x1 delta tol : R) (max_iter : Z) :
  (1 <= max_iter)%Z ->
  reported format_num (CLI.bisection f a b tol max_iter) /\
  reported format_num (CLI.regula_falsi f a b tol max_iter) /\
  reported format_num (CLI.secant f x0 x1 tol max_iter) /\
  reported format_num (CLI.newton_raphson f df x0 tol max_iter) /\
  reported format_num (CLI.fixed_point f x0 tol max_iter) /\
  reported format_num (CLI.modified_secant f x0 delta tol max_iter).
Proof.
  intros Hm. repeat apply conj; intros root h Ho.
  - destruct (bisection_traced f a b tol max_iter root h Ho)
      as (_ & Hne & Hg & _).
    apply reported_trace; [now apply Hne | ].
    intros k r Hn. pose proof (Hg k r Hn) as Hrec.
    unfold bisection_record in Hrec. decompose [ex and] Hrec. eauto.
  - destruct (regula_falsi_traced f a b tol max_iter root h Ho)
      as (_ & Hne & Hg & _).
    apply reported_trace; [now apply Hne | ].
    intros k r Hn. pose proof (Hg k r Hn) as Hrec.
    unfold regula_falsi_record in Hrec. decompose [ex and] Hrec. eauto.
  - destruct (secant_traced f x0 x1 tol max_iter root h Ho)
      as (_ & Hne & Hg & _).
    apply reported_trace; [now apply Hne | ].
    intros k r Hn. pose proof (Hg k r Hn) as Hrec.
    unfold secant_record in Hrec. decompose [ex and] Hrec. eauto.
  - destruct (newton_raphson_traced f df x0 tol max_iter root h Ho)
      as (_ & Hne & Hg & _).
    apply reported_trace; [now apply Hne | ].
    intros k r Hn. pose proof (Hg k r Hn) as Hrec.
    unfold newton_raphson_record in Hrec. decompose [ex and] Hrec. eauto.
  - destruct (fixed_point_traced f x0 tol max_iter root h Ho)
      as (_ & Hne & Hg & _).
    apply reported_trace; [now apply Hne | ].
    intros k r Hn. pose proof (Hg k r Hn) as Hrec.
    unfold fixed_point_record in Hrec. decompose [ex and] Hrec. eauto.
  - destruct (modified_secant_traced f x0 delta tol max_iter root h Ho)
      as (_ & Hne & Hg & _).
    apply reported_trace; [now apply Hne | ].
    intros k r Hn. pose proof (Hg k r Hn) as Hrec.
    unfold modified_secant_record in Hrec. decompose [ex and] Hrec. eauto.
Qed.

Lemma report_prints_every_trace_witness :
  let f : float -> py float := fun x => Ok (x * x - 2)%float in
  let df : float -> py float := fun x => Ok (2 * x)%float in
  (1 <= 50)%Z /\
  reported (fun _ _ => "") (CLI.bisection f 0%float 2%float 1e-6%float 50) /\
  reported (fun _ _ => "") (CLI.newton_raphson f df 1%float 1e-6%float 50).
Proof.
  intros f df. assert (Hm : (1 <= 50)%Z) by lia.
  destruct (report_prints_every_trace (fun _ _ => "") f df 0%float 2%float
              1%float 2%float 0.01%float 1e-6%float 50%Z Hm)
    as (H1 & _ & _ & H4 & _).
  exact (conj Hm (conj H1 H4)).
Defined.

(** ** The table is aligned *)

Lemma length_append (s1 s2 : string) :
  String.length (s1 ++ s2) = (String.length s1 + String.length s2)%nat.
Proof. induction s1 as [ | c s1 IH]; cbn; [reflexivity | now rewrite IH]. Qed.

Lemma length_repeat_space (n : nat) :
  String.length (repeat_string " " n) = n.
Proof. induction n as [ | n IH]; cbn; [reflexivity | now rewrite IH]. Qed.

Lemma length_take (n : nat) : forall s : string,
  String.length (take n s) = Nat.min n (String.length s).
Proof.
  unfold take. induction n as [ | n IH]; intros [ | c s]; cbn; auto.
Qed.

Lemma length_ljust (s : string) (width : nat) :
  String.length (ljust s width) = Nat.max (String.length s) width.
Proof. unfold ljust. rewrite length_append, length_repeat_space. lia. Qed.

(** A cell of a data line is ten characters wide, whatever it shows. *)
Lemma cell_width (s : string) : String.length (ljust (take 9 s) 10) = 10%nat.
Proof. rewrite length_ljust, length_take. lia. Qed.

Lemma length_concat_cells (l : list string) :
  Forall (fun s => String.length s = 10%nat) l -> l <> [] ->
  String.length (concat " | " l) = (13 * List.length l - 3)%nat.
Proof.
  induction l as [ | x l IH]; intros Hall Hne; [contradiction | ].
  inversion Hall as [ | ? ? Hx Hl]. subst.
  destruct l as [ | y l].
  - cbn. exact Hx.
  - change (concat " | " (x :: y :: l))
      with (x ++ " | " ++ concat " | " (y :: l))%string.
    rewrite !length_append, IH by (auto; discriminate).
    rewrite Hx. cbn [String.length List.length]. lia.
Qed.

Section Aligned.
Context {R : Type}.
Variable format_num : string -> R -> string.

Lemma data_line_length (r : row R) :
  r <> [] ->
  String.length (data_line format_num r) = (13 * List.length r - 3)%nat.
Proof.
  intros Hne. unfold data_line.
  rewrite length_concat_cells, length_map; [reflexivity | | ].
  - apply Forall_forall. intros s Hs. apply in_map_iff in Hs.
    destruct Hs as (kv & <- & _). apply cell_width.
  - destruct r; [contradiction | discriminate].
Qed.

Lemma header_line_length (r : row R) :
  r <> [] -> Forall (fun kv => (String.length (fst kv) <= 10)%nat) r ->
  String.length (header_line r) = (13 * List.length r - 3)%nat.
Proof.
  intros Hne Hk. unfold header_line.
  rewrite length_concat_cells, !length_map; [reflexivity | | ].
  - apply Forall_forall. intros s Hs. apply in_map_iff in Hs.
    destruct Hs as (k & <- & Hin). apply in_map_iff in Hin.
    destruct Hin as (kv & <- & Hin). rewrite length_ljust.
    rewrite Forall_forall in Hk. specialize (Hk kv Hin). lia.
  - destruct r; [contradiction | discriminate].
Qed.

(** Records of the same number of fields, with keys of at most ten
    characters, give lines as long as the header. *)
Lemma aligned_rows (first r : row R) :
  first <> [] -> List.length r = List.length first ->
  Forall (fun kv => (String.length (fst kv) <= 10)%nat) first ->
  String.length (data_line format_num r) = String.length (header_line first).
Proof.
  intros Hne Hlen Hk.
  assert (Hr : r <> []).
  { intros ->. destruct first; [contradiction | discriminate]. }
  rewrite (header_line_length first Hne Hk), (data_line_length r Hr).
  now rewrite Hlen.
Qed.
End Aligned.

Lemma length_rule (n : nat) : String.length (repeat_string "-" n) = n.
Proof. induction n as [ | n IH]; cbn; [reflexivity | now rewrite IH]. Qed.

Lemma agree_shapes {R : Type} (rows : row R -> row R -> Prop)
    (columns : nat) (max_iter : Z) (o : py (outcome R))
    (w : py (@App.response R)) :
  (forall r r', rows r r' -> shaped columns r) ->
  agree rows max_iter o w ->
  for_success o (fun _ h => Forall (shaped columns) h).
Proof.
  intros Hrows Hag root h ->.
  destruct w as [[msg | root' h' iters] | e]; cbn in Hag; try contradiction.
  destruct Hag as (_ & HF & _).
  induction HF as [ | r r' h h' Hr _ IH]; constructor; eauto.
Qed.

Lemma shaped_aligned {R : Type} (format_num : string -> R -> string)
    (columns : nat) (o : py (outcome R)) :
  (0 < columns)%nat ->
  for_success o (fun _ h => Forall (shaped columns) h) ->
  aligned format_num columns o.
Proof.
  intros Hc Hs root h Ho first Hfirst. specialize (Hs root h Ho).
  cbv zeta.
  assert (Hin : shaped columns first).
  { destruct h as [ | r h]; [discriminate | ].
    injection Hfirst as <-. now inversion Hs. }
  destruct Hin as (Hlen & Hk).
  assert (Hne : first <> []).
  { intros ->. cbn in Hlen. lia. }
  split; [ | split].
  - rewrite (header_line_length first Hne Hk). now rewrite Hlen.
  - apply length_rule.
  - apply Forall_forall. intros r Hr. rewrite Forall_forall in Hs.
    destruct (Hs r Hr) as (Hlr & _).
    apply aligned_rows; auto. now rewrite Hlr, Hlen.
Qed.

Ltac shape_of rows :=
  let r := fresh "r" in let r' := fresh "r'" in let Hr := fresh "Hr" in
  intros r r' Hr; unfold rows in Hr; decompose [ex and] Hr; subst r;
  split; [reflexivity | repeat constructor; cbn; lia].

(** X9. The table that [main] prints for the trace of any of the six
    solvers is aligned: the header line, the two rules and every data line
    have the same length, thirteen characters a column less three (75 for
    the six columns of bisection, regula falsi and Newton-Raphson, 62 for
    the five of the secant method, 49 for the four of the fixed-point and
    the modified secant methods), however long the printed numbers are. *)
Theorem table_is_aligned {R : Type} {N : Number R}
    (format_num : string -> R -> string) (f df : R -> py R)
    (a b x0 x1 delta tol : R) (max_iter : Z) :
  aligned format_num 6 (CLI.bisection f a b tol max_iter) /\
  aligned format_num 6 (CLI.regula_falsi f a b tol max_iter) /\
  aligned format_num 5 (CLI.secant f x0 x1 tol max_iter) /\
  aligned format_num 6 (CLI.newton_raphson f df x0 tol max_iter) /\
  aligned format_num 4 (CLI.fixed_point f x0 tol max_iter) /\
  aligned format_num 4 (CLI.modified_secant f x0 delta tol max_iter).
Proof.
  split; [ | split; [ | split; [ | split; [ | split]]]];
    (apply shaped_aligned; [lia | ]).
  - eapply agree_shapes; [ | apply (bisection_agrees format_num)].
    shape_of @bisection_rows.
  - eapply agree_shapes; [ | apply (regula_falsi_agrees format_num)].
    shape_of @regula_falsi_rows.
  - eapply agree_shapes; [ | apply (secant_agrees format_num)].
    shape_of @secant_rows.
  - eapply agree_shapes; [ | apply (newton_raphson_agrees format_num)].
    shape_of @newton_raphson_rows.
  - eapply agree_shapes; [ | apply (fixed_point_agrees format_num)].
    shape_of @fixed_point_rows.
  - eapply agree_shapes; [ | apply (modified_secant_agrees format_num)].
    shape_of @modified_secant_rows.
Qed.

(* ================================================================= *)
(** * The main loop of ZOF_CLI.py *)

Lemma consumes_ret {A : Type} (a : A) : consumes (io_ret a).
Proof. intros w. cbn. lia. Qed.

Lemma consumes_bind {A B : Type} (m : io A) (k : A -> io B) :
  consumes m -> (forall a, consumes (k a)) -> consumes (io_bind m k).
Proof.
  intros Hm Hk w. unfold io_bind. specialize (Hm w).
  destruct (m w) as [[a | e] w1]; cbn [snd] in *; [ | exact Hm].
  specialize (Hk a w1). lia.
Qed.

Lemma consumes_lift {A : Type} (m : py A) : consumes (lift m).
Proof. intros w. cbn. lia. Qed.

Lemma consumes_print (s : string) : consumes (print s).
Proof. intros w. cbn. lia. Qed.

Lemma consumes_input (prompt : string) : consumes (input prompt).
Proof. intros w. unfold input. destruct (stdin w); cbn; lia. Qed.

Lemma consumes_try {A : Type} (m : io A) (h : exn -> io A) :
  consumes m -> (forall e, consumes (h e)) -> consumes (try_except m h).
Proof.
  intros Hm Hh w. unfold try_except. specialize (Hm w).
  destruct (m w) as [[a | e] w1]; cbn [snd] in *; [exact Hm | ].
  specialize (Hh e w1). lia.
Qed.

Ltac consumes_step :=
  first [ apply consumes_bind; [ | intros ? ]
        | apply consumes_try; [ | intros ? ]
        | apply consumes_ret | apply consumes_lift
        | apply consumes_print | apply consumes_input ].

Section MainLoop.
Context {R : Type} `{Number R}.
Variable expr : Type.
Variable sympify : string -> py expr.
Variable lambdify : expr -> R -> py R.
Variable diff : expr -> expr.
Variable str_expr : expr -> string.
Variable float_of_string : string -> py R.
Variable int_of_string : string -> py Z.
Variable format_num : string -> R -> string.

Let main_try : string -> io unit :=
  CLI.main_try expr sympify lambdify diff str_expr float_of_string
    int_of_string format_num.

Let main_pass : io bool :=
  CLI.main_pass expr sympify lambdify diff str_expr float_of_string
    int_of_string format_num.

Let main_loop : nat -> io unit :=
  CLI.main_loop expr sympify lambdify diff str_expr float_of_string
    int_of_string format_num.

Let main : nat -> io unit :=
  CLI.main expr sympify lambdify diff str_expr float_of_string
    int_of_string format_num.

Lemma print_rows_consumes (h : list (row R)) :
  consumes (CLI.print_rows format_num h).
Proof.
  induction h as [ | r h IH]; cbn [CLI.print_rows]; repeat consumes_step.
  exact IH.
Qed.

Lemma report_consumes (result : R) (h : list (row R)) :
  consumes (CLI.report format_num result h).
Proof.
  unfold CLI.report. repeat consumes_step. apply print_rows_consumes.
Qed.

Lemma solve_consumes (choice : string) (f : CLI.fn) (e : expr) (tol : R)
    (max_iter : Z) :
  consumes (CLI.solve expr lambdify diff str_expr float_of_string choice f e
              tol max_iter).
Proof.
  unfold CLI.solve, CLI.input_float.
  repeat match goal with
         | |- consumes (if ?c then _ else _) => destruct c
         end; repeat consumes_step.
Qed.

Lemma main_try_consumes (choice : string) : consumes (main_try choice).
Proof.
  unfold main_try, CLI.main_try, CLI.parse_function, CLI.input_float,
    CLI.input_int, CLI.output.
  apply consumes_bind; [apply consumes_input | intros func_str].
  apply consumes_bind.
  - destruct (sympify func_str); repeat consumes_step.
  - intros [[f e] | ]; [ | apply consumes_ret].
    repeat consumes_step; [apply solve_consumes | ].
    match goal with
    | |- consumes (match ?o with Failure _ => _ | Success _ _ => _ end) =>
        destruct o
    end; [apply consumes_print | apply report_consumes].
Qed.
(** One pass of the loop: it asks for another pass only after reading a
    line, it stops after [Exiting...], and it raises only at the end of
    standard input, at the menu prompt. *)
Lemma main_pass_cases (w : world) :
  match main_pass w with
  | (Ok true, w') => (List.length (stdin w') < List.length (stdin w))%nat
  | (Ok false, w') => last_item (stdout w') = Ok "Exiting..."
  | (Raise e, w') =>
      e = end_of_input /\ stdin w' = [] /\
      last_item (stdout w') = Ok (nl ++ "Enter choice (0-6): ")
  end.
Proof.
  destruct w as [inp out].
  unfold main_pass, CLI.main_pass, CLI.menu.
  unfold io_bind at 1 2 3 4 5 6 7 8 9. unfold print at 1 2 3 4 5 6 7 8.
  cbn [stdin stdout]. unfold input at 1. cbn [stdin stdout].
  destruct inp as [ | choice rest].
  - split; [reflexivity | ]. split; [reflexivity | ]. apply last_item_snoc.
  - destruct (choice =? "0").
    + unfold io_bind, print, io_ret. cbn [stdin stdout]. apply last_item_snoc.
    + destruct (negb _).
      * unfold io_bind, print, io_ret. cbn [stdin stdout List.length]. lia.
      * unfold io_bind. fold main_try.
        match goal with
        | |- context [try_except (main_try choice) CLI.main_except ?w0] =>
            pose proof (consumes_try (main_try choice) CLI.main_except
                          (main_try_consumes choice)
                          (fun e => consumes_print
                             ("An error occurred: " ++ str_exn e)) w0) as Hc
        end.
        destruct (try_except (main_try choice) CLI.main_except _)
          as [[[] | e] w1] eqn:E.
        -- unfold io_ret. cbn in Hc |- *. lia.
        -- pose proof (f_equal fst E) as E1. cbn [fst] in E1.
           unfold try_except in E1.
           destruct (main_try choice _) as [[[] | e1] w2]; discriminate.
Qed.

Lemma main_loop_ends (fuel : nat) : forall w,
  (List.length (stdin w) < fuel)%nat ->
  exits (main_loop fuel w) \/ input_ends (main_loop fuel w).
Proof.
  induction fuel as [ | fuel IH]; intros w Hlen; [lia | ].
  unfold main_loop. cbn [CLI.main_loop]. fold main_loop main_pass.
  unfold io_bind. pose proof (main_pass_cases w) as Hp.
  destruct (main_pass w) as [[[ | ] | e] w1].
  - apply IH. lia.
  - left. split; [reflexivity | exact Hp].
  - right. destruct Hp as (-> & Hin & Hout). repeat split; assumption.
Qed.

Lemma main_loop_fuel (fuel : nat) : forall fuel' w,
  (List.length (stdin w) < fuel)%nat -> (List.length (stdin w) < fuel')%nat ->
  main_loop fuel' w = main_loop fuel w.
Proof.
  induction fuel as [ | fuel IH]; intros fuel' w Hlen Hlen'; [lia | ].
  destruct fuel' as [ | fuel']; [lia | ].
  unfold main_loop. cbn [CLI.main_loop]. fold main_loop main_pass.
  unfold io_bind. pose proof (main_pass_cases w) as Hp.
  destruct (main_pass w) as [[[ | ] | e] w1]; try reflexivity.
  apply IH; lia.
Qed.

Lemma main_unfold (fuel : nat) (w : world) :
  main fuel w
  = main_loop fuel
      {| stdin := stdin w;
         stdout := stdout w
                   ++ ["========================================";
                       "   ZERO OF FUNCTIONS (ZOF) SOLVER CLI   ";
                       "========================================"] |}.
Proof.
  unfold main, CLI.main, io_bind, print. cbn [stdin stdout]. fold main_loop.
  now rewrite <- !app_assoc.
Qed.
End MainLoop.

(** X10. On a standard input of finitely many lines [main] ends, whatever
    the lines are: once the loop is allowed more passes than there are
    lines, the run no longer depends on that allowance, and it ends in one
    of two ways, after printing [Exiting...] for the choice [0], or by the
    exception of the menu prompt when every line has been read.  No other
    exception leaves [main]. *)
Theorem main_ends_by_exit_or_end_of_input {R : Type} `{Number R}
    (expr : Type) (sympify : string -> py expr)
    (lambdify : expr -> R -> py R) (diff : expr -> expr)
    (str_expr : expr -> string) (float_of_string : string -> py R)
    (int_of_string : string -> py Z) (format_num : string -> R -> string)
    (fuel : nat) (w : world) :
  let main := CLI.main expr sympify lambdify diff str_expr float_of_string
                int_of_string format_num in
  (List.length (stdin w) < fuel)%nat ->
  (exits (main fuel w) \/ input_ends (main fuel w)) /\
  forall fuel', (List.length (stdin w) < fuel')%nat ->
    main fuel' w = main fuel w.
Proof.
  intros main Hlen. unfold main. split.
  - rewrite main_unfold. now apply main_loop_ends.
  - intros fuel' Hlen'. rewrite !main_unfold. now apply main_loop_fuel.
Qed.

(** X10 at work on binary64: a session that asks for bisection of [x] on
    [[-1, 1]] and then for the exit. *)
Lemma main_ends_by_exit_or_end_of_input_witness :
  let main :=
    CLI.main (Sympy.expr float) (fun _ => Ok Sympy.X) Sympy.lambdify
      Sympy.diff (fun _ => "") (fun _ => Ok 1%float) (fun _ => Ok 5%Z)
      (fun _ _ => "") in
  let w := {| stdin := ["1"; "x"; "0.1"; "5"; "-1"; "1"; "0"];
              stdout := [] |} in
  (List.length (stdin w) < 8)%nat /\
  (exits (main 8%nat w) \/ input_ends (main 8%nat w)) /\
  forall fuel', (List.length (stdin w) < fuel')%nat ->
    main fuel' w = main 8%nat w.
Proof.
  intros main w.
  assert (Hlen : (List.length (stdin w) < 8)%nat) by (cbn; lia).
  split; [exact Hlen | ].
  exact (main_ends_by_exit_or_end_of_input (Sympy.expr float)
           (fun _ => Ok Sympy.X) Sympy.lambdify Sympy.diff (fun _ => "")
           (fun _ => Ok 1%float) (fun _ => Ok 5%Z) (fun _ _ => "") 8 w Hlen).
Defined.

(* ================================================================= *)
(** * run_method of app.py *)

(** The dispatch on the method id falls to its last case for every id
    other than the six. *)
Lemma dispatch_default {T : Type} (m : option string) (A B C D E F G : T) :
  ~ known_method m ->
  match m with
  | Some "1" => A | Some "2" => B | Some "3" => C
  | Some "4" => D | Some "5" => E | Some "6" => F
  | _ => G
  end%string = G.
Proof.
  unfold known_method. cbn [In]. intros Hm.
  destruct m as [[ | [b0 b1 b2 b3 b4 b5 b6 b7] [ | c s]] | ];
    try reflexivity;
    destruct b0, b1, b2, b3, b4, b5, b6, b7; try reflexivity;
    exfalso; apply Hm; tauto.
Qed.

Lemma known_method_dec (m : option string) :
  {known_method m} + {~ known_method m}.
Proof.
  unfold known_method. apply in_dec. intros x y.
  decide equality. apply string_dec.
Qed.

Lemma agree_result {R : Type} (rows : row R -> row R -> Prop) (max_iter : Z)
    (o : py (outcome R)) (root : R) (h : list (row R)) (iters : Z) :
  agree rows max_iter o (Ok (App.RResult root h iters)) ->
  cli_success rows o root h.
Proof.
  destruct o as [[msg | root0 h0] | e]; cbn; try contradiction.
  intros (-> & HF & _). exists h0. split; [reflexivity | exact HF].
Qed.

Section RunMethod.
Context {R : Type} `{Number R}.
Variable expr : Type.
Variable sympify : option string -> py expr.
Variable lambdify : expr -> R -> py R.
Variable diff : expr -> expr.
Variable float_of_string : string -> py R.
Variable int_of_string : string -> py Z.
Variable format_num : string -> R -> string.

Let run_method_try : option string -> App.form -> py (option App.response) :=
  App.run_method_try expr sympify lambdify diff float_of_string
    int_of_string format_num.

Let run_method : option string -> App.form -> App.response :=
  App.run_method expr sympify lambdify diff float_of_string
    int_of_string format_num.

Lemma run_method_unknown (method_id : option string) (params : App.form)
    (tol : R) (max_iter : Z) (e : expr) :
  field float_of_string params "tolerance" tol ->
  App.int_ int_of_string (App.get params "max_iter") = Ok max_iter ->
  sympify (App.get params "function") = Ok e ->
  ~ known_method method_id ->
  run_method_try method_id params = Ok None.
Proof.
  unfold field. intros Ht Hm He Hid.
  unfold run_method_try, App.run_method_try, App.parse_function.
  rewrite Ht, Hm, He. cbn [bind].
  now apply dispatch_default.
Qed.
Ltac read_field E x Hx :=
  match type of E with
  | context [App.float_ ?fos (App.get ?params ?k)] =>
      destruct (App.float_ fos (App.get params k)) as [x | ] eqn:Hx;
      cbn [bind] in E; [ | discriminate]
  end.

Ltac run_solver E Hrun :=
  match type of E with
  | (r <- ?run ;; Ok (Some r)) = _ =>
      destruct run as [r0 | ] eqn:Hrun; cbn [bind] in E; [ | discriminate];
      injection E as ->
  end.

(** X11. A result of [run_method] is a result of ZOF_CLI.py: when the dict
    that [run_method] returns has a root, the method id is one of ["1"] to
    ["6"], the tolerance, the maximum of iterations, the function and the
    fields that the method needs were all read from the form, and the
    solver of that method in ZOF_CLI.py, given these inputs, succeeds with
    the same root and with a trace of the same numbers. *)
Theorem web_result_is_a_cli_result (method_id : option string)
    (params : App.form) (root : R) (h : list (row R)) (iters : Z) :
  run_method method_id params = App.RResult root h iters ->
  exists tol max_iter e,
    field float_of_string params "tolerance" tol /\
    App.int_ int_of_string (App.get params "max_iter") = Ok max_iter /\
    sympify (App.get params "function") = Ok e /\
    let f := lambdify e in
    let given := field float_of_string params in
    (method_id = Some "1"%string /\ exists a b,
       given "param_a" a /\ given "param_b" b /\
       cli_success (bisection_rows format_num)
         (CLI.bisection f a b tol max_iter) root h) \/
    (method_id = Some "2"%string /\ exists a b,
       given "param_a" a /\ given "param_b" b /\
       cli_success (regula_falsi_rows format_num)
         (CLI.regula_falsi f a b tol max_iter) root h) \/
    (method_id = Some "3"%string /\ exists x0 x1,
       given "param_x0" x0 /\ given "param_x1" x1 /\
       cli_success (secant_rows format_num)
         (CLI.secant f x0 x1 tol max_iter) root h) \/
    (method_id = Some "4"%string /\ exists x0,
       given "param_x0" x0 /\
       cli_success (newton_raphson_rows format_num)
         (CLI.newton_raphson f (lambdify (diff e)) x0 tol max_iter) root h) \/
    (method_id = Some "5"%string /\ exists x0,
       given "param_x0" x0 /\
       cli_success (fixed_point_rows format_num)
         (CLI.fixed_point f x0 tol max_iter) root h) \/
    (method_id = Some "6"%string /\ exists x0 delta,
       given "param_x0" x0 /\ given "param_delta" delta /\
       cli_success (modified_secant_rows format_num)
         (CLI.modified_secant f x0 delta tol max_iter) root h).
Proof.
  intros Hr. unfold run_method, App.run_method in Hr.
  fold run_method_try in Hr.
  destruct (run_method_try method_id params) as [[r | ] | ex] eqn:E;
    try discriminate.
  subst r.
  unfold run_method_try, App.run_method_try, App.parse_function in E.
  destruct (App.float_ float_of_string (App.get params "tolerance"))
    as [tol | ] eqn:Ht; cbn [bind] in E; [ | discriminate].
  destruct (App.int_ int_of_string (App.get params "max_iter"))
    as [max_iter | ] eqn:Hm; cbn [bind] in E; [ | discriminate].
  destruct (sympify (App.get params "function")) as [e | ] eqn:He;
    [ | discriminate].
  exists tol, max_iter, e. unfold field.
  split; [exact Ht | ]. split; [reflexivity | ]. split; [reflexivity | ].
  cbv zeta.
  destruct (known_method_dec method_id) as [Hk | Hk];
    [ | rewrite dispatch_default in E by exact Hk; discriminate].
  unfold known_method in Hk. cbn [In] in Hk.
  destruct Hk as [<- | [<- | [<- | [<- | [<- | [<- | []]]]]]]; cbv iota in E.
  - read_field E a Ha. read_field E b Hb. run_solver E Hrun.
    left. split; [reflexivity | ]. exists a, b. repeat (split; [reflexivity | ]).
    eapply agree_result. rewrite <- Hrun. apply bisection_agrees.
  - read_field E a Ha. read_field E b Hb. run_solver E Hrun.
    right; left. split; [reflexivity | ]. exists a, b.
    repeat (split; [reflexivity | ]).
    eapply agree_result. rewrite <- Hrun. apply regula_falsi_agrees.
  - read_field E x0 Hx0. read_field E x1 Hx1. run_solver E Hrun.
    do 2 right; left. split; [reflexivity | ]. exists x0, x1.
    repeat (split; [reflexivity | ]).
    eapply agree_result. rewrite <- Hrun. apply secant_agrees.
  - read_field E x0 Hx0. cbv zeta in E. run_solver E Hrun.
    do 3 right; left. split; [reflexivity | ]. exists x0.
    repeat (split; [reflexivity | ]).
    eapply agree_result. rewrite <- Hrun. apply newton_raphson_agrees.
  - read_field E x0 Hx0. run_solver E Hrun.
    do 4 right; left. split; [reflexivity | ]. exists x0.
    repeat (split; [reflexivity | ]).
    eapply agree_result. rewrite <- Hrun. apply fixed_point_agrees.
  - read_field E x0 Hx0. read_field E delta Hd. run_solver E Hrun.
    do 5 right. split; [reflexivity | ]. exists x0, delta.
    repeat (split; [reflexivity | ]).
    eapply agree_result. rewrite <- Hrun. apply modified_secant_agrees.
Qed.

(** X12. The errors of [run_method] come in the order of its statements,
    whatever the method id is, known or not: a tolerance or a maximum of
    iterations that is missing or unreadable gives the message of its
    exception; with both read, a function that does not parse gives
    [Invalid Function String]; with all three read, a method id other than
    ["1"] to ["6"], or none, gives [Method not implemented]. *)
Theorem run_method_error_precedence (method_id : option string)
    (params : App.form) :
  (forall ex,
     App.float_ float_of_string (App.get params "tolerance") = Raise ex ->
     run_method method_id params = App.RError (str_exn ex)) /\
  (forall tol ex,
     field float_of_string params "tolerance" tol ->
     App.int_ int_of_string (App.get params "max_iter") = Raise ex ->
     run_method method_id params = App.RError (str_exn ex)) /\
  (forall tol max_iter ex,
     field float_of_string params "tolerance" tol ->
     App.int_ int_of_string (App.get params "max_iter") = Ok max_iter ->
     sympify (App.get params "function") = Raise ex ->
     run_method method_id params = App.RError "Invalid Function String") /\
  (forall tol max_iter e,
     field float_of_string params "tolerance" tol ->
     App.int_ int_of_string (App.get params "max_iter") = Ok max_iter ->
     sympify (App.get params "function") = Ok e ->
     ~ known_method method_id ->
     run_method method_id params = App.RError "Method not implemented").
Proof.
  unfold field, run_method, App.run_method, App.run_method_try,
    App.parse_function.
  split; [ | split; [ | split]].
  - intros ex ->. reflexivity.
  - intros tol ex -> ->. reflexivity.
  - intros tol max_iter ex -> -> ->. reflexivity.
  - intros tol max_iter e -> -> -> Hk. cbn [bind].
    now rewrite dispatch_default by exact Hk.
Qed.
End RunMethod.

(** X11 at work on binary64: Newton-Raphson for [x**2 - 2] from [x0 = 1],
    asked for through the form. *)
Lemma web_result_is_a_cli_result_witness :
  let e := Sympy.Sub (Sympy.Mul Sympy.X Sympy.X) (Sympy.Num 2%float) in
  let sympify : option string -> py (Sympy.expr float) := fun _ => Ok e in
  let float_of_string (s : string) : py float :=
    if s =? "1e-6" then Ok 0x1.0c6f7a0b5ed8dp-20%float
    else if s =? "1" then Ok 1%float
    else Raise (ValueError "could not convert string to float") in
  let int_of_string (s : string) : py Z :=
    if s =? "50" then Ok 50%Z
    else Raise (ValueError "invalid literal for int() with base 10") in
  let format_num : string -> float -> string := fun _ _ => ""%string in
  let params := [("function", "x**2 - 2"); ("tolerance", "1e-6");
                 ("max_iter", "50"); ("param_x0", "1")] in
  exists root h iters,
    App.run_method (Sympy.expr float) sympify Sympy.lambdify Sympy.diff
      float_of_string int_of_string format_num (Some "4") params
    = App.RResult root h iters /\
    cli_success (newton_raphson_rows format_num)
      (CLI.newton_raphson (Sympy.lambdify e) (Sympy.lambdify (Sympy.diff e))
         1%float 0x1.0c6f7a0b5ed8dp-20%float 50)
      root h.
Proof.
  intros e sympify float_of_string int_of_string format_num params.
  destruct (App.run_method (Sympy.expr float) sympify Sympy.lambdify
              Sympy.diff float_of_string int_of_string format_num (Some "4")
              params) as [msg | root h iters] eqn:E.
  - vm_compute in E. discriminate.
  - exists root, h, iters. split; [reflexivity | ].
    destruct (web_result_is_a_cli_result (Sympy.expr float) sympify
                Sympy.lambdify Sympy.diff float_of_string int_of_string
                format_num (Some "4") params root h iters E)
      as (tol & max_iter & e' & Ht & Hm & He & Hcases).
    injection Ht as <-. injection Hm as <-. injection He as <-.
    cbv zeta in Hcases.
    destruct Hcases as [(Hid & _) | [(Hid & _) | [(Hid & _) | Hcases]]];
      try discriminate.
    destruct Hcases as [(_ & x0 & Hx & Hs) | [(Hid & _) | (Hid & _)]];
      try discriminate.
    injection Hx as <-. exact Hs.
Defined.

(* ================================================================= *)
(** * Regula falsi without an iteration *)

(** X13. Regula falsi returns the variable [c] of its loop.  For a
    function that evaluates everywhere, [regula_falsi] raises an exception
    exactly when the sign test passes and [max_iter < 1]: no pass has bound
    [c], and the exception is the UnboundLocalError of the [return], in
    ZOF_CLI.py and in the loop inlined in app.py.  With [max_iter >= 1] it
    always returns. *)
Theorem regula_falsi_raises_only_without_iteration {R : Type} `{NumberLaws R}
    (format_num : string -> R -> string) (f : CLI.fn) (a b tol : R)
    (max_iter : Z) (fa fb : R) :
  (forall x, exists y, f x = Ok y) -> f a = Ok fa -> f b = Ok fb ->
  let unbound := UnboundLocalError
    "cannot access local variable 'c' where it is not associated with a value"
  in
  ((exists e, CLI.regula_falsi f a b tol max_iter = Raise e) <->
   leb zero (mul fa fb) = false /\ (max_iter < 1)%Z) /\
  (leb zero (mul fa fb) = false -> (max_iter < 1)%Z ->
   CLI.regula_falsi f a b tol max_iter = Raise unbound /\
   App.run_regula_falsi format_num f a b tol max_iter = Raise unbound).
Proof.
  intros Htotal Ha Hb unbound.
  assert (Hnone : leb zero (mul fa fb) = false -> (max_iter < 1)%Z ->
            CLI.regula_falsi f a b tol max_iter = Raise unbound /\
            App.run_regula_falsi format_num f a b tol max_iter
              = Raise unbound).
  { intros Hs Hm. unfold CLI.regula_falsi, App.run_regula_falsi.
    rewrite Ha, Hb. cbn [bind]. rewrite Hs.
    rewrite !(for_range_none _ _ _ _ Hm). split; reflexivity. }
  split; [ | exact Hnone]. split.
  - intros [e He]. destruct (leb zero (mul fa fb)) eqn:Hs.
    + unfold CLI.regula_falsi in He. rewrite Ha, Hb in He.
      cbn [bind] in He. rewrite Hs in He. discriminate He.
    + split; [reflexivity | ].
      destruct (Z.lt_ge_cases max_iter 1) as [Hm | Hm]; [exact Hm | ].
      exfalso.
      destruct (solver_raise_origin f f a b a a a tol max_iter e Hm)
        as (_ & Hrf & _).
      destruct (Hrf He) as [x Hx]. destruct (Htotal x) as [y Hy]. congruence.
  - intros (Hs & Hm). exists unbound. now apply Hnone.
Qed.

(** X13 at work on binary64: [f(x) = x] on [[-1, 1]] with [max_iter = 0]. *)
Lemma regula_falsi_raises_only_without_iteration_witness :
  let f : CLI.fn := fun x : float => Ok x in
  let unbound := UnboundLocalError
    "cannot access local variable 'c' where it is not associated with a value"
  in
  ((exists e, CLI.regula_falsi f (-1)%float 1%float 0.1%float 0 = Raise e) <->
   leb zero (mul (-1)%float 1%float) = false /\ (0 < 1)%Z) /\
  (leb zero (mul (-1)%float 1%float) = false -> (0 < 1)%Z ->
   CLI.regula_falsi f (-1)%float 1%float 0.1%float 0 = Raise unbound /\
   App.run_regula_falsi (fun _ _ => ""%string) f (-1)%float 1%float
     0.1%float 0 = Raise unbound).
Proof.
  intros f unbound.
  apply (regula_falsi_raises_only_without_iteration (fun _ _ => ""%string) f
           (-1)%float 1%float 0.1%float 0 (-1)%float 1%float).
  - intros x. exists x. reflexivity.
  - reflexivity.
  - reflexivity.
Defined.

(* ================================================================= *)
(** * Bisection converges in exact arithmetic *)

Section BisectionConverges.
Local Open Scope Q_scope.

Lemma power_of_two_positive (i : Z) : (0 <= i)%Z -> 0 < inject_Z (2 ^ i).
Proof.
  intros Hi. change 0 with (inject_Z 0). rewrite <- Zlt_Qlt.
  now apply Z.pow_pos_nonneg.
Qed.

(** Halving more often gives a width that is not larger. *)
Lemma halved_width_mono (w : Q) (i j : Z) :
  0 <= w -> (0 <= i <= j)%Z ->
  w / inject_Z (2 ^ j) <= w / inject_Z (2 ^ i).
Proof.
  intros Hw Hij. destruct (Z.eq_dec i j) as [-> | Hne]; [apply Qle_refl | ].
  unfold Qdiv. rewrite !(Qmult_comm w). apply Qmult_le_compat_r; [ | exact Hw].
  apply Qlt_le_weak.
  apply -> Qinv_lt_contravar; try (apply power_of_two_positive; lia).
  rewrite <- Zlt_Qlt. apply Z.pow_lt_mono_r; lia.
Qed.

Variable f : Q -> py Q.
Variables a b tol : Q.
Variable n : nat.

Hypothesis small : Qabs (b - a) / inject_Z (2 ^ Z.of_nat n) < tol.

(** One pass of bisection no later than pass [n + 1]: it stops by the
    convergence test, or it goes on and pass [n + 1] is still to come. *)
Lemma bisection_bounded_step (k : Z) (s : Q * Q * list (row Q)) :
  halving_inv a b k s /\ (k <= Z.of_nat n + 1)%Z ->
  match CLI.bisection_body f tol k s with
  | Ok (Next s') => halving_inv a b (k + 1) s' /\ (k + 1 <= Z.of_nat n + 1)%Z
  | Ok (Break (Success _ h)) =>
      Z.of_nat (List.length h) = k /\ (k <= Z.of_nat n + 1)%Z /\
      exists r, last_item h = Ok r /\ bisection_converged tol r = true
  | Ok (Break (Failure _)) => False
  | Raise _ => True
  end.
Proof.
  intros (Hinv & Hk).
  pose proof (bisection_halving_step f a b tol k s Hinv) as Hstep.
  destruct s as [[ak bk] h]. destruct Hinv as (Hk1 & Hlen & Hw & _).
  destruct (CLI.bisection_body f tol k (ak, bk, h))
    as [[[msg | root h'] | [[a' b'] h']] | e] eqn:Eb; auto.
  - now apply bisection_body_no_failure in Eb.
  - apply bisection_breaks in Eb. destruct Eb as (r & -> & Hr).
    cbn [snd]. rewrite length_app. cbn [List.length].
    split; [lia | ]. split; [exact Hk | ].
    exists r. split; [apply last_item_snoc | exact Hr].
  - split; [exact Hstep | ].
    apply bisection_body_next in Eb.
    destruct Eb as (c & fc & fa & _ & _ & _ & Htest & _ & _).
    apply orb_false_iff in Htest. destruct Htest as [_ Hwide].
    apply Q_ltb_false in Hwide.
    change (abs (sub bk ak)) with (Qabs (bk - ak)) in Hwide.
    destruct (Z_lt_le_dec (k - 1) (Z.of_nat n)) as [Hlt | Hge]; [lia | ].
    exfalso.
    pose proof (halved_width_mono (Qabs (b - a)) (Z.of_nat n) (k - 1)
                  (Qabs_nonneg _) ltac:(lia)) as Hmono.
    rewrite <- Hw in Hmono.
    apply (Qlt_irrefl tol).
    eapply Qle_lt_trans; [exact Hwide | ].
    eapply Qle_lt_trans; [exact Hmono | exact small].
Qed.
End BisectionConverges.

(** X14. In exact arithmetic bisection converges, and no later than the
    widths foretell: for a function that evaluates everywhere and changes
    sign over [[a, b]], if the initial width divided by [2 ^ n] is below
    [tol] and [n < max_iter], then [bisection] returns a success after at
    most [n + 1] iterations, and the last record meets the convergence
    test; the maximum of iterations is not reached unless it is
    [n + 1]. *)
Theorem bisection_converges_within (f : Q -> py Q) (a b fa fb tol : Q)
    (max_iter : Z) (n : nat) :
  (forall x, exists y, f x = Ok y) ->
  f a = Ok fa -> f b = Ok fb -> (fa * fb < 0)%Q ->
  (Qabs (b - a) / inject_Z (2 ^ Z.of_nat n) < tol)%Q ->
  (Z.of_nat n < max_iter)%Z ->
  exists root h r,
    CLI.bisection f a b tol max_iter = Ok (Success root h) /\
    (1 <= List.length h <= n + 1)%nat /\
    last_item h = Ok r /\ bisection_converged tol r = true.
Proof.
  intros Htotal Ha Hb Hp Hsmall Hn.
  assert (Hs : leb zero (mul fa fb) = false) by exact (Q_leb_negative _ Hp).
  unfold CLI.bisection. rewrite Ha, Hb. cbn [bind]. rewrite Hs.
  pose proof (for_range_inv_at (CLI.bisection_body f tol)
    (fun k s => halving_inv a b k s /\ (k <= Z.of_nat n + 1)%Z)
    (fun k o =>
       match o with
       | Success _ h =>
           Z.of_nat (List.length h) = k /\ (k <= Z.of_nat n + 1)%Z /\
           exists r, last_item h = Ok r /\ bisection_converged tol r = true
       | Failure _ => False
       end)) as L.
  specialize (L (fun k s Hinv =>
    bisection_bounded_step f a b tol n Hsmall k s Hinv)).
  specialize (L (Z.to_nat max_iter) 1%Z (a, b, [])).
  assert (H0 : halving_inv a b 1 (a, b, []) /\ (1 <= Z.of_nat n + 1)%Z).
  { split; [ | lia]. split; [lia | ]. split; [reflexivity | ].
    split; [ | apply halves_nil].
    change (inject_Z (2 ^ (1 - 1))) with 1%Q. unfold Qdiv.
    change (/ 1)%Q with 1%Q. now rewrite Qmult_1_r. }
  specialize (L H0).
  destruct (for_range (CLI.bisection_body f tol) 1 (Z.to_nat max_iter)
              (a, b, [])) as [[[msg | root h] | [[a' b'] h']] | e] eqn:El.
  - destruct L as (j & _ & []).
  - destruct L as (j & Hj & Hlen & Hle & r & Hr & Hc).
    exists root, h, r. cbn [bind]. split; [reflexivity | ].
    split; [lia | ]. split; assumption.
  - destruct L as (_ & Hle). lia.
  - exfalso. apply for_range_raise in El. destruct El as (j & s & Hraise).
    apply bisection_body_raise in Hraise. destruct Hraise as [x Hx].
    destruct (Htotal x) as [y Hy]. congruence.
Qed.

(** X14 at work: [f(x) = x**2 - 2] on [[1, 2]] with [tol = 1/4]; the width
    [1 / 2 ^ 3] is below [tol], so that four iterations suffice. *)
Lemma bisection_converges_within_witness :
  let f : Q -> py Q := fun x => Ok (x * x - 2)%Q in
  (Qabs (2 - 1) / inject_Z (2 ^ Z.of_nat 3) < 1 # 4)%Q /\
  (Z.of_nat 3 < 10)%Z /\
  exists root h r,
    CLI.bisection f 1%Q 2%Q (1 # 4)%Q 10 = Ok (Success root h) /\
    (1 <= List.length h <= 3 + 1)%nat /\
    last_item h = Ok r /\ bisection_converged (1 # 4)%Q r = true.
Proof.
  intros f.
  assert (Hsmall : (Qabs (2 - 1) / inject_Z (2 ^ Z.of_nat 3) < 1 # 4)%Q)
    by reflexivity.
  assert (Hn : (Z.of_nat 3 < 10)%Z) by (cbn; lia).
  split; [exact Hsmall | ]. split; [exact Hn | ].
  apply (bisection_converges_within f 1%Q 2%Q (1 * 1 - 2)%Q (2 * 2 - 2)%Q
           (1 # 4)%Q 10 3).
  - intros x. eexists. reflexivity.
  - reflexivity.
  - reflexivity.
  - reflexivity.
  - exact Hsmall.
  - exact Hn.
Defined.

(* ================================================================= *)
(** * Regula falsi never divides by zero in exact arithmetic *)

Section RegulaFalsiSucceeds.
Local Open Scope Q_scope.
Variable f : Q -> py Q.
Variables a b tol : Q.
Hypothesis tol_positive : 0 < tol.

Lemma square_nonnegative (x : Q) : 0 <= x * x.
Proof.
  destruct (Qlt_le_dec x 0) as [Hx | Hx].
  - assert (0 <= (- x) * (- x)) by (apply Qmult_le_0_compat; lra). lra.
  - now apply Qmult_le_0_compat.
Qed.

(** While [f] changes sign over the bracket, the denominator
    [f(b) - f(a)] of the false position is not zero. *)
Lemma regula_falsi_step_succeeds (i : Z)
    (s : Q * Q * option Q * list (row Q)) :
  regula_falsi_inv f a b s ->
  match CLI.regula_falsi_body f tol i s with
  | Ok (Next s') => regula_falsi_inv f a b s'
  | Ok (Break (Success root _)) => within a b root
  | Ok (Break (Failure _)) => False
  | Raise _ => True
  end.
Proof.
  intros Hinv.
  pose proof (regula_falsi_enclosure_step f a b tol tol_positive i s Hinv)
    as Hstep.
  destruct s as [[[ak bk] c0] h].
  destruct Hinv as (_ & _ & (fa0 & fb0 & Hfa & Hfb & Hp) & _).
  destruct (CLI.regula_falsi_body f tol i (ak, bk, c0, h))
    as [[[msg | root h'] | s'] | e] eqn:Eb; auto.
  - unfold CLI.regula_falsi_body in Eb. rewrite Hfa, Hfb in Eb.
    cbn [bind] in Eb.
    destruct (eqb (sub fb0 fa0) zero) eqn:Ez.
    + apply Qeq_bool_iff in Ez. change (fb0 - fa0 == 0) in Ez.
      assert (Heq : fb0 == fa0) by lra. rewrite Heq in Hp.
      pose proof (square_nonnegative fa0). lra.
    + body_cases Eb.
  - exact (proj1 Hstep).
Qed.
End RegulaFalsiSucceeds.

(** X15. In exact arithmetic regula falsi never fails once the sign test
    has passed: for a function that evaluates everywhere, with
    [f(a) * f(b) < 0], [tol > 0] and [max_iter >= 1], every bracket of the
    loop keeps a sign change, so that the denominator [f(b) - f(a)] is
    never zero, and [regula_falsi] returns a success with its root within
    [[min(a, b), max(a, b)]]. *)
Theorem regula_falsi_succeeds_exactly (f : Q -> py Q) (a b fa fb tol : Q)
    (max_iter : Z) :
  (forall x, exists y, f x = Ok y) ->
  (0 < tol)%Q -> (1 <= max_iter)%Z ->
  f a = Ok fa -> f b = Ok fb -> (fa * fb < 0)%Q ->
  exists root h,
    CLI.regula_falsi f a b tol max_iter = Ok (Success root h) /\
    within a b root.
Proof.
  intros Htotal Htol Hm Ha Hb Hp.
  assert (Hs : leb zero (mul fa fb) = false) by exact (Q_leb_negative _ Hp).
  unfold CLI.regula_falsi. rewrite Ha, Hb. cbn [bind]. rewrite Hs.
  pose proof (for_range_inv (CLI.regula_falsi_body f tol)
    (fun _ => regula_falsi_inv f a b)
    (fun o => match o with
              | Success root _ => within a b root
              | Failure _ => False
              end)
    (fun i s Hinv => regula_falsi_step_succeeds f a b tol Htol i s Hinv)
    (Z.to_nat max_iter) 1%Z (a, b, None, [])) as L.
  assert (H0 : regula_falsi_inv f a b (a, b, None, [])).
  { split; [apply within_left | ]. split; [apply within_right | ].
    split; [now exists fa, fb | ]. split; [apply trace_above_nil | ].
    discriminate. }
  specialize (L H0).
  destruct (for_range (CLI.regula_falsi_body f tol) 1 (Z.to_nat max_iter)
              (a, b, None, [])) as [[[msg | root h] | [[[a' b'] c] h']] | e]
    eqn:El.
  - destruct L.
  - exists root, h. split; [reflexivity | exact L].
  - destruct (exhausted_trace _ snd _ _ (regula_falsi_appends f tol)
                max_iter (a, b, None, []) _ Hm eq_refl El)
      as (_ & _ & r & _ & c' & Hc & _).
    cbn in Hc. subst c. exists c', h'. split; [reflexivity | ].
    destruct L as (_ & _ & _ & _ & Hc). now apply Hc.
  - exfalso. apply for_range_raise in El. destruct El as (j & s & Hraise).
    apply regula_falsi_body_raise in Hraise. destruct Hraise as [x Hx].
    destruct (Htotal x) as [y Hy]. congruence.
Qed.

(** X15 at work: [f(x) = x**2 - 2] on [[1, 2]]. *)
Lemma regula_falsi_succeeds_exactly_witness :
  let f : Q -> py Q := fun x => Ok (x * x - 2)%Q in
  exists root h,
    CLI.regula_falsi f 1%Q 2%Q (1 # 100)%Q 5 = Ok (Success root h) /\
    within 1%Q 2%Q root.
Proof.
  intros f.
  apply (regula_falsi_succeeds_exactly f 1%Q 2%Q (1 * 1 - 2)%Q (2 * 2 - 2)%Q
           (1 # 100)%Q 5).
  - intros x. eexists. reflexivity.
  - reflexivity.
  - lia.
  - reflexivity.
  - reflexivity.
  - reflexivity.
Defined.

(* ================================================================= *)
(** * How a loop ends *)

Section LoopEnds.
Context {A St : Type}.
Variable body : Z -> St -> py (ctl A St).

(** A loop ends with [r], a return or an exception, exactly when it comes
    to a pass that ends with [r]. *)
Lemma for_range_ends (r : py (ctl A St)) :
  (forall s, r <> Ok (Next s)) ->
  forall n i s0,
    for_range body i n s0 = r <->
    exists k s, (k < n)%nat /\ for_range body i k s0 = Ok (Next s) /\
                body (i + Z.of_nat k)%Z s = r.
Proof.
  intros Hr n. induction n as [ | n IH]; intros i s0.
  - split.
    + cbn. intros E. now destruct (Hr s0).
    + intros (k & s & Hk & _). lia.
  - split.
    + cbn [for_range]. intros E.
      destruct (body i s0) as [[a | s1] | e] eqn:Eb.
      * exists 0%nat, s0. split; [lia | ]. split; [reflexivity | ].
        now rewrite Z.add_0_r, Eb.
      * apply IH in E. destruct E as (k & s & Hk & Hn & Hb).
        exists (S k), s. split; [lia | ]. split.
        -- cbn [for_range]. now rewrite Eb.
        -- now replace (i + Z.of_nat (S k))%Z with (i + 1 + Z.of_nat k)%Z
             by lia.
      * exists 0%nat, s0. split; [lia | ]. split; [reflexivity | ].
        now rewrite Z.add_0_r, Eb.
    + intros (k & s & Hk & Hn & Hb). cbn [for_range].
      destruct k as [ | k].
      * cbn in Hn. injection Hn as ->. rewrite Z.add_0_r in Hb. rewrite Hb.
        destruct r as [[a | s1] | e]; try reflexivity. now destruct (Hr s1).
      * cbn [for_range] in Hn.
        destruct (body i s0) as [[a | s1] | e] eqn:Eb; try discriminate Hn.
        apply IH. exists k, s. split; [lia | ]. split; [exact Hn | ].
        now replace (i + 1 + Z.of_nat k)%Z with (i + Z.of_nat (S k))%Z by lia.
Qed.

(** The same for a way of ending that a pass takes exactly in the states
    of which [P] holds, whatever its index. *)
Lemma loop_ends_iff (r : py (ctl A St)) (P : St -> Prop) (max_iter : Z)
    (init : St) :
  (forall s, r <> Ok (Next s)) ->
  (forall i s, body i s = r <-> P s) ->
  for_range body 1 (Z.to_nat max_iter) init = r <->
  in_some_pass body max_iter init P.
Proof.
  intros Hr Hbody. rewrite (for_range_ends r Hr). unfold in_some_pass, enters.
  split.
  - intros (k & s & Hk & Hn & Hb). exists k, s. split; [now split | ].
    now apply (Hbody (1 + Z.of_nat k)%Z).
  - intros (k & s & (Hk & Hn) & Hp). exists k, s. split; [exact Hk | ].
    split; [exact Hn | ]. now apply Hbody.
Qed.
End LoopEnds.

Lemma in_some_pass_and {A St : Type} (body : Z -> St -> py (ctl A St))
    (max_iter : Z) (init : St) (Q : Prop) (P : St -> Prop) :
  in_some_pass body max_iter init (fun s => Q /\ P s) <->
  Q /\ in_some_pass body max_iter init P.
Proof.
  unfold in_some_pass. split.
  - intros (k & s & He & Hq & Hp). eauto.
  - intros (Hq & k & s & He & Hp). eauto.
Qed.

(* ================================================================= *)
(** * The passes that raise, and the passes that give up *)

Section PassEnds.
Context {R : Type} `{NumberLaws R}.
Local Open Scope num_scope.
Variables f df : R -> py R.
Variables delta tol : R.
Variable e : exn.
Variable i : Z.

Lemma bisection_body_raises (s : R * R * list (row R)) :
  CLI.bisection_body f tol i s = Raise e <->
  bisection_evaluation_raises f tol e s.
Proof.
  destruct s as [[a b] h]. unfold CLI.bisection_body.
  rewrite pydiv_two. cbn [bind bisection_evaluation_raises]. split.
  - intros Hb.
    destruct (f (div (a + b) two)) as [fc | e1]; cbn [bind] in Hb.
    + destruct ((abs fc <? tol) || (abs (b - a) <? tol)) eqn:Et;
        [discriminate Hb | ].
      destruct (f a) as [fa | e2]; cbn [bind] in Hb.
      * destruct (fa * fc <? zero); discriminate Hb.
      * injection Hb as ->. right. now exists fc.
    + injection Hb as ->. now left.
  - intros [Hc | (fc & Hc & Ht & Ha)]; rewrite Hc; cbn [bind];
      [reflexivity | ].
    now rewrite Ht, Ha.
Qed.

Lemma regula_falsi_body_raises (s : R * R * option R * list (row R)) :
  CLI.regula_falsi_body f tol i s = Raise e <->
  regula_falsi_evaluation_raises f e s.
Proof.
  destruct s as [[[a b] c0] h].
  unfold CLI.regula_falsi_body, regula_falsi_evaluation_raises. split.
  - intros Hb.
    destruct (f a) as [fa | e1] eqn:Ea; cbn [bind] in Hb;
      [ | injection Hb as ->; now left].
    right. exists fa. split; [reflexivity | ].
    destruct (f b) as [fb | e2]; cbn [bind] in Hb;
      [ | injection Hb as ->; now left].
    right. exists fb. split; [reflexivity | ].
    destruct (fb - fa ==? zero) eqn:Ez; [discriminate Hb | ].
    split; [reflexivity | ].
    rewrite (pydiv_guarded _ _ Ez) in Hb. cbn [bind] in Hb.
    destruct (f (div (a * fb - b * fa) (fb - fa))) as [fc | e3];
      cbn [bind] in Hb; [ | now injection Hb as ->].
    destruct (abs fc <? tol); [discriminate Hb | ].
    cbn [bind] in Hb. destruct (fa * fc <? zero); discriminate Hb.
  - intros [Ha | (fa & Ha & [Hb | (fb & Hb & Ez & Hc)])]; rewrite Ha;
      cbn [bind]; try reflexivity; rewrite Hb; cbn [bind]; try reflexivity.
    rewrite Ez, (pydiv_guarded _ _ Ez). cbn [bind]. now rewrite Hc.
Qed.

Lemma secant_body_raises (s : R * R * list (row R)) :
  CLI.secant_body f tol i s = Raise e <-> secant_evaluation_raises f e s.
Proof.
  destruct s as [[x0 x1] h].
  unfold CLI.secant_body, secant_evaluation_raises. split.
  - intros Hb.
    destruct (f x0) as [fx0 | e1]; cbn [bind] in Hb;
      [ | injection Hb as ->; now left].
    right. exists fx0. split; [reflexivity | ].
    destruct (f x1) as [fx1 | e2]; cbn [bind] in Hb;
      [ | now injection Hb as ->].
    destruct (fx1 - fx0 ==? zero) eqn:Ez; [discriminate Hb | ].
    rewrite (pydiv_guarded _ _ Ez) in Hb. cbn [bind] in Hb.
    destruct (_ <? _); discriminate Hb.
  - intros [Ha | (fx0 & Ha & Hb)]; rewrite Ha; cbn [bind];
      [reflexivity | now rewrite Hb].
Qed.

Lemma newton_raphson_body_raises (s : R * list (row R)) :
  CLI.newton_raphson_body f df tol i s = Raise e <->
  newton_raphson_evaluation_raises f df e s.
Proof.
  destruct s as [x h].
  unfold CLI.newton_raphson_body, newton_raphson_evaluation_raises. split.
  - intros Hb.
    destruct (f x) as [fx | e1]; cbn [bind] in Hb;
      [ | injection Hb as ->; now left].
    right. exists fx. split; [reflexivity | ].
    destruct (df x) as [dfx | e2]; cbn [bind] in Hb;
      [ | now injection Hb as ->].
    destruct (dfx ==? zero) eqn:Ez; [discriminate Hb | ].
    rewrite (pydiv_guarded _ _ Ez) in Hb. cbn [bind] in Hb.
    destruct (_ <? _); discriminate Hb.
  - intros [Ha | (fx & Ha & Hb)]; rewrite Ha; cbn [bind];
      [reflexivity | now rewrite Hb].
Qed.

Lemma fixed_point_body_raises (s : R * list (row R)) :
  CLI.fixed_point_body f tol i s = Raise e <->
  fixed_point_evaluation_raises f e s.
Proof.
  destruct s as [x h].
  unfold CLI.fixed_point_body, fixed_point_evaluation_raises. split.
  - intros Hb.
    destruct (f x) as [gx | e1]; cbn [bind] in Hb;
      [ | now injection Hb as ->].
    destruct (_ <? tol); [discriminate Hb | ].
    destruct (_ <? _); discriminate Hb.
  - intros Ha. now rewrite Ha.
Qed.

Lemma modified_secant_body_raises (s : R * list (row R)) :
  CLI.modified_secant_body f delta tol i s = Raise e <->
  modified_secant_evaluation_raises f delta e s.
Proof.
  destruct s as [x h].
  unfold CLI.modified_secant_body, modified_secant_evaluation_raises. split.
  - intros Hb.
    destruct (f x) as [fx | e1]; cbn [bind] in Hb;
      [ | injection Hb as ->; now left].
    right. exists fx. split; [reflexivity | ].
    destruct (f (x + delta)) as [fxd | e2]; cbn [bind] in Hb;
      [ | now injection Hb as ->].
    destruct (fxd - fx ==? zero) eqn:Ez; [discriminate Hb | ].
    rewrite (pydiv_guarded _ _ Ez) in Hb. cbn [bind] in Hb.
    destruct (_ <? _); discriminate Hb.
  - intros [Ha | (fx & Ha & Hb)]; rewrite Ha; cbn [bind];
      [reflexivity | now rewrite Hb].
Qed.
End PassEnds.

Section PassGivesUp.
Context {R : Type} `{Number R}.
Local Open Scope num_scope.
Variables f df : R -> py R.
Variables delta tol : R.
Variable msg : string.
Variable i : Z.

Lemma regula_falsi_body_gives_up (s : R * R * option R * list (row R)) :
  CLI.regula_falsi_body f tol i s = Ok (Break (Failure msg)) <->
  msg = "Division by zero encountered." /\ regula_falsi_singular f s.
Proof.
  destruct s as [[[a b] c0] h].
  unfold CLI.regula_falsi_body, regula_falsi_singular. split.
  - intros Hb.
    destruct (f a) as [fa | ]; cbn [bind] in Hb; [ | discriminate Hb].
    destruct (f b) as [fb | ]; cbn [bind] in Hb; [ | discriminate Hb].
    destruct (fb - fa ==? zero) eqn:Ez.
    + injection Hb as <-. split; [reflexivity | now exists fa, fb].
    + body_cases Hb.
  - intros (-> & fa & fb & Ha & Hb & Ez). rewrite Ha, Hb. cbn [bind].
    now rewrite Ez.
Qed.

Lemma secant_body_gives_up (s : R * R * list (row R)) :
  CLI.secant_body f tol i s = Ok (Break (Failure msg)) <->
  msg = "Division by zero: f(x1) - f(x0) is zero." /\ secant_singular f s.
Proof.
  destruct s as [[x0 x1] h]. unfold CLI.secant_body, secant_singular. split.
  - intros Hb.
    destruct (f x0) as [fx0 | ]; cbn [bind] in Hb; [ | discriminate Hb].
    destruct (f x1) as [fx1 | ]; cbn [bind] in Hb; [ | discriminate Hb].
    destruct (fx1 - fx0 ==? zero) eqn:Ez.
    + injection Hb as <-. split; [reflexivity | now exists fx0, fx1].
    + body_cases Hb.
  - intros (-> & fx0 & fx1 & Ha & Hb & Ez). rewrite Ha, Hb. cbn [bind].
    now rewrite Ez.
Qed.

Lemma newton_raphson_body_gives_up (s : R * list (row R)) :
  CLI.newton_raphson_body f df tol i s = Ok (Break (Failure msg)) <->
  msg = "Derivative is zero. Method fails." /\ newton_raphson_singular f df s.
Proof.
  destruct s as [x h].
  unfold CLI.newton_raphson_body, newton_raphson_singular. split.
  - intros Hb.
    destruct (f x) as [fx | ]; cbn [bind] in Hb; [ | discriminate Hb].
    destruct (df x) as [dfx | ]; cbn [bind] in Hb; [ | discriminate Hb].
    destruct (dfx ==? zero) eqn:Ez.
    + injection Hb as <-. split; [reflexivity | now exists fx, dfx].
    + body_cases Hb.
  - intros (-> & fx & dfx & Ha & Hb & Ez). rewrite Ha, Hb. cbn [bind].
    now rewrite Ez.
Qed.

Lemma fixed_point_body_gives_up (s : R * list (row R)) :
  CLI.fixed_point_body f tol i s = Ok (Break (Failure msg)) <->
  msg = "Method diverged." /\ fixed_point_diverges f tol s.
Proof.
  destruct s as [x h].
  unfold CLI.fixed_point_body, fixed_point_diverges. split.
  - intros Hb.
    destruct (f x) as [gx | ]; cbn [bind] in Hb; [ | discriminate Hb].
    destruct (abs (gx - x) <? tol) eqn:Et; [discriminate Hb | ].
    destruct (ten_pow_10 <? abs (gx - x)) eqn:Ed; [ | discriminate Hb].
    injection Hb as <-. split; [reflexivity | now exists gx].
  - intros (-> & gx & Ha & Et & Ed). rewrite Ha. cbn [bind].
    now rewrite Et, Ed.
Qed.

Lemma modified_secant_body_gives_up (s : R * list (row R)) :
  CLI.modified_secant_body f delta tol i s = Ok (Break (Failure msg)) <->
  msg = "Division by zero in Modified Secant." /\
  modified_secant_singular f delta s.
Proof.
  destruct s as [x h].
  unfold CLI.modified_secant_body, modified_secant_singular. split.
  - intros Hb.
    destruct (f x) as [fx | ]; cbn [bind] in Hb; [ | discriminate Hb].
    destruct (f (x + delta)) as [fxd | ]; cbn [bind] in Hb;
      [ | discriminate Hb].
    destruct (fxd - fx ==? zero) eqn:Ez.
    + injection Hb as <-. split; [reflexivity | now exists fx, fxd].
    + body_cases Hb.
  - intros (-> & fx & fxd & Ha & Hb & Ez). rewrite Ha, Hb. cbn [bind].
    now rewrite Ez.
Qed.
End PassGivesUp.

(* ================================================================= *)
(** * The runs that give up, and the runs that raise *)

(** The loop of a solver gives up exactly when the solver does: after the
    loop the solver returns a success. *)
Ltac after_the_loop :=
  match goal with
  | |- context [for_range ?body ?i ?n ?s] =>
      destruct (for_range body i n s) as [[? | ?] | ?]; cbn [bind];
      repeat match goal with
             | p : (_ * _)%type |- _ => destruct p
             | c : option _ |- _ => destruct c
             end;
      cbn [bind];
      try match goal with
          | |- context [pydiv ?x ?y] => destruct (pydiv x y)
          end;
      cbn [bind];
      split; intros E; try discriminate E; try (injection E as ->);
      try reflexivity
  end.

Ltac not_going_on := intros ? E; discriminate E.

Section RunsGiveUp.
Context {R : Type} `{Number R}.
Local Open Scope num_scope.
Variables f df : R -> py R.
Variables a b x0 x1 delta tol : R.
Variable max_iter : Z.
Variable msg : string.

Lemma bisection_gives_up :
  CLI.bisection f a b tol max_iter = Ok (Failure msg) <->
  msg = "Bisection fails: f(a) and f(b) must have opposite signs." /\
  sign_test_fails f a b.
Proof.
  unfold CLI.bisection, sign_test_fails. split.
  - intros Hr.
    destruct (f a) as [fa | ]; cbn [bind] in Hr; [ | discriminate Hr].
    destruct (f b) as [fb | ]; cbn [bind] in Hr; [ | discriminate Hr].
    destruct (zero <=? fa * fb) eqn:Es.
    + injection Hr as <-. split; [reflexivity | now exists fa, fb].
    + exfalso.
      destruct (for_range _ _ _ _) as [[o | [[a' b'] h]] | e] eqn:El;
        cbn [bind] in Hr; try discriminate Hr.
      * injection Hr as ->.
        now apply (for_range_failure _ (fun _ => False)
                     (bisection_body_no_failure f tol)) in El.
      * destruct (pydiv (a' + b') two); discriminate Hr.
  - intros (-> & fa & fb & Ea & Eb & Es). rewrite Ea, Eb. cbn [bind].
    now rewrite Es.
Qed.

Lemma regula_falsi_gives_up :
  CLI.regula_falsi f a b tol max_iter = Ok (Failure msg) <->
  (msg = "Regula Falsi fails: f(a) and f(b) must have opposite signs." /\
   sign_test_fails f a b) \/
  (msg = "Division by zero encountered." /\ sign_test_passes f a b /\
   in_some_pass (CLI.regula_falsi_body f tol) max_iter (a, b, None, [])
     (regula_falsi_singular f)).
Proof.
  unfold CLI.regula_falsi, sign_test_fails, sign_test_passes.
  destruct (f a) as [fa | e1]; cbn [bind].
  2: { split; [discriminate | ].
       intros [(_ & ? & ? & Ha & _) | (_ & (? & ? & Ha & _) & _)];
         discriminate Ha. }
  destruct (f b) as [fb | e2]; cbn [bind].
  2: { split; [discriminate | ].
       intros [(_ & ? & ? & _ & Hb & _) | (_ & (? & ? & _ & Hb & _) & _)];
         discriminate Hb. }
  destruct (zero <=? fa * fb) eqn:Es.
  - split.
    + intros [= <-]. left. split; [reflexivity | now exists fa, fb].
    + intros [(-> & _) | (_ & (? & ? & [= <-] & [= <-] & Hs) & _)];
        [reflexivity | congruence].
  - transitivity (for_range (CLI.regula_falsi_body f tol) 1
                    (Z.to_nat max_iter) (a, b, None, [])
                  = Ok (Break (Failure msg))).
    { after_the_loop. }
    rewrite (loop_ends_iff _ _
               (fun s => msg = "Division by zero encountered." /\
                         regula_falsi_singular f s));
      [ | not_going_on | intros; apply regula_falsi_body_gives_up].
    rewrite in_some_pass_and. split.
    + intros (-> & Hp). right. split; [reflexivity | ].
      split; [now exists fa, fb | exact Hp].
    + intros [(_ & ? & ? & [= <-] & [= <-] & Hs) | (-> & _ & Hp)];
        [congruence | now split].
Qed.

Lemma secant_gives_up :
  CLI.secant f x0 x1 tol max_iter = Ok (Failure msg) <->
  msg = "Division by zero: f(x1) - f(x0) is zero." /\
  in_some_pass (CLI.secant_body f tol) max_iter (x0, x1, [])
    (secant_singular f).
Proof.
  unfold CLI.secant.
  transitivity (for_range (CLI.secant_body f tol) 1 (Z.to_nat max_iter)
                  (x0, x1, []) = Ok (Break (Failure msg))).
  { after_the_loop. }
  rewrite <- in_some_pass_and.
  apply loop_ends_iff; [not_going_on | intros; apply secant_body_gives_up].
Qed.

Lemma newton_raphson_gives_up :
  CLI.newton_raphson f df x0 tol max_iter = Ok (Failure msg) <->
  msg = "Derivative is zero. Method fails." /\
  in_some_pass (CLI.newton_raphson_body f df tol) max_iter (x0, [])
    (newton_raphson_singular f df).
Proof.
  unfold CLI.newton_raphson.
  transitivity (for_range (CLI.newton_raphson_body f df tol) 1
                  (Z.to_nat max_iter) (x0, []) = Ok (Break (Failure msg))).
  { after_the_loop. }
  rewrite <- in_some_pass_and.
  apply loop_ends_iff;
    [not_going_on | intros; apply newton_raphson_body_gives_up].
Qed.

Lemma fixed_point_gives_up :
  CLI.fixed_point f x0 tol max_iter = Ok (Failure msg) <->
  msg = "Method diverged." /\
  in_some_pass (CLI.fixed_point_body f tol) max_iter (x0, [])
    (fixed_point_diverges f tol).
Proof.
  unfold CLI.fixed_point.
  transitivity (for_range (CLI.fixed_point_body f tol) 1 (Z.to_nat max_iter)
                  (x0, []) = Ok (Break (Failure msg))).
  { after_the_loop. }
  rewrite <- in_some_pass_and.
  apply loop_ends_iff;
    [not_going_on | intros; apply fixed_point_body_gives_up].
Qed.

Lemma modified_secant_gives_up :
  CLI.modified_secant f x0 delta tol max_iter = Ok (Failure msg) <->
  msg = "Division by zero in Modified Secant." /\
  in_some_pass (CLI.modified_secant_body f delta tol) max_iter (x0, [])
    (modified_secant_singular f delta).
Proof.
  unfold CLI.modified_secant.
  transitivity (for_range (CLI.modified_secant_body f delta tol) 1
                  (Z.to_nat max_iter) (x0, []) = Ok (Break (Failure msg))).
  { after_the_loop. }
  rewrite <- in_some_pass_and.
  apply loop_ends_iff;
    [not_going_on | intros; apply modified_secant_body_gives_up].
Qed.
End RunsGiveUp.

(** X6. Each method gives up on its own condition, and only on it, with its
    own message.  Bisection and regula falsi fail when the sign test
    [f(a) * f(b) >= 0] holds; bisection never fails once it has entered its
    loop.  Regula falsi fails moreover when a pass that the loop comes to
    finds [f(b) - f(a) == 0]; secant when one finds [f(x1) - f(x0) == 0];
    Newton-Raphson when one finds [df(x) == 0]; fixed point when the step
    of one is not below [tol] and is above [1e10]; modified secant when one
    finds [f(x + delta) - f(x) == 0].  In each case the evaluations of that
    pass have a value, and the passes before it all went on. *)
Theorem failures_and_their_causes {R : Type} {N : Number R}
    (f df : R -> py R) (a b x0 x1 delta tol : R) (max_iter : Z)
    (msg : string) :
  (CLI.bisection f a b tol max_iter = Ok (Failure msg) <->
   msg = "Bisection fails: f(a) and f(b) must have opposite signs." /\
   sign_test_fails f a b)
  /\
  (CLI.regula_falsi f a b tol max_iter = Ok (Failure msg) <->
   (msg = "Regula Falsi fails: f(a) and f(b) must have opposite signs." /\
    sign_test_fails f a b) \/
   (msg = "Division by zero encountered." /\ sign_test_passes f a b /\
    in_some_pass (CLI.regula_falsi_body f tol) max_iter (a, b, None, [])
      (regula_falsi_singular f)))
  /\
  (CLI.secant f x0 x1 tol max_iter = Ok (Failure msg) <->
   msg = "Division by zero: f(x1) - f(x0) is zero." /\
   in_some_pass (CLI.secant_body f tol) max_iter (x0, x1, [])
     (secant_singular f))
  /\
  (CLI.newton_raphson f df x0 tol max_iter = Ok (Failure msg) <->
   msg = "Derivative is zero. Method fails." /\
   in_some_pass (CLI.newton_raphson_body f df tol) max_iter (x0, [])
     (newton_raphson_singular f df))
  /\
  (CLI.fixed_point f x0 tol max_iter = Ok (Failure msg) <->
   msg = "Method diverged." /\
   in_some_pass (CLI.fixed_point_body f tol) max_iter (x0, [])
     (fixed_point_diverges f tol))
  /\
  (CLI.modified_secant f x0 delta tol max_iter = Ok (Failure msg) <->
   msg = "Division by zero in Modified Secant." /\
   in_some_pass (CLI.modified_secant_body f delta tol) max_iter (x0, [])
     (modified_secant_singular f delta)).
Proof.
  split; [apply bisection_gives_up | ].
  split; [apply regula_falsi_gives_up | ].
  split; [apply secant_gives_up | ].
  split; [apply newton_raphson_gives_up | ].
  split; [apply fixed_point_gives_up | apply modified_secant_gives_up].
Qed.

(** X6 at work on binary64.  Newton-Raphson for [x**2 - 1] from [x0 = 0]
    gives up in its first pass, where the derivative [2 * x] is zero; the
    fixed-point iteration of [g(x) = 1e6 * x] from [x0 = 1] goes on until a
    step is above [1e10]. *)
Lemma failures_and_their_causes_witness :
  let f : CLI.fn := fun x => Ok (x * x - 1)%float in
  let df : CLI.fn := fun x => Ok (2 * x)%float in
  let g : CLI.fn := fun x => Ok (1000000 * x)%float in
  in_some_pass (CLI.newton_raphson_body f df 0.001%float) 50 (0%float, [])
    (newton_raphson_singular f df) /\
  in_some_pass (CLI.fixed_point_body g 0.001%float) 50 (1%float, [])
    (fixed_point_diverges g 0.001%float).
Proof.
  intros f df g.
  destruct (failures_and_their_causes f df 0%float 0%float 0%float 0%float
              0%float 0.001%float 50 "Derivative is zero. Method fails.")
    as (_ & _ & _ & (Hn & _) & _).
  destruct (failures_and_their_causes g g 0%float 0%float 1%float 0%float
              0%float 0.001%float 50 "Method diverged.")
    as (_ & _ & _ & _ & (Hg & _) & _).
  split.
  - apply Hn. vm_compute. reflexivity.
  - apply Hg. vm_compute. reflexivity.
Defined.

(* ================================================================= *)
(** * Exceptions of the compiled function leave the solvers (C7) *)

Section RunsRaise.
Context {R : Type} `{NumberLaws R}.
Local Open Scope num_scope.
Variables f df : R -> py R.
Variables a b x0 x1 delta tol : R.
Variable max_iter : Z.
Variable e : exn.

Ltac loop_raises :=
  match goal with
  | |- context [for_range ?body ?i ?n ?s] =>
      destruct (for_range body i n s) as [[? | ?] | ?]; cbn [bind];
      repeat match goal with
             | p : (_ * _)%type |- _ => destruct p
             end;
      cbn [bind]; rewrite ?pydiv_two; cbn [bind];
      split; intros E; try discriminate E; try (injection E as ->);
      try reflexivity
  end.

(** Bisection raises exactly when its run visits a point at which the
    evaluation of [f] raises. *)
Lemma bisection_raises :
  CLI.bisection f a b tol max_iter = Raise e <->
  bisection_visits_failure f a b tol max_iter e.
Proof.
  unfold CLI.bisection, bisection_visits_failure, sign_test_raises,
    sign_test_passes.
  destruct (f a) as [fa | e1]; cbn [bind].
  2: { split.
       - intros [= ->]. now left; left.
       - intros [[[= ->] | (? & Ha & _)] | ((? & ? & Ha & _) & _)];
           [reflexivity | discriminate Ha | discriminate Ha]. }
  destruct (f b) as [fb | e2]; cbn [bind].
  2: { split.
       - intros [= ->]. left; right. now exists fa.
       - intros [[Ha | (? & _ & [= ->])] | ((? & ? & _ & Hb & _) & _)];
           [discriminate Ha | reflexivity | discriminate Hb]. }
  destruct (zero <=? fa * fb) eqn:Es.
  - split; [discriminate | ].
    intros [[Ha | (? & _ & Hb)] | ((? & ? & [= <-] & [= <-] & Hs) & _)];
      [discriminate Ha | discriminate Hb | congruence].
  - transitivity (for_range (CLI.bisection_body f tol) 1 (Z.to_nat max_iter)
                    (a, b, []) = Raise e).
    { loop_raises. }
    rewrite (loop_ends_iff _ _ (bisection_evaluation_raises f tol e));
      [ | not_going_on | intros; apply bisection_body_raises].
    split.
    + intros Hp. right. split; [now exists fa, fb | exact Hp].
    + intros [[Ha | (? & _ & Hb)] | (_ & Hp)];
        [discriminate Ha | discriminate Hb | exact Hp].
Qed.

(** Regula falsi as well, once [max_iter >= 1]; without a pass its
    [return c] raises by itself. *)
Lemma regula_falsi_raises :
  (1 <= max_iter)%Z ->
  CLI.regula_falsi f a b tol max_iter = Raise e <->
  regula_falsi_visits_failure f a b tol max_iter e.
Proof.
  intros Hm.
  unfold CLI.regula_falsi, regula_falsi_visits_failure, sign_test_raises,
    sign_test_passes.
  destruct (f a) as [fa | e1]; cbn [bind].
  2: { split.
       - intros [= ->]. now left; left.
       - intros [[[= ->] | (? & Ha & _)] | ((? & ? & Ha & _) & _)];
           [reflexivity | discriminate Ha | discriminate Ha]. }
  destruct (f b) as [fb | e2]; cbn [bind].
  2: { split.
       - intros [= ->]. left; right. now exists fa.
       - intros [[Ha | (? & _ & [= ->])] | ((? & ? & _ & Hb & _) & _)];
           [discriminate Ha | reflexivity | discriminate Hb]. }
  destruct (zero <=? fa * fb) eqn:Es.
  - split; [discriminate | ].
    intros [[Ha | (? & _ & Hb)] | ((? & ? & [= <-] & [= <-] & Hs) & _)];
      [discriminate Ha | discriminate Hb | congruence].
  - transitivity (for_range (CLI.regula_falsi_body f tol) 1
                    (Z.to_nat max_iter) (a, b, None, []) = Raise e).
    { destruct (for_range (CLI.regula_falsi_body f tol) 1 (Z.to_nat max_iter)
                  (a, b, None, [])) as [[o | [[[a' b'] c] h]] | e'] eqn:El;
        cbn [bind].
      - split; discriminate.
      - destruct (exhausted_trace _ snd _ _ (regula_falsi_appends f tol)
                    max_iter (a, b, None, []) _ Hm eq_refl El)
          as (_ & _ & r & _ & c' & Hc & _).
        cbn in Hc. subst c. split; discriminate.
      - split; intros [= ->]; reflexivity. }
    rewrite (loop_ends_iff _ _ (regula_falsi_evaluation_raises f e));
      [ | not_going_on | intros; apply regula_falsi_body_raises].
    split.
    + intros Hp. right. split; [now exists fa, fb | exact Hp].
    + intros [[Ha | (? & _ & Hb)] | (_ & Hp)];
        [discriminate Ha | discriminate Hb | exact Hp].
Qed.

(** A pass is entered only when [max_iter >= 1]. *)
Lemma in_some_pass_positive {A St : Type} (body : Z -> St -> py (ctl A St))
    (init : St) (P : St -> Prop) :
  in_some_pass body max_iter init P -> (1 <= max_iter)%Z.
Proof. intros (k & s & (Hk & _) & _). lia. Qed.

Lemma regula_falsi_visit_raises :
  regula_falsi_visits_failure f a b tol max_iter e ->
  CLI.regula_falsi f a b tol max_iter = Raise e.
Proof.
  intros Hv. destruct (Z.lt_ge_cases max_iter 1) as [Hlt | Hge].
  - destruct Hv as [Hs | (_ & Hp)].
    + unfold CLI.regula_falsi.
      destruct Hs as [Ha | (fa & Ha & Hb)]; rewrite Ha; cbn [bind];
        [reflexivity | now rewrite Hb].
    + apply in_some_pass_positive in Hp. lia.
  - now apply regula_falsi_raises.
Qed.

Lemma secant_raises :
  CLI.secant f x0 x1 tol max_iter = Raise e <->
  secant_visits_failure f x0 x1 tol max_iter e.
Proof.
  unfold CLI.secant, secant_visits_failure.
  transitivity (for_range (CLI.secant_body f tol) 1 (Z.to_nat max_iter)
                  (x0, x1, []) = Raise e).
  { loop_raises. }
  apply loop_ends_iff; [not_going_on | intros; apply secant_body_raises].
Qed.

Lemma newton_raphson_raises :
  CLI.newton_raphson f df x0 tol max_iter = Raise e <->
  newton_raphson_visits_failure f df x0 tol max_iter e.
Proof.
  unfold CLI.newton_raphson, newton_raphson_visits_failure.
  transitivity (for_range (CLI.newton_raphson_body f df tol) 1
                  (Z.to_nat max_iter) (x0, []) = Raise e).
  { loop_raises. }
  apply loop_ends_iff;
    [not_going_on | intros; apply newton_raphson_body_raises].
Qed.

Lemma fixed_point_raises :
  CLI.fixed_point f x0 tol max_iter = Raise e <->
  fixed_point_visits_failure f x0 tol max_iter e.
Proof.
  unfold CLI.fixed_point, fixed_point_visits_failure.
  transitivity (for_range (CLI.fixed_point_body f tol) 1 (Z.to_nat max_iter)
                  (x0, []) = Raise e).
  { loop_raises. }
  apply loop_ends_iff; [not_going_on | intros; apply fixed_point_body_raises].
Qed.

Lemma modified_secant_raises :
  CLI.modified_secant f x0 delta tol max_iter = Raise e <->
  modified_secant_visits_failure f x0 delta tol max_iter e.
Proof.
  unfold CLI.modified_secant, modified_secant_visits_failure.
  transitivity (for_range (CLI.modified_secant_body f delta tol) 1
                  (Z.to_nat max_iter) (x0, []) = Raise e).
  { loop_raises. }
  apply loop_ends_iff;
    [not_going_on | intros; apply modified_secant_body_raises].
Qed.
End RunsRaise.

(* ================================================================= *)
(** * Runs on the console *)

Section Runs.
Context {A B : Type}.

Lemma runs_ret (a : A) : runs (io_ret a) [] (Ok a) [].
Proof. intros rest out. unfold io_ret. cbn. now rewrite app_nil_r. Qed.

Lemma runs_lift (m : py A) : runs (lift m) [] m [].
Proof. intros rest out. unfold lift. cbn. now rewrite app_nil_r. Qed.

Lemma runs_bind (m : io A) (k : A -> io B) (l1 l2 : list string) (a : A)
    (p1 p2 : list string) (r : py B) :
  runs m l1 (Ok a) p1 -> runs (k a) l2 r p2 ->
  runs (io_bind m k) (l1 ++ l2) r (p1 ++ p2).
Proof.
  intros Hm Hk rest out. unfold io_bind.
  rewrite <- app_assoc, (Hm (l2 ++ rest)%list out), (Hk rest (out ++ p1)%list).
  now rewrite app_assoc.
Qed.

Lemma runs_bind_ret (m : io A) (b : B) (l : list string) (a : A)
    (p : list string) :
  runs m l (Ok a) p -> runs (io_bind m (fun _ => io_ret b)) l (Ok b) p.
Proof. intros Hm rest out. unfold io_bind. now rewrite (Hm rest out). Qed.

Lemma runs_raise (m : io A) (k : A -> io B) (l : list string) (e : exn)
    (p : list string) :
  runs m l (Raise e) p -> runs (io_bind m k) l (Raise e) p.
Proof. intros Hm rest out. unfold io_bind. now rewrite (Hm rest out). Qed.
End Runs.

Lemma runs_print (s : string) : runs (print s) [] (Ok tt) [s].
Proof. intros rest out. reflexivity. Qed.

Lemma runs_input (prompt l : string) : runs (input prompt) [l] (Ok l) [prompt].
Proof. intros rest out. reflexivity. Qed.

(** The [try] of [main] around a run that raises. *)
Lemma runs_caught (m : io unit) (l : list string) (e : exn)
    (p : list string) :
  runs m l (Raise e) p ->
  runs (try_except m CLI.main_except) l (Ok tt)
    (p ++ [("An error occurred: " ++ str_exn e)%string]).
Proof.
  intros Hm rest out. unfold try_except. rewrite (Hm rest out).
  unfold CLI.main_except, print. cbn [stdin stdout]. now rewrite app_assoc.
Qed.

Ltac prints_line :=
  match goal with
  | |- runs (io_bind (print ?s) ?k) ?l ?r (?s' :: ?P) =>
      change (runs (io_bind (print s) k) ([] ++ l) r ([s'] ++ P));
      eapply runs_bind; [apply runs_print | cbv beta]
  end.

Ltac reads_line :=
  match goal with
  | |- runs (io_bind (input ?q) ?k) (?x :: ?l) ?r (?q' :: ?P) =>
      change (runs (io_bind (input q) k) ([x] ++ l) r ([q'] ++ P));
      eapply runs_bind; [apply runs_input | cbv beta]
  end.

Ltac reads_number H :=
  match goal with
  | |- runs (io_bind ?m ?k) (?x :: ?l) ?r (?q' :: ?P) =>
      change (runs (io_bind m k) ([x] ++ l) r ([q'] ++ P));
      eapply runs_bind; [apply H; eassumption | cbv beta]
  end.

Section ConsoleRuns.
Context {R : Type} `{Number R}.
Variable expr : Type.
Variable sympify : string -> py expr.
Variable lambdify : expr -> R -> py R.
Variable diff : expr -> expr.
Variable str_expr : expr -> string.
Variable float_of_string : string -> py R.
Variable int_of_string : string -> py Z.
Variable format_num : string -> R -> string.

Let solve : string -> (R -> py R) -> expr -> R -> Z -> io (outcome R) :=
  CLI.solve expr lambdify diff str_expr float_of_string.

Let main_try : string -> io unit :=
  CLI.main_try expr sympify lambdify diff str_expr float_of_string
    int_of_string format_num.

Let main_pass : io bool :=
  CLI.main_pass expr sympify lambdify diff str_expr float_of_string
    int_of_string format_num.

Lemma runs_input_float (prompt l : string) (x : R) :
  float_of_string l = Ok x ->
  runs (CLI.input_float float_of_string prompt) [l] (Ok x) [prompt].
Proof.
  intros Hx rest out. unfold CLI.input_float, io_bind, input, lift.
  cbn [app stdin stdout]. now rewrite Hx.
Qed.

Lemma runs_input_int (prompt l : string) (n : Z) :
  int_of_string l = Ok n ->
  runs (CLI.input_int int_of_string prompt) [l] (Ok n) [prompt].
Proof.
  intros Hn rest out. unfold CLI.input_int, io_bind, input, lift.
  cbn [app stdin stdout]. now rewrite Hn.
Qed.

Variable f : R -> py R.
Variable ex : expr.
Variable tol : R.
Variable max_iter : Z.

(** [main] reads the inputs of the chosen method and calls its solver. *)
Lemma solve_bisection (a_s b_s : string) (a b : R) :
  float_of_string a_s = Ok a -> float_of_string b_s = Ok b ->
  runs (solve "1" f ex tol max_iter) [a_s; b_s]
    (CLI.bisection f a b tol max_iter)
    ["Enter lower bound a: "; "Enter upper bound b: "].
Proof.
  intros Ha Hb. unfold solve, CLI.solve. cbn [String.eqb Ascii.eqb Bool.eqb].
  reads_number runs_input_float. reads_number runs_input_float.
  apply runs_lift.
Qed.

Lemma solve_regula_falsi (a_s b_s : string) (a b : R) :
  float_of_string a_s = Ok a -> float_of_string b_s = Ok b ->
  runs (solve "2" f ex tol max_iter) [a_s; b_s]
    (CLI.regula_falsi f a b tol max_iter)
    ["Enter lower bound a: "; "Enter upper bound b: "].
Proof.
  intros Ha Hb. unfold solve, CLI.solve. cbn [String.eqb Ascii.eqb Bool.eqb].
  reads_number runs_input_float. reads_number runs_input_float.
  apply runs_lift.
Qed.

Lemma solve_secant (x0_s x1_s : string) (x0 x1 : R) :
  float_of_string x0_s = Ok x0 -> float_of_string x1_s = Ok x1 ->
  runs (solve "3" f ex tol max_iter) [x0_s; x1_s]
    (CLI.secant f x0 x1 tol max_iter)
    ["Enter first guess x0: "; "Enter second guess x1: "].
Proof.
  intros H0 H1. unfold solve, CLI.solve. cbn [String.eqb Ascii.eqb Bool.eqb].
  reads_number runs_input_float. reads_number runs_input_float.
  apply runs_lift.
Qed.

Lemma solve_newton_raphson (x0_s : string) (x0 : R) :
  float_of_string x0_s = Ok x0 ->
  runs (solve "4" f ex tol max_iter) [x0_s]
    (CLI.newton_raphson f (lambdify (diff ex)) x0 tol max_iter)
    ["Enter initial guess x0: ";
     "Calculated Derivative: " ++ str_expr (diff ex)].
Proof.
  intros H0. unfold solve, CLI.solve. cbn [String.eqb Ascii.eqb Bool.eqb].
  reads_number runs_input_float. cbv zeta. prints_line.
  apply runs_lift.
Qed.

Lemma solve_fixed_point (x0_s : string) (x0 : R) :
  float_of_string x0_s = Ok x0 ->
  runs (solve "5" f ex tol max_iter) [x0_s]
    (CLI.fixed_point f x0 tol max_iter) ["Enter initial guess x0: "].
Proof.
  intros H0. unfold solve, CLI.solve. cbn [String.eqb Ascii.eqb Bool.eqb].
  reads_number runs_input_float. apply runs_lift.
Qed.

Lemma solve_modified_secant (x0_s delta_s : string) (x0 delta : R) :
  float_of_string x0_s = Ok x0 -> float_of_string delta_s = Ok delta ->
  runs (solve "6" f ex tol max_iter) [x0_s; delta_s]
    (CLI.modified_secant f x0 delta tol max_iter)
    ["Enter initial guess x0: "; "Enter perturbation delta (e.g., 0.01): "].
Proof.
  intros H0 Hd. unfold solve, CLI.solve. cbn [String.eqb Ascii.eqb Bool.eqb].
  reads_number runs_input_float. reads_number runs_input_float.
  apply runs_lift.
Qed.
Lemma runs_menu :
  runs CLI.menu [] (Ok tt)
    [(nl ++ "Select a Method:")%string; "1. Bisection Method";
     "2. Regula Falsi Method"; "3. Secant Method";
     "4. Newton-Raphson Method"; "5. Fixed Point Iteration";
     "6. Modified Secant Method"; "0. Exit"].
Proof.
  unfold CLI.menu. do 7 prints_line. apply runs_print.
Qed.

Variables func_str tol_s max_s : string.
Hypothesis function_parses : sympify func_str = Ok ex.
Hypothesis function_compiled : f = lambdify ex.
Hypothesis tolerance_parses : float_of_string tol_s = Ok tol.
Hypothesis max_iter_parses : int_of_string max_s = Ok max_iter.

(** When the solver of the chosen method raises, the [try] of [main]
    prints the message of the exception and the loop goes on. *)
Lemma main_pass_catches (choice : string) (lines printed : list string)
    (e : exn) :
  In choice ["1"; "2"; "3"; "4"; "5"; "6"]%string ->
  runs (solve choice f ex tol max_iter) lines (Raise e) printed ->
  caught_by main_pass (choice :: func_str :: tol_s :: max_s :: lines) e.
Proof.
  intros Hc Hsolve.
  pose (asked :=
    (if choice =? "5"
     then "Enter g(x) for x = g(x) (e.g., 'exp(-x)'): "
     else "Enter f(x) (e.g., 'x**3 - x - 2'): ")%string
    :: "Enter tolerance (e.g., 0.0001): "%string
    :: "Enter max iterations (e.g., 50): "%string
    :: printed).
  exists ((nl ++ "Select a Method:")%string :: "1. Bisection Method"%string
          :: "2. Regula Falsi Method"%string :: "3. Secant Method"%string
          :: "4. Newton-Raphson Method"%string
          :: "5. Fixed Point Iteration"%string
          :: "6. Modified Secant Method"%string :: "0. Exit"%string
          :: (nl ++ "Enter choice (0-6): ")%string :: asked).
  unfold main_pass, CLI.main_pass.
  apply (runs_bind _ _ [] (choice :: func_str :: tol_s :: max_s :: lines) tt
           _ ((nl ++ "Enter choice (0-6): ")%string
              :: (asked ++ [("An error occurred: " ++ str_exn e)%string])%list)
           _ runs_menu).
  reads_line.
  assert (Hpass : (choice =? "0")%string = false /\
                  negb (existsb (String.eqb choice)
                          ["1"; "2"; "3"; "4"; "5"; "6"]%string) = false).
  { cbn [In] in Hc.
    destruct Hc as [<- | [<- | [<- | [<- | [<- | [<- | []]]]]]];
      split; reflexivity. }
  destruct Hpass as [H0 Hin]. rewrite H0, Hin.
  eapply runs_bind_ret. apply runs_caught.
  unfold asked, CLI.main_try. reads_line.
  apply (runs_bind _ _ [] (tol_s :: max_s :: lines) (Some (f, ex)) []
           ("Enter tolerance (e.g., 0.0001): "%string
            :: "Enter max iterations (e.g., 50): "%string :: printed)).
  { unfold CLI.parse_function. rewrite function_parses, function_compiled.
    apply runs_ret. }
  cbv beta iota.
  reads_number runs_input_float. reads_number runs_input_int.
  apply runs_raise. exact Hsolve.
Qed.
End ConsoleRuns.

Lemma agree_raise {R : Type} (rows : row R -> row R -> Prop) (max_iter : Z)
    (e : exn) (w : py (@App.response R)) :
  agree rows max_iter (Raise e) w -> w = Raise e.
Proof. destruct w as [r | e']; cbn; [contradiction | now intros ->]. Qed.

Section EvaluationFailure.
Context {R : Type} `{NumberLaws R}.
Variable expr : Type.
Variable sympify : string -> py expr.
Variable form_sympify : option string -> py expr.
Variable lambdify : expr -> R -> py R.
Variable diff : expr -> expr.
Variable str_expr : expr -> string.
Variable float_of_string : string -> py R.
Variable int_of_string : string -> py Z.
Variable format_num : string -> R -> string.

Let main_pass : io bool :=
  CLI.main_pass expr sympify lambdify diff str_expr float_of_string
    int_of_string format_num.

Let run_method : option string -> App.form -> App.response :=
  App.run_method expr form_sympify lambdify diff float_of_string
    int_of_string format_num.

Let given : App.form -> string -> R -> Prop := field float_of_string.

(** The function, the tolerance and the maximum of iterations, as typed on
    the console and as sent in the form. *)
Variables func_str tol_s max_s : string.
Variable params : App.form.
Variable ex : expr.
Variable tol : R.
Variable max_iter : Z.

Hypothesis function_parses : sympify func_str = Ok ex.
Hypothesis tolerance_parses : float_of_string tol_s = Ok tol.
Hypothesis max_iter_parses : int_of_string max_s = Ok max_iter.
Hypothesis form_function : form_sympify (App.get params "function") = Ok ex.
Hypothesis form_tolerance : given params "tolerance" tol.
Hypothesis form_max_iter :
  App.int_ int_of_string (App.get params "max_iter") = Ok max_iter.

Let f : R -> py R := lambdify ex.
Let df : R -> py R := lambdify (diff ex).

Ltac caught_with Hsolve :=
  eapply (main_pass_catches expr sympify lambdify diff str_expr
           float_of_string int_of_string format_num f ex tol max_iter
           func_str tol_s max_s function_parses eq_refl tolerance_parses
           max_iter_parses);
  [cbn [In]; tauto | rewrite <- Hsolve].

Ltac reported_with Hagree Hraise :=
  unfold run_method, App.run_method, App.run_method_try, App.parse_function;
  unfold given, field in *;
  rewrite form_tolerance, form_max_iter, form_function; cbn [bind];
  cbv iota beta;
  repeat match goal with
         | Hx : App.float_ _ (App.get params _) = Ok _ |- _ =>
             rewrite Hx; clear Hx
         end;
  cbn [bind]; cbv zeta;
  pose proof Hagree as Hag; rewrite Hraise in Hag;
  apply agree_raise in Hag; fold f; unfold App.get_derivative; fold df;
  rewrite Hag; reflexivity.

(** C7, amended.  For every method, if the evaluation of the compiled
    function (or of its derivative) raises an exception at a point that the
    run visits, the solver of ZOF_CLI.py returns no outcome: the exception
    leaves it.  The front ends catch it.  The pass of the loop of [main]
    that read the inputs prints [An error occurred: ...] with the message
    of the exception and asks for the next choice; [run_method] of app.py,
    given the same inputs in the form, returns the dict
    [{"error": str(e)}]. *)
Theorem evaluation_failure_is_caught_by_the_front_ends (e : exn) :
  (forall a_s b_s a b,
     float_of_string a_s = Ok a -> float_of_string b_s = Ok b ->
     bisection_visits_failure f a b tol max_iter e ->
     CLI.bisection f a b tol max_iter = Raise e /\
     caught_by main_pass ["1"; func_str; tol_s; max_s; a_s; b_s] e /\
     (given params "param_a" a -> given params "param_b" b ->
      run_method (Some "1"%string) params = App.RError (str_exn e)))
  /\
  (forall a_s b_s a b,
     float_of_string a_s = Ok a -> float_of_string b_s = Ok b ->
     regula_falsi_visits_failure f a b tol max_iter e ->
     CLI.regula_falsi f a b tol max_iter = Raise e /\
     caught_by main_pass ["2"; func_str; tol_s; max_s; a_s; b_s] e /\
     (given params "param_a" a -> given params "param_b" b ->
      run_method (Some "2"%string) params = App.RError (str_exn e)))
  /\
  (forall x0_s x1_s x0 x1,
     float_of_string x0_s = Ok x0 -> float_of_string x1_s = Ok x1 ->
     secant_visits_failure f x0 x1 tol max_iter e ->
     CLI.secant f x0 x1 tol max_iter = Raise e /\
     caught_by main_pass ["3"; func_str; tol_s; max_s; x0_s; x1_s] e /\
     (given params "param_x0" x0 -> given params "param_x1" x1 ->
      run_method (Some "3"%string) params = App.RError (str_exn e)))
  /\
  (forall x0_s x0,
     float_of_string x0_s = Ok x0 ->
     newton_raphson_visits_failure f df x0 tol max_iter e ->
     CLI.newton_raphson f df x0 tol max_iter = Raise e /\
     caught_by main_pass ["4"; func_str; tol_s; max_s; x0_s] e /\
     (given params "param_x0" x0 ->
      run_method (Some "4"%string) params = App.RError (str_exn e)))
  /\
  (forall x0_s x0,
     float_of_string x0_s = Ok x0 ->
     fixed_point_visits_failure f x0 tol max_iter e ->
     CLI.fixed_point f x0 tol max_iter = Raise e /\
     caught_by main_pass ["5"; func_str; tol_s; max_s; x0_s] e /\
     (given params "param_x0" x0 ->
      run_method (Some "5"%string) params = App.RError (str_exn e)))
  /\
  (forall x0_s delta_s x0 delta,
     float_of_string x0_s = Ok x0 -> float_of_string delta_s = Ok delta ->
     modified_secant_visits_failure f x0 delta tol max_iter e ->
     CLI.modified_secant f x0 delta tol max_iter = Raise e /\
     caught_by main_pass ["6"; func_str; tol_s; max_s; x0_s; delta_s] e /\
     (given params "param_x0" x0 -> given params "param_delta" delta ->
      run_method (Some "6"%string) params = App.RError (str_exn e))).
Proof.
  split; [ | split; [ | split; [ | split; [ | split]]]].
  - intros a_s b_s a b Ha Hb Hv. apply bisection_raises in Hv.
    split; [exact Hv | ]. split.
    + caught_with Hv. now apply solve_bisection.
    + intros Hpa Hpb.
      reported_with (bisection_agrees format_num f a b tol max_iter) Hv.
  - intros a_s b_s a b Ha Hb Hv. apply regula_falsi_visit_raises in Hv.
    split; [exact Hv | ]. split.
    + caught_with Hv. now apply solve_regula_falsi.
    + intros Hpa Hpb.
      reported_with (regula_falsi_agrees format_num f a b tol max_iter) Hv.
  - intros x0_s x1_s x0 x1 Hx0 Hx1 Hv. apply secant_raises in Hv.
    split; [exact Hv | ]. split.
    + caught_with Hv. now apply solve_secant.
    + intros Hp0 Hp1.
      reported_with (secant_agrees format_num f x0 x1 tol max_iter) Hv.
  - intros x0_s x0 Hx0 Hv. apply newton_raphson_raises in Hv.
    split; [exact Hv | ]. split.
    + caught_with Hv. now apply solve_newton_raphson.
    + intros Hp0.
      reported_with (newton_raphson_agrees format_num f df x0 tol max_iter) Hv.
  - intros x0_s x0 Hx0 Hv. apply fixed_point_raises in Hv.
    split; [exact Hv | ]. split.
    + caught_with Hv. now apply solve_fixed_point.
    + intros Hp0.
      reported_with (fixed_point_agrees format_num f x0 tol max_iter) Hv.
  - intros x0_s delta_s x0 delta Hx0 Hd Hv. apply modified_secant_raises in Hv.
    split; [exact Hv | ]. split.
    + caught_with Hv. now apply solve_modified_secant.
    + intros Hp0 Hpd.
      reported_with
        (modified_secant_agrees format_num f x0 delta tol max_iter) Hv.
Qed.
End EvaluationFailure.

(** C7 at work on binary64: bisection of [2/x] on [[-1, 1]], asked for on
    the console and through the form.  The sign test passes, and the first
    pass evaluates the function at the midpoint [0], where the division
    raises. *)
Lemma evaluation_failure_is_caught_by_the_front_ends_witness :
  let ex := Sympy.Div (Sympy.Num 2%float) Sympy.X in
  let float_of_string (s : string) : py float :=
    if s =? "0.001" then Ok 0.001%float
    else if s =? "-1" then Ok (-1)%float
    else if s =? "1" then Ok 1%float
    else Raise (ValueError "could not convert string to float") in
  let int_of_string (s : string) : py Z :=
    if s =? "50" then Ok 50%Z
    else Raise (ValueError "invalid literal for int() with base 10") in
  let main_pass :=
    CLI.main_pass (Sympy.expr float) (fun _ => Ok ex) Sympy.lambdify
      Sympy.diff (fun _ => ""%string) float_of_string int_of_string
      (fun _ _ => ""%string) in
  let params := [("function", "2/x"); ("tolerance", "0.001");
                 ("max_iter", "50"); ("param_a", "-1"); ("param_b", "1")] in
  let e := ZeroDivisionError "float division by zero" in
  bisection_visits_failure (Sympy.lambdify ex) (-1)%float 1%float
    0.001%float 50 e /\
  CLI.bisection (Sympy.lambdify ex) (-1)%float 1%float 0.001%float 50
    = Raise e /\
  caught_by main_pass ["1"; "2/x"; "0.001"; "50"; "-1"; "1"] e /\
  App.run_method (Sympy.expr float) (fun _ => Ok ex) Sympy.lambdify
    Sympy.diff float_of_string int_of_string (fun _ _ => ""%string)
    (Some "1"%string) params
  = App.RError "float division by zero".
Proof.
  intros ex float_of_string int_of_string main_pass params e.
  assert (Hv : bisection_visits_failure (Sympy.lambdify ex) (-1)%float
                 1%float 0.001%float 50 e).
  { right. split.
    - exists (-2)%float, 2%float. repeat split; reflexivity.
    - exists 0%nat, ((-1)%float, 1%float, []). split.
      + split; [cbn; lia | reflexivity].
      + left. reflexivity. }
  split; [exact Hv | ].
  destruct (evaluation_failure_is_caught_by_the_front_ends
              (Sympy.expr float) (fun _ => Ok ex) (fun _ => Ok ex)
              Sympy.lambdify Sympy.diff (fun _ => ""%string) float_of_string
              int_of_string (fun _ _ => ""%string)
              "2/x" "0.001" "50" params ex 0.001%float 50
              eq_refl eq_refl eq_refl eq_refl eq_refl eq_refl e)
    as (Hbisection & _).
  destruct (Hbisection "-1"%string "1"%string (-1)%float 1%float
              eq_refl eq_refl Hv) as (Hraise & Hcli & Happ).
  split; [exact Hraise | ]. split; [exact Hcli | ].
  apply Happ; reflexivity.
Defined.

(** Against C7 as stated, on binary64.  Bisection of [2/x] on [[-1, 1]]
    evaluates the function at [0]: the ZeroDivisionError leaves
    [bisection], which returns no failure outcome.  And an evaluation that
    yields NaN where the function is undefined is no failure at all:
    with [f(x) = sqrt(x) - 1], for which numpy gives NaN at [-1], bisection
    on [[-1, 4]] passes the sign test and returns a success. *)
Lemma evaluation_failure_leaves_the_solver :
  let f : CLI.fn := fun x => pydiv 2%float x in
  let g : CLI.fn := fun x => Ok (PrimFloat.sqrt x - 1)%float in
  (f 0%float = Raise (ZeroDivisionError "float division by zero") /\
   CLI.bisection f (-1)%float 1%float 0.001%float 50
     = Raise (ZeroDivisionError "float division by zero") /\
   ~ exists msg,
       CLI.bisection f (-1)%float 1%float 0.001%float 50 = Ok (Failure msg))
  /\
  (g (-1)%float = Ok nan /\
   (exists root h,
      CLI.bisection g (-1)%float 4%float 0.001%float 50
        = Ok (Success root h)) /\
   ~ exists msg,
       CLI.bisection g (-1)%float 4%float 0.001%float 50 = Ok (Failure msg)).
Proof.
  intros f g. split.
  - split; [reflexivity | ]. split; [vm_compute; reflexivity | ].
    intros [msg Hmsg]. vm_compute in Hmsg. discriminate Hmsg.
  - split; [vm_compute; reflexivity | ]. split.
    + do 2 eexists. vm_compute. reflexivity.
    + intros [msg Hmsg]. vm_compute in Hmsg. discriminate Hmsg.
Qed.
